(** * Mini-React fiber reconcilers: a shallow embedding

    The repository holds several stand-alone variants of a small
    "fiber" rendering engine.  Two of them are embedded here:

    - [Part001]: the variant with reconciliation, function components and
      an idle-callback work loop (src/unnamed/part_001);
    - [Gemini]: the synchronous variant (src/mini-react/gemini.html).

    JavaScript objects that are mutated and shared (fibers, DOM nodes) live
    in stores addressed by index: a fiber reference is an index into
    [heap], a DOM node reference an index into [document].  [None] stands
    for both [null] and [undefined] wherever the source only tests
    truthiness.  Loops and recursive walks over the stores take a fuel
    argument; running out of fuel is the outcome [OutOfFuel], an access
    through an index that is not in its store is the outcome [Invalid]
    (no JavaScript run reaches it).

    The browser is represented by a small document double: creating nodes,
    storing properties and registering listeners always succeed,
    [appendChild] moves the node to the end of the new parent's children,
    [removeChild] raises [NotFoundError] when the node is not a child of
    that parent, and [contains] is inclusive descent.  Name validation of
    [document.createElement] and the hierarchy check of [appendChild] are
    not part of the double. *)

From stdpp Require Import gmap strings list pretty.
From Stdlib Require Import ZArith Lia.

Open Scope string_scope.
Open Scope list_scope.

(** ** Values *)

(** Primitive values that occur as children and attribute values. *)
Inductive Prim :=
| PUndef
| PNull
| PBool (b : bool)
| PNum (z : Z)
| PStr (s : string).

(** Attribute values: primitives, or a reference to a function or object
    (compared by identity, as [===] does). *)
Inductive Value :=
| VPrim (p : Prim)
| VRef (r : nat).

#[global] Instance Prim_eq_dec : EqDecision Prim.
Proof. solve_decision. Defined.

#[global] Instance Value_eq_dec : EqDecision Value.
Proof. solve_decision. Defined.

(** [String(v)] on primitives. *)
Definition js_String (p : Prim) : string :=
  match p with
  | PUndef => "undefined"
  | PNull => "null"
  | PBool true => "true"
  | PBool false => "false"
  | PNum z => pretty z
  | PStr s => s
  end.

(** Truthiness of a primitive. *)
Definition truthy_prim (p : Prim) : bool :=
  match p with
  | PUndef | PNull => false
  | PBool b => b
  | PNum z => negb (Z.eqb z 0)
  | PStr s => negb (String.eqb s "")
  end.

(** [a !== b]. *)
Definition strict_ne (a b : Value) : bool := negb (bool_decide (a = b)).

(** ** Description nodes *)

(** The [type] of an element or fiber: a tag name or a component
    function (identified by its index in the component table). *)
Inductive FType :=
| TyStr (s : string)
| TyFun (c : nat).

#[global] Instance FType_eq_dec : EqDecision FType.
Proof. solve_decision. Defined.

(** What can sit in a children array: a primitive (including [null]), a
    nested array, or an element object [{type, props: {..., children}}]. *)
#[warnings="-register-all"]
Inductive Child :=
| CPrim (p : Prim)
| CArr (items : list Child)
| CElem (ty : option FType) (attributes : list (string * Value)) (kids : list Child).

(** A [props] object: its own keys other than [children] in insertion
    order, and the [children] array. *)
Record Props := mkProps {
  attrs : list (string * Value);
  children : list Child;
}.

(** [{}] *)
Definition empty_props : Props := mkProps [] [].

(** [props[key]] and [key in props], for keys other than [children]. *)
Fixpoint assoc (key : string) (l : list (string * Value)) : option Value :=
  match l with
  | [] => None
  | (k, v) :: l' => if String.eqb k key then Some v else assoc key l'
  end.

Definition get_prop (p : Props) (key : string) : Value :=
  match assoc key (attrs p) with
  | Some v => v
  | None => VPrim PUndef
  end.

Definition has_prop (p : Props) (key : string) : bool :=
  match assoc key (attrs p) with
  | Some _ => true
  | None => false
  end.

(** [Object.keys(props)] without [children], which every filter of the
    source drops. *)
Definition keys (p : Props) : list string := map fst (attrs p).

(** Truthiness, [.type] and [.props] of an entry of a children array. *)
Definition truthy (c : Child) : bool :=
  match c with
  | CPrim p => truthy_prim p
  | CArr _ => true
  | CElem _ _ _ => true
  end.

Definition child_type (c : Child) : option FType :=
  match c with
  | CElem ty _ _ => ty
  | _ => None
  end.

Definition child_props (c : Child) : option Props :=
  match c with
  | CElem _ a k => Some (mkProps a k)
  | _ => None
  end.

(** [typeof c === "object"]: elements, arrays and [null]. *)
Definition typeof_object (c : Child) : bool :=
  match c with
  | CPrim PNull => true
  | CPrim _ => false
  | CArr _ => true
  | CElem _ _ _ => true
  end.

(** [{...props}] minus the [children] key, for [props] possibly [null]. *)
Definition spread (props : option (list (string * Value))) : list (string * Value) :=
  match props with
  | Some l => filter (fun kv => negb (String.eqb (fst kv) "children")) l
  | None => []
  end.

(** [Array.prototype.flat()] (depth 1). *)
Definition flat (cs : list Child) : list Child :=
  concat (map (fun c => match c with CArr items => items | _ => [c] end) cs).

(** ** Fibers *)

Inductive EffectTag := PLACEMENT | UPDATE | DELETION.

#[global] Instance EffectTag_eq_dec : EqDecision EffectTag.
Proof. solve_decision. Defined.

Record Fiber := mkFiber {
  type : option FType;
  props : option Props;
  dom : option nat;
  parent : option nat;
  child : option nat;
  sibling : option nat;
  alternate : option nat;
  effectTag : option EffectTag;
}.

Definition set_dom (d : option nat) (f : Fiber) : Fiber :=
  mkFiber (type f) (props f) d (parent f) (child f) (sibling f) (alternate f) (effectTag f).

Definition set_child (c : option nat) (f : Fiber) : Fiber :=
  mkFiber (type f) (props f) (dom f) (parent f) c (sibling f) (alternate f) (effectTag f).

Definition set_sibling (s : option nat) (f : Fiber) : Fiber :=
  mkFiber (type f) (props f) (dom f) (parent f) (child f) s (alternate f) (effectTag f).

Definition set_effectTag (t : option EffectTag) (f : Fiber) : Fiber :=
  mkFiber (type f) (props f) (dom f) (parent f) (child f) (sibling f) (alternate f) t.

(** ** The document double *)

Inductive NodeKind := ElementNode (tag : string) | TextNode.

Record DomNode := mkDomNode {
  nodeKind : NodeKind;
  properties : gmap string Value;
  listeners : list (string * Value);
  parentNode : option nat;
  childNodes : list nat;
}.

Definition set_properties (ps : gmap string Value) (n : DomNode) : DomNode :=
  mkDomNode (nodeKind n) ps (listeners n) (parentNode n) (childNodes n).

Definition set_listeners (ls : list (string * Value)) (n : DomNode) : DomNode :=
  mkDomNode (nodeKind n) (properties n) ls (parentNode n) (childNodes n).

Definition set_parentNode (p : option nat) (n : DomNode) : DomNode :=
  mkDomNode (nodeKind n) (properties n) (listeners n) p (childNodes n).

Definition set_childNodes (cs : list nat) (n : DomNode) : DomNode :=
  mkDomNode (nodeKind n) (properties n) (listeners n) (parentNode n) cs.

(** ** Engine state and outcomes *)

Record State := mkState {
  heap : list Fiber;
  document : list DomNode;
  nextUnitOfWork : option nat;
  currentRoot : option nat;
  wipRoot : option nat;
  deletions : list nat;
}.

Definition with_heap (h : list Fiber) (s : State) : State :=
  mkState h (document s) (nextUnitOfWork s) (currentRoot s) (wipRoot s) (deletions s).

Definition with_document (d : list DomNode) (s : State) : State :=
  mkState (heap s) d (nextUnitOfWork s) (currentRoot s) (wipRoot s) (deletions s).

Definition with_nextUnitOfWork (n : option nat) (s : State) : State :=
  mkState (heap s) (document s) n (currentRoot s) (wipRoot s) (deletions s).

Definition with_deletions (l : list nat) (s : State) : State :=
  mkState (heap s) (document s) (nextUnitOfWork s) (currentRoot s) (wipRoot s) l.

Inductive JsError := TypeError | NotFoundError | InvalidCharacterError.

Inductive Outcome (A : Type) :=
| Ok (a : A)
| Throw (e : JsError)
| OutOfFuel
| Invalid.

Arguments Ok {A} a.
Arguments Throw {A} e.
Arguments OutOfFuel {A}.
Arguments Invalid {A}.

(** Computations over the engine state. *)
Definition M (A : Type) : Type := State -> Outcome (A * State).

Definition ret {A} (a : A) : M A := fun s => Ok (a, s).

Definition bind {A B} (m : M A) (k : A -> M B) : M B :=
  fun s =>
    match m s with
    | Ok (a, s') => k a s'
    | Throw e => Throw e
    | OutOfFuel => OutOfFuel
    | Invalid => Invalid
    end.

Definition throw {A} (e : JsError) : M A := fun _ => Throw e.
Definition out_of_fuel {A} : M A := fun _ => OutOfFuel.
Definition invalid {A} : M A := fun _ => Invalid.

Declare Scope js_scope.
Delimit Scope js_scope with js.
Notation "x <- m ;; k" := (bind m (fun x => k))
  (at level 100, m at next level, right associativity) : js_scope.
Notation "m ;;; k" := (bind m (fun _ => k))
  (at level 100, right associativity) : js_scope.
Open Scope js_scope.

Definition get_state : M State := fun s => Ok (s, s).
Definition modify (f : State -> State) : M unit := fun s => Ok (tt, f s).

(** Reading and writing a fiber through its reference. *)
Definition read_fiber (i : nat) : M Fiber :=
  fun s => match heap s !! i with
           | Some f => Ok (f, s)
           | None => Invalid
           end.

Definition update_fiber (i : nat) (g : Fiber -> Fiber) : M unit :=
  fun s => match heap s !! i with
           | Some f => Ok (tt, with_heap (<[i := g f]> (heap s)) s)
           | None => Invalid
           end.

(** A fresh fiber object. *)
Definition new_fiber (f : Fiber) : M nat :=
  fun s => Ok (length (heap s), with_heap (heap s ++ [f]) s).

(** Reading and writing a DOM node through its reference. *)
Definition read_node (i : nat) : M DomNode :=
  fun s => match document s !! i with
           | Some n => Ok (n, s)
           | None => Invalid
           end.

Definition update_node (i : nat) (g : DomNode -> DomNode) : M unit :=
  fun s => match document s !! i with
           | Some n => Ok (tt, with_document (<[i := g n]> (document s)) s)
           | None => Invalid
           end.

Definition new_node (n : DomNode) : M nat :=
  fun s => Ok (length (document s), with_document (document s ++ [n]) s).

(** [for (x of l) body(x)] *)
Fixpoint forEach {A} (body : A -> M unit) (l : list A) : M unit :=
  match l with
  | [] => ret tt
  | x :: l' => body x ;;; forEach body l'
  end.

(** ** Document operations *)

(** Take node [c] out of its parent's child list, if it has a parent. *)
Definition detach (c : nat) : M unit :=
  n <- read_node c ;;
  match parentNode n with
  | None => ret tt
  | Some p =>
      update_node p (fun pn => set_childNodes (filter (fun x => x ≠ c) (childNodes pn)) pn) ;;;
      update_node c (set_parentNode None)
  end.

(** [p.appendChild(c)] *)
Definition appendChild (p c : nat) : M unit :=
  read_node p ;;;
  detach c ;;;
  update_node p (fun pn => set_childNodes (childNodes pn ++ [c]) pn) ;;;
  update_node c (set_parentNode (Some p)).

(** [p.removeChild(c)] *)
Definition removeChild (p c : nat) : M unit :=
  read_node p ;;;
  n <- read_node c ;;
  if bool_decide (parentNode n = Some p) then detach c else throw NotFoundError.

(** [p.contains(c)]: [c] is [p] or a descendant of [p]. *)
Fixpoint contains_from (fuel : nat) (doc : list DomNode) (p c : nat) : bool :=
  if bool_decide (c = p) then true
  else
    match fuel with
    | 0 => false
    | S fuel' =>
        match doc !! c with
        | Some n =>
            match parentNode n with
            | Some q => contains_from fuel' doc p q
            | None => false
            end
        | None => false
        end
    end.

Definition contains (p c : nat) : M bool :=
  fun s => Ok (contains_from (length (document s)) (document s) p c, s).

(** [dom[name] = v], [dom.setAttribute(name, v)] *)
Definition set_property (d : nat) (name : string) (v : Value) : M unit :=
  update_node d (fun n => set_properties (<[name := v]> (properties n)) n).

(** [dom.removeAttribute(name)] *)
Definition remove_property (d : nat) (name : string) : M unit :=
  update_node d (fun n => set_properties (delete name (properties n)) n).

Definition addEventListener (d : nat) (eventType : string) (handler : Value) : M unit :=
  update_node d (fun n =>
    if bool_decide ((eventType, handler) ∈ listeners n) then n
    else set_listeners (listeners n ++ [(eventType, handler)]) n).

Definition removeEventListener (d : nat) (eventType : string) (handler : Value) : M unit :=
  update_node d (fun n =>
    set_listeners (filter (fun l => l ≠ (eventType, handler)) (listeners n)) n).

Definition createTextNode (text : string) : M nat :=
  new_node (mkDomNode TextNode {["nodeValue" := VPrim (PStr text)]} [] None []).

Definition document_createElement (tag : string) : M nat :=
  new_node (mkDomNode (ElementNode tag) ∅ [] None []).

(** ** String helpers *)

Definition lower_ascii (a : Ascii.ascii) : Ascii.ascii :=
  let n := Ascii.nat_of_ascii a in
  if (65 <=? n)%nat && (n <=? 90)%nat then Ascii.ascii_of_nat (n + 32) else a.

Fixpoint toLowerCase (s : string) : string :=
  match s with
  | EmptyString => EmptyString
  | String a s' => String (lower_ascii a) (toLowerCase s')
  end.

(** [s.substring(n)] *)
Definition substring_from (n : nat) (s : string) : string :=
  String.substring n (String.length s - n) s.

(** [name.toLowerCase().substring(2)] *)
Definition event_type (name : string) : string := substring_from 2 (toLowerCase name).

Definition startsWith (pre s : string) : bool := String.prefix pre s.

(** ** Code shared by the two variants *)

Inductive Variant := VPart001 | VGemini.

(** [wipFiber.alternate && wipFiber.alternate.child] *)
Definition first_old_fiber (wipFiber : nat) : M (option nat) :=
  w <- read_fiber wipFiber ;;
  match alternate w with
  | None => ret None
  | Some a => af <- read_fiber a ;; ret (child af)
  end.

(** The [element] of one iteration: [elements[index]], or nothing past the
    end; an entry counts only when it is truthy. *)
Definition element_at (elements : list Child) (index : nat) : option Child :=
  match elements !! index with
  | Some c => if truthy c then Some c else None
  | None => None
  end.

(** [oldFiber && element && element.type === oldFiber.type] *)
Definition same_type (old : option Fiber) (element : option Child) : bool :=
  match old, element with
  | Some o, Some e => bool_decide (child_type e = type o)
  | _, _ => false
  end.

(** The loop of [reconcileChildren].  The variants differ in the guard of
    the sibling link: part_001 writes [prevSibling.sibling] whenever
    [element] is present, gemini.html only when [prevSibling] is present
    too. *)
Fixpoint reconcile_loop (v : Variant) (fuel : nat) (wipFiber : nat) (elements : list Child)
    (index : nat) (oldFiber prevSibling : option nat) : M unit :=
  if bool_decide (index < length elements) || bool_decide (oldFiber ≠ None) then
    match fuel with
    | 0 => out_of_fuel
    | S fuel' =>
        let element := element_at elements index in
        old <- match oldFiber with
               | Some o => f <- read_fiber o ;; ret (Some f)
               | None => ret None
               end ;;
        let sameType := same_type old element in
        updated <- match old, element with
                   | Some o, Some e =>
                       if sameType then
                         n <- new_fiber (mkFiber (type o) (child_props e) (dom o)
                                (Some wipFiber) None None oldFiber (Some UPDATE)) ;;
                         ret (Some n)
                       else ret None
                   | _, _ => ret None
                   end ;;
        newFiber <- match element with
                    | Some e =>
                        if negb sameType then
                          n <- new_fiber (mkFiber (child_type e) (child_props e) None
                                 (Some wipFiber) None None None (Some PLACEMENT)) ;;
                          ret (Some n)
                        else ret updated
                    | None => ret updated
                    end ;;
        match oldFiber with
        | Some o =>
            if negb sameType then
              update_fiber o (set_effectTag (Some DELETION)) ;;;
              modify (fun s => with_deletions (deletions s ++ [o]) s)
            else ret tt
        | None => ret tt
        end ;;;
        oldFiber' <- match oldFiber with
                     | Some o => f <- read_fiber o ;; ret (sibling f)
                     | None => ret None
                     end ;;
        (if bool_decide (index = 0) then update_fiber wipFiber (set_child newFiber)
         else
           match element, prevSibling, v with
           | Some _, Some p, _ => update_fiber p (set_sibling newFiber)
           | Some _, None, VPart001 => throw TypeError
           | _, _, _ => ret tt
           end) ;;;
        reconcile_loop v fuel' wipFiber elements (S index) oldFiber' newFiber
    end
  else ret tt.

Definition reconcileChildren (v : Variant) (fuel : nat) (wipFiber : nat) (elements : list Child) : M unit :=
  oldFiber <- first_old_fiber wipFiber ;;
  reconcile_loop v fuel wipFiber elements 0 oldFiber None.

(** The tail of [performUnitOfWork]: the climb through [parent] links. *)
Fixpoint sibling_climb (fuel : nat) (h : list Fiber) (nextFiber : option nat) : Outcome (option nat) :=
  match nextFiber with
  | None => Ok None
  | Some i =>
      match fuel with
      | 0 => OutOfFuel
      | S fuel' =>
          match h !! i with
          | None => Invalid
          | Some f =>
              match sibling f with
              | Some s => Ok (Some s)
              | None => sibling_climb fuel' h (parent f)
              end
          end
      end
  end.

Definition next_unit (fuel : nat) (fiber : nat) : M (option nat) :=
  f <- read_fiber fiber ;;
  match child f with
  | Some c => ret (Some c)
  | None =>
      fun s => match sibling_climb fuel (heap s) (Some fiber) with
               | Ok r => Ok (r, s)
               | Throw e => Throw e
               | OutOfFuel => OutOfFuel
               | Invalid => Invalid
               end
  end.

(** The search for the nearest ancestor fiber that owns a DOM node. *)
Fixpoint dom_parent_fiber (fuel : nat) (h : list Fiber) (domParentFiber : option nat) : Outcome (option Fiber) :=
  match domParentFiber with
  | None => Ok None
  | Some i =>
      match h !! i with
      | None => Invalid
      | Some f =>
          match dom f with
          | Some _ => Ok (Some f)
          | None =>
              match fuel with
              | 0 => OutOfFuel
              | S fuel' => dom_parent_fiber fuel' h (parent f)
              end
          end
      end
  end.

Definition find_dom_parent (fuel : nat) (start : option nat) : M (option Fiber) :=
  fun s => match dom_parent_fiber fuel (heap s) start with
           | Ok r => Ok (r, s)
           | Throw e => Throw e
           | OutOfFuel => OutOfFuel
           | Invalid => Invalid
           end.

(** * The variant of src/unnamed/part_001 *)

Module Part001.

(** [createTextElement(text)]: the value is stored as it is. *)
Definition createTextElement (text : Prim) : Child :=
  CElem (Some (TyStr "TEXT_ELEMENT")) [("nodeValue", VPrim text)] [].

(** [createElement(type, props, ...children)] *)
Definition createElement (ty : option FType) (props : option (list (string * Value)))
    (children : list Child) : Child :=
  CElem ty (spread props)
    (map (fun child =>
            if typeof_object child then child
            else match child with
                 | CPrim p => createTextElement p
                 | _ => child
                 end) children).

Definition isEvent (key : string) : bool := startsWith "on" key.
Definition isProperty (key : string) : bool :=
  negb (String.eqb key "children") && negb (isEvent key).
Definition isNew (prev next : Props) (key : string) : bool :=
  strict_ne (get_prop prev key) (get_prop next key).
Definition isGone (prev next : Props) (key : string) : bool :=
  negb (has_prop next key).

(** [updateDomProperties(dom, prevProps, nextProps)] *)
Definition updateDomProperties (d : nat) (prevProps nextProps : Props) : M unit :=
  forEach (fun name => set_property d name (VPrim (PStr "")))
    (filter (fun k => isGone prevProps nextProps k) (filter (fun k => isProperty k) (keys prevProps))) ;;;
  forEach (fun name => removeEventListener d (event_type name) (get_prop prevProps name))
    (filter (fun k => negb (has_prop nextProps k) || isNew prevProps nextProps k)
       (filter (fun k => isEvent k) (keys prevProps))) ;;;
  forEach (fun name => set_property d name (get_prop nextProps name))
    (filter (fun k => isNew prevProps nextProps k) (filter (fun k => isProperty k) (keys nextProps))) ;;;
  forEach (fun name => addEventListener d (event_type name) (get_prop nextProps name))
    (filter (fun k => isNew prevProps nextProps k) (filter (fun k => isEvent k) (keys nextProps))).

(** The tag name [document.createElement] is called with. *)
Definition tag_name (ty : option FType) : string :=
  match ty with
  | Some (TyStr s) => s
  | _ => "undefined"
  end.

(** [createDom(fiber)]; [Object.keys] of a missing [props] raises. *)
Definition createDom (f : Fiber) : M nat :=
  d <- (if bool_decide (type f = Some (TyStr "TEXT_ELEMENT")) then createTextNode ""
        else document_createElement (tag_name (type f))) ;;
  match props f with
  | Some p => updateDomProperties d empty_props p ;;; ret d
  | None => throw TypeError
  end.

Section Components.

(** The component table: what the function at index [c] returns for the
    given [props].  The hook store behind [useState] is not part of the
    embedding. *)
Variable call_component : nat -> option Props -> Child.

(** [updateHostComponent(fiber)] *)
Definition updateHostComponent (fuel : nat) (fiber : nat) : M unit :=
  f <- read_fiber fiber ;;
  match dom f with
  | None => d <- createDom f ;; update_fiber fiber (set_dom (Some d))
  | Some _ => ret tt
  end ;;;
  f <- read_fiber fiber ;;
  match props f with
  | Some p => reconcileChildren VPart001 fuel fiber (children p)
  | None => throw TypeError
  end.

(** [updateFunctionComponent(fiber)] *)
Definition updateFunctionComponent (fuel : nat) (fiber : nat) (c : nat) : M unit :=
  f <- read_fiber fiber ;;
  reconcileChildren VPart001 fuel fiber [call_component c (props f)].

(** [performUnitOfWork(fiber)] *)
Definition performUnitOfWork (fuel : nat) (fiber : nat) : M (option nat) :=
  f <- read_fiber fiber ;;
  match type f with
  | Some (TyFun c) => updateFunctionComponent fuel fiber c
  | _ => updateHostComponent fuel fiber
  end ;;;
  next_unit fuel fiber.

(** [commitDeletion(fiber, domParent)] *)
Fixpoint commitDeletion (fuel : nat) (fiber : nat) (domParent : nat) : M unit :=
  f <- read_fiber fiber ;;
  match dom f, child f with
  | Some d, _ => removeChild domParent d
  | None, Some c =>
      match fuel with
      | 0 => out_of_fuel
      | S fuel' => commitDeletion fuel' c domParent
      end
  | None, None => ret tt
  end.

(** [commitWork(fiber)] *)
Fixpoint commitWork (fuel : nat) (fiber : option nat) : M unit :=
  match fiber with
  | None => ret tt
  | Some i =>
      match fuel with
      | 0 => out_of_fuel
      | S fuel' =>
          f <- read_fiber i ;;
          domParentFiber <- find_dom_parent fuel (parent f) ;;
          match domParentFiber with
          | None => ret tt
          | Some pf =>
              match dom pf with
              | None => invalid
              | Some domParent =>
                  match effectTag f, dom f with
                  | Some PLACEMENT, Some d => appendChild domParent d
                  | Some UPDATE, Some d =>
                      prevProps <- match alternate f with
                                   | Some a =>
                                       af <- read_fiber a ;;
                                       match props af with
                                       | Some p => ret p
                                       | None => throw TypeError
                                       end
                                   | None => ret empty_props
                                   end ;;
                      match props f with
                      | Some p => updateDomProperties d prevProps p
                      | None => throw TypeError
                      end
                  | Some DELETION, _ => commitDeletion fuel i domParent
                  | _, _ => ret tt
                  end ;;;
                  f1 <- read_fiber i ;;
                  commitWork fuel' (child f1) ;;;
                  f2 <- read_fiber i ;;
                  commitWork fuel' (sibling f2)
              end
          end
      end
  end.

(** [commitRoot()] *)
Definition commitRoot (fuel : nat) : M unit :=
  s <- get_state ;;
  forEach (fun f => commitWork fuel (Some f)) (deletions s) ;;;
  s <- get_state ;;
  match wipRoot s with
  | None => throw TypeError
  | Some w =>
      wf <- read_fiber w ;;
      commitWork fuel (child wf) ;;;
      modify (fun s => mkState (heap s) (document s) (nextUnitOfWork s) (wipRoot s) None (deletions s))
  end.

(** The [while] loop of [workLoop]: [deadline] is the number of times
    [deadline.timeRemaining() < 1] answers false before it answers true. *)
Fixpoint perform_units (fuel : nat) (deadline : nat) : M unit :=
  s <- get_state ;;
  match nextUnitOfWork s with
  | None => ret tt
  | Some u =>
      next <- performUnitOfWork fuel u ;;
      modify (with_nextUnitOfWork next) ;;;
      match deadline with
      | 0 => ret tt
      | S deadline' => perform_units fuel deadline'
      end
  end.

(** The guarded commit at the end of [workLoop]. *)
Definition commit_when_done (fuel : nat) : M unit :=
  s <- get_state ;;
  match nextUnitOfWork s, wipRoot s with
  | None, Some _ => commitRoot fuel
  | _, _ => ret tt
  end.

(** [workLoop(deadline)]; re-registering the idle callback is left to the
    host. *)
Definition workLoop (fuel : nat) (deadline : nat) : M unit :=
  perform_units fuel deadline ;;;
  commit_when_done fuel.

End Components.

(** [render(element, container)] *)
Definition render (element : Child) (container : nat) : M unit :=
  s <- get_state ;;
  w <- new_fiber (mkFiber None (Some (mkProps [] [element])) (Some container)
         None None None (currentRoot s) None) ;;
  modify (fun s => mkState (heap s) (document s) (Some w) (currentRoot s) (Some w) []).

End Part001.

(** * The variant of src/mini-react/gemini.html *)

Module Gemini.

(** [createTextElement(text)]: the value is stringified. *)
Definition createTextElement (text : Prim) : Child :=
  CElem (Some (TyStr "TEXT_ELEMENT")) [("nodeValue", VPrim (PStr (js_String text)))] [].

(** [typeof child === "object" && child !== null] *)
Definition is_object (c : Child) : bool :=
  match c with
  | CPrim _ => false
  | CArr _ => true
  | CElem _ _ _ => true
  end.

(** [createElement(type, props, ...children)] *)
Definition createElement (ty : option FType) (props : option (list (string * Value)))
    (children : list Child) : Child :=
  CElem ty (spread props)
    (map (fun child =>
            if is_object child then child
            else match child with
                 | CPrim p => createTextElement p
                 | _ => child
                 end) (flat children)).

(** [String(v)] and the text of [JSON.stringify(v)] are taken on
    primitives; a reference stands for itself. *)
Definition value_String (v : Value) : Value :=
  match v with
  | VPrim p => VPrim (PStr (js_String p))
  | VRef r => VRef r
  end.

(** [dom.setAttribute(name, v)], [dom.removeAttribute(name)]: text nodes
    have neither method. *)
Definition setAttribute (d : nat) (name : string) (v : Value) : M unit :=
  n <- read_node d ;;
  match nodeKind n with
  | ElementNode _ => set_property d name (value_String v)
  | TextNode => throw TypeError
  end.

Definition removeAttribute (d : nat) (name : string) : M unit :=
  n <- read_node d ;;
  match nodeKind n with
  | ElementNode _ => remove_property d name
  | TextNode => throw TypeError
  end.

(** [if (dom.nodeValue !== String(v)) dom.nodeValue = String(v)]: the
    [nodeValue] of an element node is [null] and ignores assignment. *)
Definition assign_nodeValue (d : nat) (v : Value) : M unit :=
  n <- read_node d ;;
  match nodeKind n with
  | ElementNode _ => ret tt
  | TextNode =>
      if bool_decide (properties n !! "nodeValue" = Some (value_String v)) then ret tt
      else set_property d "nodeValue" (value_String v)
  end.

(** [dom.className = v]: the [class] attribute of an element, a plain
    property of a text node. *)
Definition assign_className (d : nat) (v : Value) : M unit :=
  n <- read_node d ;;
  match nodeKind n with
  | ElementNode _ => set_property d "class" (value_String v)
  | TextNode => set_property d "className" v
  end.

Definition attribute_name (name : string) : string :=
  if String.eqb name "className" then "class" else name.

Definition is_attribute_key (name : string) : bool :=
  negb (String.eqb name "children") && negb (String.eqb name "dom").

(** [updateDomProperties(dom, prevProps, nextProps)] *)
Definition updateDomProperties (d : nat) (prevProps nextProps : Props) : M unit :=
  forEach (fun name =>
      let isEvent := startsWith "on" name in
      let isStyle := String.eqb name "style" in
      let isGone := negb (has_prop nextProps name) in
      let changed := strict_ne (get_prop prevProps name) (get_prop nextProps name) in
      if isEvent && (isGone || changed) then ret tt
      else if isStyle && (isGone || changed) then
        (if isGone then removeAttribute d "style" else ret tt)
      else if negb isEvent && negb isStyle && (isGone || changed) then
        (if String.eqb name "nodeValue" then assign_nodeValue d (get_prop nextProps name)
         else removeAttribute d (attribute_name name))
      else ret tt)
    (filter (fun k => is_attribute_key k) (keys prevProps)) ;;;
  forEach (fun name =>
      let isNew := negb (has_prop prevProps name) in
      let isValueChanged := strict_ne (get_prop prevProps name) (get_prop nextProps name) in
      let isEvent := startsWith "on" name in
      let isStyle := String.eqb name "style" in
      if isEvent && (isNew || isValueChanged) then ret tt
      else if isStyle && (isNew || isValueChanged) then
        (if String.eqb name "className" then assign_className d (get_prop nextProps name)
         else setAttribute d (attribute_name name) (get_prop nextProps name))
      else if negb isEvent && negb isStyle && (isNew || isValueChanged) then
        (if String.eqb name "nodeValue" then assign_nodeValue d (get_prop nextProps name)
         else setAttribute d (attribute_name name) (get_prop nextProps name))
      else ret tt)
    (filter (fun k => is_attribute_key k) (keys nextProps)) ;;;
  if has_prop nextProps "className" then assign_className d (get_prop nextProps "className")
  else if has_prop prevProps "className" then removeAttribute d "class"
  else ret tt.

(** Truthiness of [fiber.type]. *)
Definition truthy_type (ty : option FType) : bool :=
  match ty with
  | None => false
  | Some (TyStr s) => negb (String.eqb s "")
  | Some (TyFun _) => true
  end.

(** [createDomElement(fiber)] *)
Definition createDomElement (f : Fiber) : M (option nat) :=
  if negb (truthy_type (type f)) then ret None
  else
    d <- match type f with
         | Some (TyStr s) =>
             if String.eqb s "TEXT_ELEMENT" then createTextNode "" else document_createElement s
         | _ => throw InvalidCharacterError
         end ;;
    match props f with
    | Some p => updateDomProperties d empty_props p ;;; ret (Some d)
    | None => throw TypeError
    end.

(** [performUnitOfWork(fiber)] *)
Definition performUnitOfWork (fuel : nat) (fiber : nat) : M (option nat) :=
  f <- read_fiber fiber ;;
  match dom f with
  | None => d <- createDomElement f ;; update_fiber fiber (set_dom d)
  | Some _ => ret tt
  end ;;;
  f <- read_fiber fiber ;;
  match props f with
  | Some p => reconcileChildren VGemini fuel fiber (children p)
  | None => throw TypeError
  end ;;;
  next_unit fuel fiber.

(** [commitDeletion(fiber, domParent)] *)
Fixpoint commitDeletion (fuel : nat) (fiber : nat) (domParent : nat) : M unit :=
  f <- read_fiber fiber ;;
  match dom f, child f with
  | Some d, _ =>
      present <- contains domParent d ;;
      if (present : bool) then removeChild domParent d else ret tt
  | None, Some c =>
      match fuel with
      | 0 => out_of_fuel
      | S fuel' => commitDeletion fuel' c domParent
      end
  | None, None => ret tt
  end.

(** [commitWork(fiber)] *)
Fixpoint commitWork (fuel : nat) (fiber : option nat) : M unit :=
  match fiber with
  | None => ret tt
  | Some i =>
      match fuel with
      | 0 => out_of_fuel
      | S fuel' =>
          f <- read_fiber i ;;
          domParentFiber <- find_dom_parent fuel (parent f) ;;
          match domParentFiber with
          | Some pf =>
              match dom pf with
              | None => invalid
              | Some domParent =>
                  match effectTag f, dom f with
                  | Some PLACEMENT, Some d => appendChild domParent d
                  | Some UPDATE, Some d =>
                      match alternate f with
                      | Some a =>
                          af <- read_fiber a ;;
                          match props af, props f with
                          | Some prevProps, Some p => updateDomProperties d prevProps p
                          | _, _ => throw TypeError
                          end
                      | None => throw TypeError
                      end
                  | Some DELETION, _ => commitDeletion fuel i domParent
                  | _, _ => ret tt
                  end
              end
          | None => ret tt
          end ;;;
          f1 <- read_fiber i ;;
          commitWork fuel' (child f1) ;;;
          f2 <- read_fiber i ;;
          commitWork fuel' (sibling f2) ;;;
          f3 <- read_fiber i ;;
          match effectTag f3 with
          | Some _ => update_fiber i (set_effectTag None)
          | None => ret tt
          end
      end
  end.

(** [commitRoot()] *)
Definition commitRoot (fuel : nat) : M unit :=
  s <- get_state ;;
  forEach (fun f => commitWork fuel (Some f)) (deletions s) ;;;
  s <- get_state ;;
  match wipRoot s with
  | None => throw TypeError
  | Some w =>
      wf <- read_fiber w ;;
      match child wf with
      | Some c => commitWork fuel (Some c)
      | None => ret tt
      end ;;;
      modify (fun s => mkState (heap s) (document s) (nextUnitOfWork s) (wipRoot s) None (deletions s))
  end.

(** The [while (nextUnitOfWork)] loop of [workLoop]. *)
Fixpoint perform_units (fuel : nat) (steps : nat) : M unit :=
  s <- get_state ;;
  match nextUnitOfWork s with
  | None => ret tt
  | Some u =>
      match steps with
      | 0 => out_of_fuel
      | S steps' =>
          next <- performUnitOfWork fuel u ;;
          modify (with_nextUnitOfWork next) ;;;
          perform_units fuel steps'
      end
  end.

(** [workLoop()] *)
Definition workLoop (fuel : nat) : M unit :=
  perform_units fuel fuel ;;;
  s <- get_state ;;
  match nextUnitOfWork s, wipRoot s with
  | None, Some _ => commitRoot fuel
  | _, _ => ret tt
  end.

(** [render(element, container)] *)
Definition render (fuel : nat) (element : Child) (container : nat) : M unit :=
  s <- get_state ;;
  w <- new_fiber (mkFiber None (Some (mkProps [] [element])) (Some container)
         None None None (currentRoot s) None) ;;
  modify (fun s => mkState (heap s) (document s) (Some w) (currentRoot s) (Some w) []) ;;;
  workLoop fuel.

End Gemini.

(** ** Running the engines *)

(** The state of a freshly loaded page: no fibers, and the container
    element as node 0 of the document. *)
Definition initial_state : State :=
  mkState [] [mkDomNode (ElementNode "div") ∅ [] None []] None None None [].

Definition exec {A} (m : M A) (s : State) : Outcome State :=
  match m s with
  | Ok (_, s') => Ok s'
  | Throw e => Throw e
  | OutOfFuel => OutOfFuel
  | Invalid => Invalid
  end.

Definition and_then {A} (o : Outcome State) (m : M A) : Outcome State :=
  match o with
  | Ok s => exec m s
  | Throw e => Throw e
  | OutOfFuel => OutOfFuel
  | Invalid => Invalid
  end.

(** ** Vocabulary of the statements *)

(** A page without function components. *)
Definition no_components : nat -> option Props -> Child := fun _ _ => CPrim PNull.

(** The text node the specification asks for: stringified value, no
    children. *)
Definition spec_text_node (p : Prim) : Child :=
  CElem (Some (TyStr "TEXT_ELEMENT")) [("nodeValue", VPrim (PStr (js_String p)))] [].

(** Flattening one level, in the words of the specification: an array
    argument contributes its items, any other argument itself. *)
Fixpoint spec_flatten (args : list Child) : list Child :=
  match args with
  | [] => []
  | CArr items :: rest => items ++ spec_flatten rest
  | c :: rest => c :: spec_flatten rest
  end.

(** Wrapping in the words of the specification: a raw primitive becomes
    a text node, anything else is kept. *)
Definition spec_wrap (c : Child) : Child :=
  match c with
  | CPrim p => spec_text_node p
  | _ => c
  end.

(** The element builder the specification describes. *)
Definition builder_as_specified
    (build : option FType -> option (list (string * Value)) -> list Child -> Child) : Prop :=
  forall ty props args,
    exists attributes,
      build ty props args = CElem ty attributes (map spec_wrap (spec_flatten args)).

(** Sample pages. *)
Definition li (label : string) : Child :=
  Part001.createElement (Some (TyStr "li")) None [CPrim (PStr label)].

Definition ul (items : list Child) : Child :=
  Part001.createElement (Some (TyStr "ul")) None items.

Definition gemini_li (label : string) : Child :=
  Gemini.createElement (Some (TyStr "li")) None [CPrim (PStr label)].

Definition gemini_ul (items : list Child) : Child :=
  Gemini.createElement (Some (TyStr "ul")) None items.

(** One full pass of part_001: [render], then an idle period long enough
    for the whole tree, ending in the guarded commit. *)
Definition part001_pass (page : Child) : M unit :=
  Part001.render page 0 ;;; Part001.workLoop no_components 64 64.

(** part_001: a list of three items is rendered and committed, then the
    same list with one item is rendered. *)
Definition part001_three_then_one : Outcome State :=
  and_then (exec (part001_pass (ul [li "1"; li "2"; li "3"])) initial_state)
           (part001_pass (ul [li "1"])).

Definition gemini_three_then_one : Outcome State :=
  and_then (exec (Gemini.render 64 (gemini_ul [gemini_li "1"; gemini_li "2"; gemini_li "3"]) 0)
              initial_state)
           (Gemini.render 64 (gemini_ul [gemini_li "1"]) 0).

(** part_001: a list of two items, then the same list with one item. *)
Definition part001_two_then_one : Outcome State :=
  and_then (exec (part001_pass (ul [li "1"; li "2"])) initial_state)
           (part001_pass (ul [li "1"])).

(** A [div] whose first child is [null], as [cond ? element : null]
    leaves it. *)
Definition part001_null_first : Child :=
  Part001.createElement (Some (TyStr "div")) None [CPrim PNull; CPrim (PStr "x")].

Definition gemini_null_first : Child :=
  Gemini.createElement (Some (TyStr "div")) None [CPrim PNull; CPrim (PStr "x")].

(** A state with a pass in flight: [render] has run, the work loop has
    not. *)
Definition in_flight_state : Outcome State :=
  exec (Part001.render (ul [li "1"]) 0) initial_state.

(** The rule of the scheduler, in the words of the specification: walk up
    through [parent] links and take the first [sibling] found; none when
    the root is reached. *)
Inductive first_sibling_upwards (h : list Fiber) : nat -> option nat -> Prop :=
| fsu_sibling i f s :
    h !! i = Some f -> sibling f = Some s -> first_sibling_upwards h i (Some s)
| fsu_parent i f p r :
    h !! i = Some f -> sibling f = None -> parent f = Some p ->
    first_sibling_upwards h p r -> first_sibling_upwards h i r
| fsu_root i f :
    h !! i = Some f -> sibling f = None -> parent f = None ->
    first_sibling_upwards h i None.

Definition next_unit_rule (h : list Fiber) (fiber : nat) (next : option nat) : Prop :=
  exists f, h !! fiber = Some f /\
    match child f with
    | Some c => next = Some c
    | None => first_sibling_upwards h fiber next
    end.

(** Only the document differs between the two states. *)
Definition only_document_changed (s s' : State) : Prop :=
  s' = with_document (document s') s.

(** A computation that touches nothing but the document. *)
Definition document_only {A} (m : M A) : Prop :=
  forall s a s', m s = Ok (a, s') -> only_document_changed s s'.

(** The state inside an outcome that is known to be [Ok]. *)
Definition state_of (o : Outcome State) : State :=
  match o with
  | Ok s => s
  | _ => initial_state
  end.

(** part_001 after [render] and the units of work, before the commit. *)
Definition part001_rendered (page : Child) : Outcome State :=
  exec (Part001.render page 0 ;;; Part001.perform_units no_components 64 64) initial_state.

(** ** The reconciler, position by position *)

(** The old child fibers of a fiber: the chain of [sibling] links from the
    first child of its predecessor. *)
Inductive sibling_chain (h : list Fiber) : option nat -> list nat -> Prop :=
| chain_nil : sibling_chain h None []
| chain_cons o f rest :
    h !! o = Some f -> sibling_chain h (sibling f) rest ->
    sibling_chain h (Some o) (o :: rest).


(** What [reconcileChildren] leaves behind, read off its loop: the
    decision at each position, and the store of fibers after [i]
    iterations over the new children [els] and the old child fibers
    [olds] of the fiber [w] in the store [h0]. *)
Section ReconcileModel.

Variable h0 : list Fiber.
Variable w : nat.
Variable els : list Child.
Variable olds : list nat.

Definition same_at (p : nat) : bool :=
  match els !! p, olds !! p with
  | Some e, Some o =>
      match h0 !! o with
      | Some fo => bool_decide (child_type e = type fo)
      | None => false
      end
  | _, _ => false
  end.

Definition deleted_at (p : nat) : option nat :=
  match olds !! p with
  | Some o => if same_at p then None else Some o
  | None => None
  end.

Definition deleted_upto (i : nat) : list nat := omap deleted_at (seq 0 i).

Definition first_child : option nat :=
  if bool_decide (0 < length els) then Some (length h0) else None.

Definition old_fiber_after (i j : nat) (f : Fiber) : Fiber :=
  let f1 := if bool_decide (j ∈ deleted_upto i) then set_effectTag (Some DELETION) f else f in
  if bool_decide (j = w /\ 0 < i) then set_child first_child f1 else f1.

Definition new_fiber_after (i p : nat) (e : Child) : Fiber :=
  let sib := if bool_decide (S p < i /\ S p < length els) then Some (length h0 + S p) else None in
  match olds !! p with
  | Some o =>
      match h0 !! o with
      | Some fo =>
          if bool_decide (child_type e = type fo)
          then mkFiber (type fo) (child_props e) (dom fo) (Some w) None sib (Some o) (Some UPDATE)
          else mkFiber (child_type e) (child_props e) None (Some w) None sib None (Some PLACEMENT)
      | None => mkFiber (child_type e) (child_props e) None (Some w) None sib None (Some PLACEMENT)
      end
  | None => mkFiber (child_type e) (child_props e) None (Some w) None sib None (Some PLACEMENT)
  end.

Definition heap_after (i j : nat) : option Fiber :=
  if decide (j < length h0) then old_fiber_after i j <$> h0 !! j
  else if decide (j - length h0 < i) then
         new_fiber_after i (j - length h0) <$> els !! (j - length h0)
       else None.

Definition rounds : nat := max (length els) (length olds).

Definition prev_sibling (i : nat) : option nat :=
  if bool_decide (0 < i /\ i <= length els) then Some (length h0 + i - 1) else None.

(** The effect of iteration [i] on the store of fibers. *)
Definition allocate (i : nat) (h : list Fiber) : list Fiber :=
  match els !! i with
  | Some e => h ++ [new_fiber_after i i e]
  | None => h
  end.

Definition mark (i : nat) (h : list Fiber) : list Fiber :=
  match deleted_at i with
  | Some o => alter (set_effectTag (Some DELETION)) o h
  | None => h
  end.

Definition link (i : nat) (h : list Fiber) : list Fiber :=
  if decide (i = 0) then alter (set_child first_child) w h
  else
    match els !! i with
    | Some _ => alter (set_sibling (Some (length h0 + i))) (length h0 + i - 1) h
    | None => h
    end.

Fixpoint heap_state (i : nat) : list Fiber :=
  match i with
  | 0 => h0
  | S i' => link i' (mark i' (allocate i' (heap_state i')))
  end.

(** The state of the engine after [i] iterations started in [s0]. *)
Variable s0 : State.

Definition loop_inv (i : nat) (s : State) : Prop :=
  heap s = heap_state i
  /\ deletions s = deletions s0 ++ deleted_upto i
  /\ document s = document s0
  /\ nextUnitOfWork s = nextUnitOfWork s0
  /\ currentRoot s = currentRoot s0
  /\ wipRoot s = wipRoot s0.

End ReconcileModel.

(** part_001 after a first committed pass over a list of two items, a
    second [render] with one item, and the unit of work of the new root:
    the new [ul] fiber is fiber 7, its old children are fibers 2 and 3. *)
Definition part001_second_pass_started : Outcome State :=
  and_then (exec (part001_pass (ul [li "1"; li "2"])) initial_state)
           (Part001.render (ul [li "1"]) 0 ;;; Part001.perform_units no_components 64 0).

Definition doc_wf (d : list DomNode) : Prop :=
  forall j n q, d !! j = Some n -> parentNode n = Some q -> q < length d.

(** A computation that keeps the shape of the document: the same nodes
    with the same parents. *)
Definition shape_kept (s s' : State) : Prop :=
  only_document_changed s s'
  /\ length (document s') = length (document s)
  /\ (doc_wf (document s) -> doc_wf (document s')).

(** Description trees: elements with a tag name and element children. *)
#[warnings="-register-all"]
Inductive DTree :=
| DNode (kind : string) (attributes : list (string * Value)) (kids : list DTree).

Fixpoint to_child (t : DTree) : Child :=
  match t with
  | DNode k a ks => CElem (Some (TyStr k)) a (map to_child ks)
  end.

Fixpoint nodes (t : DTree) : nat :=
  match t with
  | DNode _ _ ks => S (sum_list (map nodes ks))
  end.

Definition kind_of (t : DTree) : string := match t with DNode k _ _ => k end.
Definition props_of (t : DTree) : Props :=
  match t with DNode _ a ks => mkProps a (map to_child ks) end.
Definition kids_of (t : DTree) : list DTree := match t with DNode _ _ ks => ks end.

(** The fiber [reconcileChildren] makes for a node that has no old
    fiber. *)
Definition fresh_fiber (t : DTree) (p : nat) (sib : option nat) : Fiber :=
  mkFiber (Some (TyStr (kind_of t))) (Some (props_of t)) None (Some p) None sib None
    (Some PLACEMENT).

(** The fibers below [p], from its first child on, represent the trees
    [ts] in order; [ids] lists them in pre-order.  Every one of them
    satisfies [ok] and has index at least [lo]. *)
Inductive forest_at (h : list Fiber) (ok : Fiber -> Prop) (lo : nat) :
    nat -> option nat -> list DTree -> list nat -> Prop :=
| forest_nil p : forest_at h ok lo p None [] []
| forest_cons p i f t rest ids_kids ids_rest :
    lo <= i ->
    h !! i = Some f ->
    type f = Some (TyStr (kind_of t)) ->
    props f = Some (props_of t) ->
    parent f = Some p ->
    ok f ->
    forest_at h ok lo i (child f) (kids_of t) ids_kids ->
    forest_at h ok lo p (sibling f) rest ids_rest ->
    forest_at h ok lo p (Some i) (t :: rest) (i :: ids_kids ++ ids_rest).

Definition inserted_ok (doc_length : nat) (f : Fiber) : Prop :=
  effectTag f = Some PLACEMENT /\ alternate f = None
  /\ exists d, dom f = Some d /\ d < doc_length.

(** [n] units of work from the unit [u] on. *)
Fixpoint run_units (call_component : nat -> option Props -> Child) (fuel n : nat)
    (u : option nat) : M (option nat) :=
  match n with
  | 0 => ret u
  | S n' =>
      match u with
      | None => ret None
      | Some i =>
          next <- Part001.performUnitOfWork call_component fuel i ;;
          modify (with_nextUnitOfWork next) ;;;
          run_units call_component fuel n' next
      end
  end.

Definition links_kept (h h' : list Fiber) : Prop :=
  forall j f, h !! j = Some f ->
    exists f', h' !! j = Some f' /\ sibling f' = sibling f /\ parent f' = parent f.

(** What a stretch of a render pass keeps: fibers that exist keep their
    links, disposition and predecessor; the document only grows. *)
Definition tags_kept (h h' : list Fiber) : Prop :=
  forall j g, h !! j = Some g ->
    exists g', h' !! j = Some g' /\ sibling g' = sibling g /\ parent g' = parent g
      /\ effectTag g' = effectTag g /\ alternate g' = alternate g.

Definition pass_step (s s' : State) : Prop :=
  tags_kept (heap s) (heap s')
  /\ length (document s) <= length (document s')
  /\ (doc_wf (document s) -> doc_wf (document s'))
  /\ deletions s' = deletions s
  /\ currentRoot s' = currentRoot s
  /\ wipRoot s' = wipRoot s.

(** The fibers made since [s] are all insert fibers without predecessor. *)
Definition only_inserted (s s' : State) : Prop :=
  forall j, length (heap s) <= j -> j < length (heap s') ->
    exists g, heap s' !! j = Some g /\ effectTag g = Some PLACEMENT /\ alternate g = None.

Definition tree_inserts (cc : nat -> option Props -> Child) (t : DTree) : Prop :=
  forall fuel s i p sib r n,
    heap s !! i = Some (fresh_fiber t p sib) ->
    sibling_climb n (heap s) (Some i) = Ok r ->
    n + nodes t <= fuel ->
    exists s',
      run_units cc fuel (nodes t) (Some i) s = Ok (r, s')
      /\ pass_step s s' /\ only_inserted s s'
      /\ length (heap s') = length (heap s) + (nodes t - 1)
      /\ (forall j, j < length (heap s) -> j <> i -> heap s' !! j = heap s !! j)
      /\ exists d c ids,
           heap s' !! i = Some (set_child c (set_dom (Some d) (fresh_fiber t p sib)))
           /\ d < length (document s')
           /\ forest_at (heap s') (inserted_ok (length (document s'))) (length (heap s)) i c
                (kids_of t) ids
           /\ NoDup ids.

Definition forest_inserts (cc : nat -> option Props -> Child) (ts : list DTree) : Prop :=
  forall fuel s c p r n,
    ts <> [] ->
    (forall q t, ts !! q = Some t ->
       heap s !! (c + q) =
         Some (fresh_fiber t p (if bool_decide (S q < length ts) then Some (c + S q) else None))) ->
    p < c ->
    sibling_climb n (heap s) (Some p) = Ok r ->
    S n + sum_list (map nodes ts) <= fuel ->
    exists s',
      run_units cc fuel (sum_list (map nodes ts)) (Some c) s = Ok (r, s')
      /\ pass_step s s' /\ only_inserted s s'
      /\ length (heap s') = length (heap s) + (sum_list (map nodes ts) - length ts)
      /\ (forall j, j < length (heap s) -> ~ (c <= j < c + length ts) ->
            heap s' !! j = heap s !! j)
      /\ exists ids,
           forest_at (heap s') (inserted_ok (length (document s'))) c p (Some c) ts ids
           /\ NoDup ids
           /\ Forall (fun x => c <= x < c + length ts \/ length (heap s) <= x) ids.

(** The page [ul [li "1"; li "2"; li "3"]] as a description tree. *)
Definition text_tree (label : string) : DTree :=
  DNode "TEXT_ELEMENT" [("nodeValue", VPrim (PStr label))] [].

Definition li_tree (label : string) : DTree := DNode "li" [] [text_tree label].

Definition ul_tree (labels : list string) : DTree := DNode "ul" [] (map li_tree labels).

(** The root fiber [render] makes, with its predecessor and first child. *)
Definition root_fiber (D : DTree) (container : nat) (alt child : option nat) : Fiber :=
  mkFiber None (Some (mkProps [] [to_child D])) (Some container) None child None alt None.

(** The fiber [reconcileChildren] makes for a node whose old fiber [o] has
    the same type: it takes over the DOM node [d] of the old fiber. *)
Definition kept_fiber (t : DTree) (p : nat) (sib : option nat) (o d : nat) : Fiber :=
  mkFiber (Some (TyStr (kind_of t))) (Some (props_of t)) (Some d) (Some p) None sib (Some o)
    (Some UPDATE).

(** The committed fibers from [first] on, all below [m], represent the
    trees [ts] and own DOM nodes of the document. *)
Inductive old_forest (h : list Fiber) (m doc_length : nat) :
    option nat -> list DTree -> Prop :=
| old_nil : old_forest h m doc_length None []
| old_cons o fo t rest d :
    o < m ->
    h !! o = Some fo ->
    type fo = Some (TyStr (kind_of t)) ->
    props fo = Some (props_of t) ->
    dom fo = Some d ->
    d < doc_length ->
    old_forest h m doc_length (child fo) (kids_of t) ->
    old_forest h m doc_length (sibling fo) rest ->
    old_forest h m doc_length (Some o) (t :: rest).

(** An update fiber: its predecessor is a committed fiber with the same
    properties, whose DOM node it shares. *)
Definition updated_ok (h : list Fiber) (m doc_length : nat) (f : Fiber) : Prop :=
  effectTag f = Some UPDATE
  /\ exists o fo d, alternate f = Some o /\ o < m /\ h !! o = Some fo
       /\ props fo = props f /\ dom fo = Some d /\ dom f = Some d /\ d < doc_length.

(** The fibers made since [s] are all update fibers. *)
Definition only_updated (s s' : State) : Prop :=
  forall j, length (heap s) <= j -> j < length (heap s') ->
    exists g, heap s' !! j = Some g /\ effectTag g = Some UPDATE.

Definition tree_updates (cc : nat -> option Props -> Child) (t : DTree) : Prop :=
  forall fuel s i p sib r n o d m fo,
    heap s !! i = Some (kept_fiber t p sib o d) ->
    m <= i ->
    heap s !! o = Some fo ->
    old_forest (heap s) m (length (document s)) (child fo) (kids_of t) ->
    d < length (document s) ->
    sibling_climb n (heap s) (Some i) = Ok r ->
    n + nodes t <= fuel ->
    exists s',
      run_units cc fuel (nodes t) (Some i) s = Ok (r, s')
      /\ pass_step s s' /\ document s' = document s /\ only_updated s s'
      /\ length (heap s') = length (heap s) + (nodes t - 1)
      /\ (forall j, j < length (heap s) -> j <> i -> heap s' !! j = heap s !! j)
      /\ exists c ids,
           heap s' !! i = Some (set_child c (kept_fiber t p sib o d))
           /\ forest_at (heap s') (updated_ok (heap s') m (length (document s)))
                (length (heap s)) i c (kids_of t) ids
           /\ NoDup ids.

Definition forest_updates (cc : nat -> option Props -> Child) (ts : list DTree) : Prop :=
  forall fuel s c p r n m,
    ts <> [] ->
    (forall q t, ts !! q = Some t ->
       exists oq g dq,
         heap s !! (c + q) =
           Some (kept_fiber t p (if bool_decide (S q < length ts) then Some (c + S q) else None)
                   oq dq)
         /\ oq < m /\ heap s !! oq = Some g /\ props g = Some (props_of t)
         /\ dom g = Some dq /\ dq < length (document s)
         /\ old_forest (heap s) m (length (document s)) (child g) (kids_of t)) ->
    p < c -> m <= c ->
    sibling_climb n (heap s) (Some p) = Ok r ->
    S n + sum_list (map nodes ts) <= fuel ->
    exists s',
      run_units cc fuel (sum_list (map nodes ts)) (Some c) s = Ok (r, s')
      /\ pass_step s s' /\ document s' = document s /\ only_updated s s'
      /\ length (heap s') = length (heap s) + (sum_list (map nodes ts) - length ts)
      /\ (forall j, j < length (heap s) -> ~ (c <= j < c + length ts) ->
            heap s' !! j = heap s !! j)
      /\ exists ids,
           forest_at (heap s') (updated_ok (heap s') m (length (document s))) c p (Some c) ts ids
           /\ NoDup ids
           /\ Forall (fun x => c <= x < c + length ts \/ length (heap s) <= x) ids.

(** ** The commit, fiber by fiber *)

(** A fiber of a finished pass over host elements owns a DOM node. *)
Definition has_dom (f : Fiber) : Prop := exists d, dom f = Some d.

(** What the commit does for one fiber, in the words of the
    specification: an insert appends the node of the fiber to the node of
    its parent, an update brings the attributes of the node from the
    predecessor's props to the fiber's props, a delete removes the node
    from the node of its parent. *)
Definition spec_apply_disposition (v : Variant) (i : nat) : M unit :=
  f <- read_fiber i ;;
  match parent f with
  | None => ret tt
  | Some p =>
      pf <- read_fiber p ;;
      match dom pf, dom f with
      | Some domParent, Some d =>
          match effectTag f with
          | Some PLACEMENT => appendChild domParent d
          | Some UPDATE =>
              match v with
              | VPart001 =>
                  prevProps <- match alternate f with
                               | Some a =>
                                   af <- read_fiber a ;;
                                   match props af with
                                   | Some p => ret p
                                   | None => throw TypeError
                                   end
                               | None => ret empty_props
                               end ;;
                  match props f with
                  | Some p => Part001.updateDomProperties d prevProps p
                  | None => throw TypeError
                  end
              | VGemini =>
                  match alternate f with
                  | Some a =>
                      af <- read_fiber a ;;
                      match props af, props f with
                      | Some prevProps, Some p => Gemini.updateDomProperties d prevProps p
                      | _, _ => throw TypeError
                      end
                  | None => throw TypeError
                  end
              end
          | Some DELETION =>
              match v with
              | VPart001 => removeChild domParent d
              | VGemini =>
                  present <- contains domParent d ;;
                  if (present : bool) then removeChild domParent d else ret tt
              end
          | None => ret tt
          end
      | _, _ => ret tt
      end
  end.

(** The store of fibers with the disposition of every fiber in [l]
    cleared. *)
Definition cleared (l : list nat) (h : list Fiber) : list Fiber :=
  imap (fun j f => if bool_decide (j ∈ l) then set_effectTag None f else f) h.

Definition clear_dispositions (l : list nat) : M unit :=
  modify (fun s => with_heap (cleared l (heap s)) s).

(** The last three assignments of [commitRoot]. *)
Definition promote_root : M unit :=
  modify (fun s => mkState (heap s) (document s) (nextUnitOfWork s) (wipRoot s) None
                     (deletions s)).

(** A computation that neither reads nor writes the fibers. *)
Definition with_heap_outcome {A} (h : list Fiber) (o : Outcome (A * State)) :
    Outcome (A * State) :=
  match o with
  | Ok (a, s') => Ok (a, with_heap h s')
  | Throw e => Throw e
  | OutOfFuel => OutOfFuel
  | Invalid => Invalid
  end.

Definition heap_blind {A} (m : M A) : Prop :=
  forall s h, m (with_heap h s) = with_heap_outcome h (m s).

(** A computation that leaves the fibers as they are. *)
Definition heap_kept {A} (m : M A) : Prop :=
  forall s a s', m s = Ok (a, s') -> heap s' = heap s.

(** What a commit of gemini.html changes besides the document: it clears
    dispositions. *)
Definition dispositions_cleared (s s' : State) : Prop :=
  (exists l, heap s' = cleared l (heap s))
  /\ nextUnitOfWork s' = nextUnitOfWork s
  /\ currentRoot s' = currentRoot s
  /\ wipRoot s' = wipRoot s
  /\ deletions s' = deletions s.

Definition clears_dispositions {A} (m : M A) : Prop :=
  forall s a s', m s = Ok (a, s') -> dispositions_cleared s s'.

(** A finished pass with one paragraph below the root, ready for its
    commit. *)
Definition paragraph_root : Fiber :=
  mkFiber None (Some (mkProps [] [CElem (Some (TyStr "p")) [] []])) (Some 0)
    None (Some 1) None None None.

Definition paragraph_fiber : Fiber :=
  mkFiber (Some (TyStr "p")) (Some (mkProps [] [])) (Some 1) (Some 0) None None None
    (Some PLACEMENT).

Definition paragraph_pass : State :=
  mkState [paragraph_root; paragraph_fiber]
    [ mkDomNode (ElementNode "div") ∅ [] None [];
      mkDomNode (ElementNode "p") ∅ [] None [] ]
    None None (Some 0) [].

(** A computation that raises no exception, whatever the state. *)
Definition never_throws {A} (m : M A) : Prop := forall s e, m s <> Throw e.

(** ** What the render phase leaves alone *)

(** The registers other than the store of fibers and the deletions are
    kept, and so is every DOM node except possibly node [d]. *)
Definition node_frame (d : option nat) (s s' : State) : Prop :=
  currentRoot s' = currentRoot s
  /\ wipRoot s' = wipRoot s
  /\ nextUnitOfWork s' = nextUnitOfWork s
  /\ length (document s') = length (document s)
  /\ forall j, Some j <> d -> document s' !! j = document s !! j.

Definition frames {A} (d : option nat) (m : M A) : Prop :=
  forall s a s', m s = Ok (a, s') -> node_frame d s s'.

(** What a stretch of the render phase does to the registers and to the
    document: the roots stay, and nodes are only added, behind the
    existing ones. *)
Definition render_phase_frame (s s' : State) : Prop :=
  currentRoot s' = currentRoot s
  /\ wipRoot s' = wipRoot s
  /\ document s `prefix_of` document s'.

Definition render_phase {A} (m : M A) : Prop :=
  forall s a s', m s = Ok (a, s') -> render_phase_frame s s'.

(** The state in which [render] of gemini.html calls [workLoop] on a
    freshly loaded page. *)
Definition gemini_pass_started (page : Child) : State :=
  mkState [mkFiber None (Some (mkProps [] [page])) (Some 0) None None None None None]
    (document initial_state) (Some 0) None (Some 0) [].

(** ** Rendering the same description again and again *)

(** The state holds a committed fiber tree for the description [D], and
    nothing is pending. *)
Definition committed_as (D : DTree) (container : nat) (s : State) : Prop :=
  nextUnitOfWork s = None /\ wipRoot s = None
  /\ container < length (document s)
  /\ exists o fo, currentRoot s = Some o /\ heap s !! o = Some fo
       /\ old_forest (heap s) (length (heap s)) (length (document s)) (child fo) [D].

(** [n] times: [render] the description, then let the work loop run. *)
Fixpoint rerenders (cc : nat -> option Props -> Child) (fuel deadline : nat) (D : DTree)
    (container : nat) (n : nat) : M unit :=
  match n with
  | 0 => ret tt
  | S n' =>
      Part001.render (to_child D) container ;;;
      Part001.workLoop cc fuel deadline ;;;
      rerenders cc fuel deadline D container n'
  end.

(** A committed paragraph below the container. *)
Definition paragraph_committed : State :=
  mkState [paragraph_root; paragraph_fiber]
    [ mkDomNode (ElementNode "div") ∅ [] None [1];
      mkDomNode (ElementNode "p") ∅ [] (Some 0) [] ]
    None (Some 0) None [].

(** ** The document a first render builds *)

(** Attributes that [createDom] installs one for one: distinct keys, none
    of them [children] or an event handler, no value [undefined]. *)
Definition plain_attributes (a : list (string * Value)) : Prop :=
  NoDup (map fst a)
  /\ Forall (fun kv => Part001.isProperty (fst kv) = true /\ snd kv <> VPrim PUndef) a.

#[warnings="-register-all"]
Inductive plain_tree : DTree -> Prop :=
| plain_node k a ks :
    plain_attributes a -> Forall plain_tree ks -> plain_tree (DNode k a ks).

(** The node [document.createTextNode("")] or [document.createElement(k)]
    returns. *)
Definition blank_node (k : string) : DomNode :=
  if String.eqb k "TEXT_ELEMENT"
  then mkDomNode TextNode {["nodeValue" := VPrim (PStr "")]} [] None []
  else mkDomNode (ElementNode k) ∅ [] None [].

(** The node of a description node before it is attached: the blank node
    with the attributes as properties. *)
Definition created_node (k : string) (a : list (string * Value)) : DomNode :=
  set_properties (list_to_map a ∪ properties (blank_node k)) (blank_node k).

(** The nodes a render pass creates for a description tree, in the order
    of their creation. *)
Fixpoint created_tree (t : DTree) : list DomNode :=
  match t with
  | DNode k a ks => created_node k a :: concat (map created_tree ks)
  end.

Definition created_forest (ts : list DTree) : list DomNode := concat (map created_tree ts).

(** The fibers below [p], from its first child on, are insert fibers for
    the trees [ts], and their DOM nodes are numbered in pre-order from
    [b] on. *)
Inductive built_at (h : list Fiber) (lo : nat) :
    nat -> option nat -> nat -> list DTree -> Prop :=
| built_nil p b : built_at h lo p None b []
| built_cons p i f t rest b :
    lo <= i ->
    h !! i = Some f ->
    type f = Some (TyStr (kind_of t)) ->
    props f = Some (props_of t) ->
    parent f = Some p ->
    effectTag f = Some PLACEMENT ->
    dom f = Some b ->
    built_at h lo i (child f) (S b) (kids_of t) ->
    built_at h lo p (sibling f) (b + nodes t) rest ->
    built_at h lo p (Some i) b (t :: rest).

Definition tree_builds (cc : nat -> option Props -> Child) (t : DTree) : Prop :=
  forall fuel s i p sib r n,
    plain_tree t ->
    heap s !! i = Some (fresh_fiber t p sib) ->
    sibling_climb n (heap s) (Some i) = Ok r ->
    n + nodes t <= fuel ->
    exists s',
      run_units cc fuel (nodes t) (Some i) s = Ok (r, s')
      /\ pass_step s s'
      /\ length (heap s') = length (heap s) + (nodes t - 1)
      /\ (forall j, j < length (heap s) -> j <> i -> heap s' !! j = heap s !! j)
      /\ document s' = document s ++ created_tree t
      /\ exists c,
           heap s' !! i
             = Some (set_child c (set_dom (Some (length (document s))) (fresh_fiber t p sib)))
           /\ built_at (heap s') (length (heap s)) i c (S (length (document s))) (kids_of t).

Definition forest_builds (cc : nat -> option Props -> Child) (ts : list DTree) : Prop :=
  forall fuel s c p r n,
    ts <> [] ->
    Forall plain_tree ts ->
    (forall q t, ts !! q = Some t ->
       heap s !! (c + q) =
         Some (fresh_fiber t p (if bool_decide (S q < length ts) then Some (c + S q) else None))) ->
    p < c ->
    sibling_climb n (heap s) (Some p) = Ok r ->
    S n + sum_list (map nodes ts) <= fuel ->
    exists s',
      run_units cc fuel (sum_list (map nodes ts)) (Some c) s = Ok (r, s')
      /\ pass_step s s'
      /\ length (heap s') = length (heap s) + (sum_list (map nodes ts) - length ts)
      /\ (forall j, j < length (heap s) -> ~ (c <= j < c + length ts) ->
            heap s' !! j = heap s !! j)
      /\ document s' = document s ++ created_forest ts
      /\ built_at (heap s') c p (Some c) (length (document s)) ts.

(** The numbers of the nodes of the roots of a forest whose nodes are
    numbered in pre-order from [b] on. *)
Fixpoint child_indices (b : nat) (ts : list DTree) : list nat :=
  match ts with
  | [] => []
  | t :: ts' => b :: child_indices (b + nodes t) ts'
  end.

(** The node of a description node once it is attached below node
    [parent] and its own children are attached to it. *)
Definition linked_node (parent b : nat) (k : string) (a : list (string * Value))
    (ks : list DTree) : DomNode :=
  set_childNodes (child_indices (S b) ks) (set_parentNode (Some parent) (created_node k a)).

(** The nodes of a description tree in the committed document, numbered
    in pre-order from [b] on, below node [parent]. *)
Fixpoint linked_tree (parent b : nat) (t : DTree) {struct t} : list DomNode :=
  match t with
  | DNode k a ks =>
      linked_node parent b k a ks ::
      (fix forest (b' : nat) (l : list DTree) {struct l} : list DomNode :=
         match l with
         | [] => []
         | t' :: l' => linked_tree b b' t' ++ forest (b' + nodes t') l'
         end) (S b) ks
  end.

Fixpoint linked_forest (parent b : nat) (ts : list DTree) : list DomNode :=
  match ts with
  | [] => []
  | t :: ts' => linked_tree parent b t ++ linked_forest parent (b + nodes t) ts'
  end.

(** ** The two other walks of the commit *)

(** The nearest fiber with a DOM node, from a fiber upwards through the
    [parent] links. *)
Inductive dom_ancestor (h : list Fiber) : option nat -> option Fiber -> Prop :=
| dom_ancestor_none : dom_ancestor h None None
| dom_ancestor_here i f d :
    h !! i = Some f -> dom f = Some d -> dom_ancestor h (Some i) (Some f)
| dom_ancestor_up i f r :
    h !! i = Some f -> dom f = None -> dom_ancestor h (parent f) r ->
    dom_ancestor h (Some i) r.

(** The first DOM node from a fiber downwards through the [child] links,
    if there is one. *)
Inductive first_host_node (h : list Fiber) : nat -> option nat -> Prop :=
| first_host_here i f d :
    h !! i = Some f -> dom f = Some d -> first_host_node h i (Some d)
| first_host_leaf i f :
    h !! i = Some f -> dom f = None -> child f = None -> first_host_node h i None
| first_host_down i f c r :
    h !! i = Some f -> dom f = None -> child f = Some c -> first_host_node h c r ->
    first_host_node h i r.

(** A function component above a paragraph: the fibers of a deleted
    subtree whose first DOM node is one level down. *)
Definition component_over_paragraph : list Fiber :=
  [ mkFiber (Some (TyFun 0)) None None None (Some 1) None None (Some DELETION);
    mkFiber (Some (TyStr "p")) (Some (mkProps [] [])) (Some 1) (Some 0) None None None None ].

(** ** Properties of a node after an update *)

(** [dom[key]] as the engine reads it: a property that was never set
    reads as [undefined]. *)
Definition read_property (n : DomNode) (key : string) : Value :=
  match properties n !! key with
  | Some v => v
  | None => VPrim PUndef
  end.

(** A page whose container carries a title. *)
Definition titled_node : DomNode :=
  mkDomNode (ElementNode "div") {["title" := VPrim (PStr "a")]} [] None [].

Definition titled_page : State := mkState [] [titled_node] None None None [].

Definition titled_props : Props :=
  mkProps [("title", VPrim (PStr "a")); ("id", VPrim (PStr "x"))] [].

Definition retitled_props : Props := mkProps [("title", VPrim (PStr "b"))] [].

(** * Properties *)

(** ** Reasoning about computations *)

Lemma bind_Ok {A B} (m : M A) (k : A -> M B) s b s' :
  bind m k s = Ok (b, s') ->
  exists a s1, m s = Ok (a, s1) /\ k a s1 = Ok (b, s').
Proof.
  unfold bind. destruct (m s) as [[a s1]| | |]; try discriminate.
  intros H. exists a, s1. split; [reflexivity | exact H].
Qed.

Lemma bind_Ok_intro {A B} (m : M A) (k : A -> M B) s a s1 :
  m s = Ok (a, s1) -> bind m k s = k a s1.
Proof. unfold bind. intros ->. reflexivity. Qed.

Lemma forEach_app {A} (body : A -> M unit) (l1 l2 : list A) s :
  forEach body (l1 ++ l2) s = (forEach body l1 ;;; forEach body l2) s.
Proof.
  revert s. induction l1 as [|x l1 IH]; intros s; simpl.
  - reflexivity.
  - unfold bind in *. destruct (body x s) as [[[] s1]| | |]; try reflexivity.
    apply IH.
Qed.

(** ** The element builders *)

Lemma spec_flatten_flat args : spec_flatten args = flat args.
Proof.
  unfold flat. induction args as [|c args IH]; simpl; [reflexivity|].
  destruct c; simpl; rewrite IH; reflexivity.
Qed.

Lemma gemini_builder_as_specified : builder_as_specified Gemini.createElement.
Proof.
  intros ty props args. exists (spread props). unfold Gemini.createElement.
  rewrite spec_flatten_flat. f_equal. apply map_ext. intros [p|items|t a k]; reflexivity.
Qed.

(** C6, as stated, fails on part_001: an array argument of its builder is
    kept as one child, and a number is stored unstringified. *)
Lemma part001_builder_not_as_specified :
  Part001.createElement (Some (TyStr "ul")) None [CArr [CPrim (PStr "a"); CPrim (PNum 5)]]
    = CElem (Some (TyStr "ul")) [] [CArr [CPrim (PStr "a"); CPrim (PNum 5)]]
  /\ ~ builder_as_specified Part001.createElement.
Proof.
  split; [reflexivity|].
  intros H.
  destruct (H (Some (TyStr "ul")) None [CArr [CPrim (PStr "a"); CPrim (PNum 5)]]) as [a Ha].
  vm_compute in Ha. discriminate Ha.
Qed.

(** C6, amended: the builder of gemini.html flattens one level and wraps
    every raw primitive into a text node with the stringified value and no
    children; the builder of part_001 keeps its arguments position by
    position, wrapping each primitive other than [null] into a text node
    that carries the value itself and has no children, and keeping arrays
    and elements as they are. *)
Theorem element_builders :
  builder_as_specified Gemini.createElement
  /\ forall ty props args,
       exists kids,
         Part001.createElement ty props args = CElem ty (spread props) kids
         /\ length kids = length args
         /\ forall i c, args !! i = Some c ->
              match c with
              | CPrim PNull => True
              | CPrim p =>
                  kids !! i = Some (CElem (Some (TyStr "TEXT_ELEMENT")) [("nodeValue", VPrim p)] [])
              | _ => kids !! i = Some c
              end.
Proof.
  split; [apply gemini_builder_as_specified|].
  intros ty props args. eexists. split; [reflexivity|]. split.
  - apply length_map.
  - intros i c Hi. rewrite list_lookup_fmap, Hi. simpl.
    destruct c as [[| |b|z|s]|items|t a k]; try reflexivity; exact I.
Qed.

(** ** Render while a pass is in flight *)

(** C8, as stated, fails: with a pass in flight, [render] of part_001
    raises nothing and replaces the pending root. *)
Lemma render_in_flight_not_rejected :
  exists s, in_flight_state = Ok s
    /\ wipRoot s = Some 0
    /\ nextUnitOfWork s = Some 0
    /\ exists s', Part001.render (ul [li "2"]) 0 s = Ok (tt, s')
         /\ wipRoot s' = Some 1 /\ nextUnitOfWork s' = Some 1.
Proof.
  eexists. split; [reflexivity|]. split; [reflexivity|]. split; [reflexivity|].
  eexists. split; [reflexivity|]. split; reflexivity.
Qed.

(** C8, amended: [render] is never rejected.  Whatever the state, also
    with a pass in flight, it allocates a fresh root fiber over the
    container whose predecessor is the committed root, makes it both the
    pending root and the next unit of work, and empties the deletions; the
    fibers of the pass it displaces stay in the store, unreferenced. *)
Theorem render_restarts_pass element container s :
  Part001.render element container s =
    Ok (tt, mkState
              (heap s ++ [mkFiber None (Some (mkProps [] [element])) (Some container)
                            None None None (currentRoot s) None])
              (document s) (Some (length (heap s))) (currentRoot s)
              (Some (length (heap s))) []).
Proof. reflexivity. Qed.

(** ** Removal of nodes that are already gone *)

(** C7 on part_001: when a list shrinks from three items to one, the
    second commit raises [NotFoundError]: the walk from the first deleted
    fiber already removes the second one through the sibling link, and
    [commitDeletion] removes it again without a check. *)
Theorem part001_double_removal_raises :
  part001_three_then_one = Throw NotFoundError.
Proof. vm_compute. reflexivity. Qed.

(** ** A null child in front of a present one *)

(** C10 on part_001: the builder keeps a [null] argument in the children
    array; the first iteration then produces no fiber, and the second one
    writes [prevSibling.sibling] through [null]. *)
Theorem part001_null_child_raises :
  part001_null_first = CElem (Some (TyStr "div")) []
                         [CPrim PNull; Part001.createTextElement (PStr "x")]
  /\ exec (part001_pass part001_null_first) initial_state = Throw TypeError.
Proof. split; vm_compute; reflexivity. Qed.

(** ** Computations that only touch the document *)

Create HintDb doc_only.

Lemma only_document_changed_refl s : only_document_changed s s.
Proof. destruct s; reflexivity. Qed.

Lemma only_document_changed_trans s1 s2 s3 :
  only_document_changed s1 s2 -> only_document_changed s2 s3 -> only_document_changed s1 s3.
Proof.
  unfold only_document_changed. intros H1 H2. rewrite H2, H1. destruct s1; reflexivity.
Qed.

Lemma document_only_ret {A} (a : A) : document_only (ret a).
Proof. intros s a' s' H. injection H as _ <-. apply only_document_changed_refl. Qed.

Lemma document_only_bind {A B} (m : M A) (k : A -> M B) :
  document_only m -> (forall a, document_only (k a)) -> document_only (bind m k).
Proof.
  intros Hm Hk s b s' H. apply bind_Ok in H as (a & s1 & H1 & H2).
  eapply only_document_changed_trans; [eapply Hm | eapply Hk]; eassumption.
Qed.

Lemma document_only_throw {A} e : document_only (@throw A e).
Proof. intros s a s' H. discriminate H. Qed.

Lemma document_only_out_of_fuel {A} : document_only (@out_of_fuel A).
Proof. intros s a s' H. discriminate H. Qed.

Lemma document_only_invalid {A} : document_only (@invalid A).
Proof. intros s a s' H. discriminate H. Qed.

Lemma document_only_get_state : document_only get_state.
Proof. intros s a s' H. injection H as _ <-. apply only_document_changed_refl. Qed.

Lemma document_only_read_fiber i : document_only (read_fiber i).
Proof.
  intros s a s'. unfold read_fiber. destruct (heap s !! i); [|discriminate].
  intros H. injection H as _ <-. apply only_document_changed_refl.
Qed.

Lemma document_only_read_node i : document_only (read_node i).
Proof.
  intros s a s'. unfold read_node. destruct (document s !! i); [|discriminate].
  intros H. injection H as _ <-. apply only_document_changed_refl.
Qed.

Lemma document_only_update_node i g : document_only (update_node i g).
Proof.
  intros s a s'. unfold update_node. destruct (document s !! i); [|discriminate].
  intros H. injection H as _ <-. destruct s; reflexivity.
Qed.

Lemma document_only_new_node n : document_only (new_node n).
Proof. intros s a s' H. injection H as _ <-. destruct s; reflexivity. Qed.

Lemma document_only_contains p c : document_only (contains p c).
Proof. intros s a s' H. injection H as _ <-. apply only_document_changed_refl. Qed.

Lemma document_only_find_dom_parent fuel start : document_only (find_dom_parent fuel start).
Proof.
  intros s a s'. unfold find_dom_parent.
  destruct (dom_parent_fiber fuel (heap s) start); try discriminate.
  intros H. injection H as _ <-. apply only_document_changed_refl.
Qed.

Lemma document_only_forEach {A} (body : A -> M unit) l :
  (forall x, document_only (body x)) -> document_only (forEach body l).
Proof.
  intros Hb. induction l as [|x l IH]; simpl.
  - apply document_only_ret.
  - apply document_only_bind; [apply Hb | intros _; exact IH].
Qed.

#[export] Hint Resolve document_only_ret document_only_throw document_only_out_of_fuel
  document_only_invalid document_only_get_state document_only_read_fiber
  document_only_read_node document_only_update_node document_only_new_node
  document_only_contains document_only_find_dom_parent : doc_only.

Ltac doc_only :=
  repeat first
    [ progress eauto with doc_only
    | apply document_only_bind; [|intros ?]
    | apply document_only_forEach; intros ?
    | match goal with
      | |- document_only (match ?x with _ => _ end) => destruct x
      | |- document_only (if ?b then _ else _) => destruct b
      end ].

Lemma document_only_detach c : document_only (detach c).
Proof. unfold detach. doc_only. Qed.

Lemma document_only_appendChild p c : document_only (appendChild p c).
Proof. unfold appendChild. pose proof document_only_detach. doc_only. Qed.

Lemma document_only_removeChild p c : document_only (removeChild p c).
Proof. unfold removeChild. pose proof document_only_detach. doc_only. Qed.

Lemma document_only_set_property d n v : document_only (set_property d n v).
Proof. unfold set_property. doc_only. Qed.

Lemma document_only_remove_property d n : document_only (remove_property d n).
Proof. unfold remove_property. doc_only. Qed.

Lemma document_only_addEventListener d t h : document_only (addEventListener d t h).
Proof. unfold addEventListener. doc_only. Qed.

Lemma document_only_removeEventListener d t h : document_only (removeEventListener d t h).
Proof. unfold removeEventListener. doc_only. Qed.

#[export] Hint Resolve document_only_detach document_only_appendChild
  document_only_removeChild document_only_set_property document_only_remove_property
  document_only_addEventListener document_only_removeEventListener : doc_only.

Lemma part001_updateDomProperties_document_only d prev next :
  document_only (Part001.updateDomProperties d prev next).
Proof. unfold Part001.updateDomProperties. doc_only. Qed.

#[export] Hint Resolve part001_updateDomProperties_document_only : doc_only.

Lemma part001_commitDeletion_document_only fuel fiber domParent :
  document_only (Part001.commitDeletion fuel fiber domParent).
Proof.
  revert fiber. induction fuel as [|fuel IH]; intros fiber; simpl; doc_only.
Qed.

#[export] Hint Resolve part001_commitDeletion_document_only : doc_only.

Lemma part001_commitWork_document_only fuel fiber :
  document_only (Part001.commitWork fuel fiber).
Proof.
  revert fiber. induction fuel as [|fuel IH]; intros fiber; simpl; doc_only.
Qed.

#[export] Hint Resolve part001_commitWork_document_only : doc_only.

(** ** The commit of part_001 and a second run of the work loop *)

Lemma read_fiber_Ok i s f s' :
  read_fiber i s = Ok (f, s') -> heap s !! i = Some f /\ s' = s.
Proof.
  unfold read_fiber. destruct (heap s !! i); [|discriminate].
  intros H. injection H as <- <-. split; reflexivity.
Qed.

Lemma read_fiber_lookup i s f :
  heap s !! i = Some f -> read_fiber i s = Ok (f, s).
Proof. unfold read_fiber. intros ->. reflexivity. Qed.

Lemma part001_commitRoot_promotes fuel s s' :
  Part001.commitRoot fuel s = Ok (tt, s') ->
  heap s' = heap s /\ nextUnitOfWork s' = nextUnitOfWork s /\ deletions s' = deletions s
  /\ currentRoot s' = wipRoot s /\ wipRoot s' = None /\ wipRoot s <> None.
Proof.
  unfold Part001.commitRoot. intros H.
  apply bind_Ok in H as (s0 & s0' & H0 & H). injection H0 as <- <-.
  apply bind_Ok in H as ([] & s1 & H1 & H).
  apply bind_Ok in H as (s1' & s1'' & H1' & H). injection H1' as <- <-.
  assert (D1 : only_document_changed s s1).
  { exact (document_only_forEach _ _
             (fun x => part001_commitWork_document_only fuel (Some x)) _ _ _ H1). }
  destruct (wipRoot s1) as [w|] eqn:Hw; [|discriminate].
  apply bind_Ok in H as (wf & s2 & H2 & H). apply read_fiber_Ok in H2 as [_ ->].
  apply bind_Ok in H as ([] & s3 & H3 & H).
  assert (D3 : only_document_changed s1 s3) by (eapply part001_commitWork_document_only; exact H3).
  injection H as <-.
  unfold only_document_changed in D1, D3.
  rewrite D3, D1 in *. simpl in *. rewrite Hw. repeat split; congruence.
Qed.

(** C9, as stated, fails on part_001: after a committed pass that deleted
    a fiber nothing is pending, yet the deletions still list that fiber,
    and [commitRoot] itself, run once more, raises. *)
Lemma committed_deletions_not_cleared :
  exists s, part001_two_then_one = Ok s
    /\ nextUnitOfWork s = None /\ wipRoot s = None
    /\ deletions s = [3]
    /\ Part001.commitRoot 64 s = Throw NotFoundError.
Proof.
  eexists. split; [vm_compute; reflexivity|].
  repeat split; vm_compute; reflexivity.
Qed.

(** C9, amended: once the work loop has committed a finished pass, no
    work is pending (no next unit, no pending root), and a further run of
    the work loop changes nothing: neither the fibers nor the document.
    The deletions recorded by the pass are not cleared by the commit; they
    stay as accumulated, and the guard of the work loop keeps the commit
    from running over them again. *)
Theorem second_commit_is_noop fuel s s' :
  nextUnitOfWork s = None ->
  wipRoot s <> None ->
  Part001.commit_when_done fuel s = Ok (tt, s') ->
  nextUnitOfWork s' = None /\ wipRoot s' = None /\ currentRoot s' = wipRoot s
  /\ heap s' = heap s /\ deletions s' = deletions s
  /\ forall call_component fuel' deadline,
       Part001.workLoop call_component fuel' deadline s' = Ok (tt, s').
Proof.
  intros Hn Hw H. unfold Part001.commit_when_done in H.
  apply bind_Ok in H as (s0 & s0' & H0 & H). injection H0 as <- <-.
  rewrite Hn in H. destruct (wipRoot s) eqn:E; [|congruence].
  apply part001_commitRoot_promotes in H as (Hh & Hn' & Hd & Hc & Hw' & _).
  rewrite Hn in Hn'. repeat split; try assumption; try congruence.
  intros cc fuel' deadline. unfold Part001.workLoop, Part001.commit_when_done.
  destruct deadline; simpl; unfold bind, get_state; rewrite Hn'; simpl;
    rewrite Hn', Hw'; reflexivity.
Qed.

Lemma second_commit_is_noop_witness :
  let s := state_of (part001_rendered (ul [li "1"; li "2"])) in
  let s' := state_of (exec (Part001.commit_when_done 64) s) in
  nextUnitOfWork s' = None /\ wipRoot s' = None /\ currentRoot s' = wipRoot s
  /\ heap s' = heap s /\ deletions s' = deletions s
  /\ forall call_component fuel' deadline,
       Part001.workLoop call_component fuel' deadline s' = Ok (tt, s').
Proof.
  intros s s'.
  apply (second_commit_is_noop 64 s s');
    [vm_compute; reflexivity | vm_compute; discriminate | vm_compute; reflexivity].
Defined.

(** ** The next unit of work *)

Lemma sibling_climb_sound fuel h i r :
  sibling_climb fuel h (Some i) = Ok r -> first_sibling_upwards h i r.
Proof.
  revert i. induction fuel as [|fuel IH]; intros i; simpl; [discriminate|].
  destruct (h !! i) as [f|] eqn:Hf; [|discriminate].
  destruct (sibling f) as [sb|] eqn:Hs.
  - intros H. injection H as <-. eapply fsu_sibling; eassumption.
  - destruct (parent f) as [p|] eqn:Hp.
    + intros H. eapply fsu_parent; eauto.
    + destruct fuel; simpl; intros H; injection H as <-; eapply fsu_root; eassumption.
Qed.

Lemma sibling_climb_complete h i r :
  first_sibling_upwards h i r ->
  exists n, forall fuel, n <= fuel -> sibling_climb fuel h (Some i) = Ok r.
Proof.
  induction 1 as [i f sb Hf Hs | i f p r Hf Hs Hp _ [n IH] | i f Hf Hs Hp].
  - exists 1. intros [|fuel] Hle; [lia|]. simpl. rewrite Hf, Hs. reflexivity.
  - exists (S n). intros [|fuel] Hle; [lia|]. simpl. rewrite Hf, Hs, Hp.
    apply IH. lia.
  - exists 1. intros [|fuel] Hle; [lia|]. simpl. rewrite Hf, Hs, Hp.
    destruct fuel; reflexivity.
Qed.

Lemma next_unit_sound fuel fiber s next s' :
  next_unit fuel fiber s = Ok (next, s') ->
  s' = s /\ next_unit_rule (heap s) fiber next.
Proof.
  unfold next_unit. intros H.
  apply bind_Ok in H as (f & s1 & H1 & H). apply read_fiber_Ok in H1 as [Hf ->].
  unfold next_unit_rule. destruct (child f) as [c|] eqn:Hc.
  - injection H as <- <-. split; [reflexivity|]. exists f. rewrite Hc. split; auto.
  - destruct (sibling_climb fuel (heap s) (Some fiber)) as [r| | |] eqn:Hr; try discriminate.
    injection H as <- <-. split; [reflexivity|]. exists f. rewrite Hc.
    split; [assumption|]. eapply sibling_climb_sound; eassumption.
Qed.



(** ** The loop of the reconciler *)

Lemma sibling_chain_head h first olds :
  sibling_chain h first olds -> first = olds !! 0.
Proof. destruct 1; reflexivity. Qed.

Lemma sibling_chain_lookup h first olds p o :
  sibling_chain h first olds -> olds !! p = Some o ->
  exists fo, h !! o = Some fo /\ sibling fo = olds !! S p.
Proof.
  intros Hc. revert p. induction Hc as [|o' f rest Hf Hc IH]; intros p Hp.
  - discriminate.
  - destruct p as [|p]; simpl in *.
    + injection Hp as ->. exists f. split; [assumption|].
      apply sibling_chain_head in Hc. exact Hc.
    + apply IH. exact Hp.
Qed.

Lemma bind_read_fiber {B} i (k : Fiber -> M B) s f :
  heap s !! i = Some f -> bind (read_fiber i) k s = k f s.
Proof. intros H. unfold bind, read_fiber. rewrite H. reflexivity. Qed.

Lemma bind_update_fiber {B} i g (k : unit -> M B) s f :
  heap s !! i = Some f ->
  bind (update_fiber i g) k s = k tt (with_heap (<[i := g f]> (heap s)) s).
Proof. intros H. unfold bind, update_fiber. rewrite H. reflexivity. Qed.

Lemma insert_as_alter {A} (l : list A) i g x :
  l !! i = Some x -> <[i := g x]> l = alter g i l.
Proof.
  intros H. apply list_eq. intros j.
  rewrite list_lookup_insert, list_lookup_alter.
  destruct (decide (i = j)) as [->|Hne].
  - rewrite H. simpl. apply lookup_lt_Some in H.
    destruct (decide (j = j /\ j < length l)) as [_|Hn]; [reflexivity | exfalso; apply Hn; split; [reflexivity|lia]].
  - destruct (decide (i = j /\ i < length l)) as [[? _]|_]; [contradiction | reflexivity].
Qed.

Lemma bind_alter_fiber {B} i g (k : unit -> M B) s :
  i < length (heap s) ->
  bind (update_fiber i g) k s = k tt (with_heap (alter g i (heap s)) s).
Proof.
  intros H. apply lookup_lt_is_Some_2 in H as [f Hf].
  rewrite (bind_update_fiber _ _ _ _ _ Hf), (insert_as_alter _ _ _ _ Hf). reflexivity.
Qed.

Lemma bind_new_fiber {B} f (k : nat -> M B) s :
  bind (new_fiber f) k s = k (length (heap s)) (with_heap (heap s ++ [f]) s).
Proof. reflexivity. Qed.

Lemma bind_modify {B} g (k : unit -> M B) s : bind (modify g) k s = k tt (g s).
Proof. reflexivity. Qed.

Lemma bind_ret {A B} (a : A) (k : A -> M B) s : bind (ret a) k s = k a s.
Proof. reflexivity. Qed.

Lemma bind_assoc {A B C} (m : M A) (k1 : A -> M B) (k2 : B -> M C) s :
  bind (bind m k1) k2 s = bind m (fun a => bind (k1 a) k2) s.
Proof. unfold bind. destruct (m s) as [[a s1]| | |]; reflexivity. Qed.

Lemma lookup_snoc_case {A} (l : list A) (x : A) j :
  (l ++ [x]) !! j =
    if decide (j < length l) then l !! j
    else if decide (j = length l) then Some x else None.
Proof.
  destruct (decide (j < length l)) as [H|H].
  - apply lookup_app_l. exact H.
  - rewrite lookup_app_r by lia. destruct (decide (j = length l)) as [->|H'].
    + rewrite Nat.sub_diag. reflexivity.
    + destruct (j - length l) eqn:E; [lia|reflexivity].
Qed.

Section Reconcile.

Variable v : Variant.
Variable h0 : list Fiber.
Variable w : nat.
Variable els : list Child.
Variable olds : list nat.
Variable s0 : State.

#[local] Abbreviation same_at := (same_at h0 els olds) (only parsing).
#[local] Abbreviation deleted_at := (deleted_at h0 els olds) (only parsing).
#[local] Abbreviation deleted_upto := (deleted_upto h0 els olds) (only parsing).
#[local] Abbreviation first_child := (first_child h0 els) (only parsing).
#[local] Abbreviation old_fiber_after := (old_fiber_after h0 w els olds) (only parsing).
#[local] Abbreviation new_fiber_after := (new_fiber_after h0 w els olds) (only parsing).
#[local] Abbreviation heap_after := (heap_after h0 w els olds) (only parsing).
#[local] Abbreviation rounds := (rounds els olds) (only parsing).
#[local] Abbreviation prev_sibling := (prev_sibling h0 els) (only parsing).
#[local] Abbreviation allocate := (allocate h0 w els olds) (only parsing).
#[local] Abbreviation mark := (mark h0 els olds) (only parsing).
#[local] Abbreviation link := (link h0 w els) (only parsing).
#[local] Abbreviation heap_state := (heap_state h0 w els olds) (only parsing).
#[local] Abbreviation loop_inv := (loop_inv h0 w els olds s0) (only parsing).

Hypothesis Hw : w < length h0.
Hypothesis Htruthy : Forall (fun c => truthy c = true) els.
Hypothesis Hchain : forall p o, olds !! p = Some o ->
  exists fo, h0 !! o = Some fo /\ sibling fo = olds !! S p.

Lemma deleted_upto_S i :
  deleted_upto (S i) = deleted_upto i ++ option_list (deleted_at i).
Proof.
  unfold deleted_upto. rewrite seq_S, omap_app. simpl.
  destruct (deleted_at i); reflexivity.
Qed.

Lemma deleted_upto_S_decide i j :
  bool_decide (j ∈ deleted_upto (S i)) =
  bool_decide (j ∈ deleted_upto i) || bool_decide (deleted_at i = Some j).
Proof.
  rewrite deleted_upto_S. apply eq_true_iff_eq.
  rewrite orb_true_iff, !bool_decide_eq_true, elem_of_app.
  destruct (deleted_at i) as [x|]; simpl.
  - rewrite list_elem_of_singleton. split; (intros [?|?]; [left; assumption | right; congruence]).
  - split; (intros [?|H]; [left; assumption | exfalso]); [inversion H | discriminate].
Qed.

Lemma deleted_at_old i o : deleted_at i = Some o -> o < length h0.
Proof.
  unfold deleted_at. destruct (olds !! i) as [o'|] eqn:Ho; [|discriminate].
  destruct (same_at i); [discriminate|]. intros H. injection H as <-.
  destruct (Hchain _ _ Ho) as (fo & Hfo & _). apply lookup_lt_Some in Hfo. exact Hfo.
Qed.

Lemma heap_state_length i : length (heap_state i) = length h0 + min i (length els).
Proof.
  induction i as [|i IH]; simpl; [lia|].
  unfold link, mark, allocate.
  assert (E : length (match els !! i with
                      | Some e => heap_state i ++ [new_fiber_after i i e]
                      | None => heap_state i
                      end) = length h0 + min (S i) (length els)).
  { destruct (els !! i) as [e|] eqn:He.
    - apply lookup_lt_Some in He. rewrite length_app, IH. cbn [length]. lia.
    - apply lookup_ge_None in He. rewrite IH. lia. }
  destruct (decide (i = 0)); destruct (els !! i); destruct (deleted_at i);
    rewrite ?length_alter; exact E.
Qed.

Lemma old_fiber_step i j f :
  old_fiber_after (S i) j f =
    (if decide (i = 0 /\ j = w) then set_child first_child else id)
      ((if decide (deleted_at i = Some j) then set_effectTag (Some DELETION) else id)
         (old_fiber_after i j f)).
Proof.
  unfold old_fiber_after. rewrite deleted_upto_S_decide.
  destruct (bool_decide (j ∈ deleted_upto i)) eqn:E1;
  destruct (decide (deleted_at i = Some j)) as [E2|E2];
    [rewrite (bool_decide_eq_true_2 _ E2) | rewrite (bool_decide_eq_false_2 _ E2)
    |rewrite (bool_decide_eq_true_2 _ E2) | rewrite (bool_decide_eq_false_2 _ E2)];
  simpl;
  repeat case_bool_decide; repeat case_decide; try lia; try reflexivity;
    try (exfalso; intuition lia).
Qed.
Lemma new_fiber_step i p e :
  p < i ->
  new_fiber_after (S i) p e =
    (if decide (S p = i /\ i < length els) then set_sibling (Some (length h0 + i)) else id)
      (new_fiber_after i p e).
Proof.
  intros Hp. unfold new_fiber_after.
  destruct (decide (S p = i /\ i < length els)) as [[<- Hk]|Hn].
  - rewrite (bool_decide_eq_true_2 (S p < S (S p) /\ S p < length els)) by lia.
    rewrite (bool_decide_eq_false_2 (S p < S p /\ S p < length els)) by lia.
    destruct (olds !! p) as [o|]; [|reflexivity].
    destruct (h0 !! o) as [fo|]; [|reflexivity].
    destruct (bool_decide (child_type e = type fo)); reflexivity.
  - assert (E : bool_decide (S p < S i /\ S p < length els)
                = bool_decide (S p < i /\ S p < length els)).
    { apply bool_decide_ext. lia. }
    rewrite E. reflexivity.
Qed.

Lemma lookup_allocate i h j :
  allocate i h !! j =
    if decide (j < length h) then h !! j
    else if decide (j = length h) then new_fiber_after i i <$> els !! i else None.
Proof.
  unfold allocate. destruct (els !! i) as [e|].
  - apply lookup_snoc_case.
  - destruct (decide (j < length h)); [reflexivity|].
    rewrite (proj2 (lookup_ge_None h j)) by lia. destruct (decide (j = length h)); reflexivity.
Qed.

Lemma lookup_mark i h j :
  mark i h !! j =
    (if decide (deleted_at i = Some j) then set_effectTag (Some DELETION) else id) <$> h !! j.
Proof.
  unfold mark. destruct (deleted_at i) as [o|].
  - rewrite list_lookup_alter. destruct (decide (o = j)) as [->|Hne].
    + rewrite decide_True by reflexivity. reflexivity.
    + rewrite decide_False by congruence. destruct (h !! j); reflexivity.
  - rewrite decide_False by discriminate. destruct (h !! j); reflexivity.
Qed.

Lemma lookup_link i h j :
  link i h !! j =
    (if decide (i = 0 /\ j = w) then set_child first_child
     else if decide (S (j - length h0) = i /\ i < length els /\ length h0 <= j)
          then set_sibling (Some (length h0 + i)) else id) <$> h !! j.
Proof.
  unfold link. destruct (decide (i = 0)) as [->|Hi].
  - rewrite list_lookup_alter. destruct (decide (w = j)) as [->|Hne].
    + rewrite decide_True by auto. reflexivity.
    + rewrite decide_False by (intros [_ ?]; congruence).
      rewrite decide_False by lia. destruct (h !! j); reflexivity.
  - rewrite decide_False by lia.
    destruct (els !! i) as [e|] eqn:He.
    + apply lookup_lt_Some in He. rewrite list_lookup_alter.
      destruct (decide (length h0 + i - 1 = j)) as [<-|Hne].
      * rewrite decide_True by lia. reflexivity.
      * rewrite decide_False by lia. destruct (h !! j); reflexivity.
    + apply lookup_ge_None in He. rewrite decide_False by lia.
      destruct (h !! j); reflexivity.
Qed.

Lemma heap_state_lookup i j : heap_state i !! j = heap_after i j.
Proof.
  revert j. induction i as [|i IH]; intros j.
  - simpl. unfold heap_after, old_fiber_after, deleted_upto. simpl.
    destruct (decide (j < length h0)) as [Hj|Hj].
    + rewrite bool_decide_eq_false_2 by lia. destruct (h0 !! j); reflexivity.
    + apply lookup_ge_None. lia.
  - cbn [heap_state]. rewrite lookup_link, lookup_mark, lookup_allocate, IH, heap_state_length.
    unfold heap_after.
    destruct (decide (j < length h0)) as [Hj|Hj].
    + rewrite (decide_True (P := j < length h0 + i `min` length els)) by lia.
      rewrite (decide_False (P := S (j - length h0) = i /\ _)) by lia.
      destruct (h0 !! j) as [f|]; [|reflexivity]. simpl. f_equal.
      rewrite old_fiber_step.
      destruct (decide (i = 0 /\ j = w)); reflexivity.
    + rewrite (decide_False (P := deleted_at i = Some j))
        by (intros Hd; apply deleted_at_old in Hd; lia).
      rewrite (decide_False (P := i = 0 /\ j = w)) by lia.
      rewrite option_fmap_id.
      destruct (decide (j - length h0 < i)) as [Hlt|Hge].
      * rewrite (decide_True (P := j - length h0 < S i)) by lia.
        destruct (els !! (j - length h0)) as [e|] eqn:He.
        2:{ destruct (decide (j < length h0 + i `min` length els)); [reflexivity|].
            apply lookup_ge_None in He.
            destruct (decide (j = length h0 + i `min` length els)); [|reflexivity].
            rewrite (proj2 (lookup_ge_None els i)) by lia. reflexivity. }
        pose proof (lookup_lt_Some _ _ _ He) as Hk.
        rewrite (decide_True (P := j < length h0 + i `min` length els)) by lia.
        simpl. f_equal. rewrite new_fiber_step by exact Hlt.
        destruct (decide (S (j - length h0) = i /\ i < length els /\ length h0 <= j)) as [Hx|Hx].
        -- rewrite decide_True by lia. reflexivity.
        -- rewrite decide_False by lia. reflexivity.
      * rewrite (decide_False (P := S (j - length h0) = i /\ _)) by lia.
        rewrite option_fmap_id.
        destruct (decide (j - length h0 < S i)) as [Hlt'|Hge'].
        -- assert (Hji : j - length h0 = i) by lia. rewrite Hji.
           destruct (els !! i) as [e|] eqn:He.
           ++ apply lookup_lt_Some in He.
              rewrite (decide_False (P := j < length h0 + i `min` length els)) by lia.
              rewrite (decide_True (P := j = length h0 + i `min` length els)) by lia.
              simpl. unfold new_fiber_after.
              rewrite !(bool_decide_eq_false_2 (S i < _ /\ _)) by lia. reflexivity.
           ++ destruct (decide (j < length h0 + i `min` length els)); [reflexivity|].
              destruct (decide (j = length h0 + i `min` length els)); reflexivity.
        -- destruct (decide (j < length h0 + i `min` length els)); [lia|].
           destruct (decide (j = length h0 + i `min` length els)) as [Hx|Hx]; [|reflexivity].
           assert (Hk : length els <= i) by lia.
           rewrite (proj2 (lookup_ge_None els i)) by lia. reflexivity.
Qed.

Lemma element_at_truthy i : element_at els i = els !! i.
Proof.
  unfold element_at. destruct (els !! i) as [c|] eqn:E; [|reflexivity].
  rewrite Forall_lookup in Htruthy. rewrite (Htruthy _ _ E). reflexivity.
Qed.

Lemma lookup_old i o fo :
  h0 !! o = Some fo -> heap_state i !! o = Some (old_fiber_after i o fo).
Proof.
  intros Hfo. rewrite heap_state_lookup. unfold heap_after.
  rewrite decide_True by (apply lookup_lt_Some in Hfo; exact Hfo).
  rewrite Hfo. reflexivity.
Qed.

Lemma type_old_fiber_after i j f : type (old_fiber_after i j f) = type f.
Proof. unfold old_fiber_after. repeat case_bool_decide; reflexivity. Qed.

Lemma dom_old_fiber_after i j f : dom (old_fiber_after i j f) = dom f.
Proof. unfold old_fiber_after. repeat case_bool_decide; reflexivity. Qed.

Lemma sibling_old_fiber_after i j f : sibling (old_fiber_after i j f) = sibling f.
Proof. unfold old_fiber_after. repeat case_bool_decide; reflexivity. Qed.

Lemma new_fiber_fresh i e :
  new_fiber_after i i e =
    match olds !! i with
    | Some o =>
        match h0 !! o with
        | Some fo =>
            if bool_decide (child_type e = type fo)
            then mkFiber (type fo) (child_props e) (dom fo) (Some w) None None (Some o)
                   (Some UPDATE)
            else mkFiber (child_type e) (child_props e) None (Some w) None None None
                   (Some PLACEMENT)
        | None => mkFiber (child_type e) (child_props e) None (Some w) None None None
                    (Some PLACEMENT)
        end
    | None => mkFiber (child_type e) (child_props e) None (Some w) None None None
                (Some PLACEMENT)
    end.
Proof.
  unfold new_fiber_after. rewrite (bool_decide_eq_false_2 (S i < i /\ _)) by lia. reflexivity.
Qed.

Lemma loop_step fuel i s :
  loop_inv i s -> i < rounds ->
  exists s1, loop_inv (S i) s1 /\
    reconcile_loop v (S fuel) w els i (olds !! i) (prev_sibling i) s =
    reconcile_loop v fuel w els (S i) (olds !! S i) (prev_sibling (S i)) s1.
Proof.
  intros (Hh & Hd & Hdoc & Hn & Hc & Hwr) Hi.
  pose proof (heap_state_length i) as Hlen.
  cbn [reconcile_loop]. rewrite element_at_truthy.
  assert (Hprev : forall e, els !! i = Some e -> i <> 0 ->
            prev_sibling i = Some (length h0 + i - 1)).
  { intros e He Hi0. apply lookup_lt_Some in He. unfold prev_sibling.
    rewrite bool_decide_eq_true_2 by lia. reflexivity. }
  assert (Hnext : forall e, els !! i = Some e ->
            prev_sibling (S i) = Some (length (heap_state i))).
  { intros e He. apply lookup_lt_Some in He. unfold prev_sibling.
    rewrite bool_decide_eq_true_2 by lia. rewrite Hlen. f_equal. lia. }
  assert (Hnone : els !! i = None -> prev_sibling (S i) = None).
  { intros He. apply lookup_ge_None in He. unfold prev_sibling.
    rewrite bool_decide_eq_false_2 by lia. reflexivity. }
  destruct (els !! i) as [e|] eqn:He; destruct (olds !! i) as [o|] eqn:Ho.
  - destruct (Hchain _ _ Ho) as (fo & Hfo & Hsib).
    pose proof (lookup_old i _ _ Hfo) as Hol.
    assert (Hik : i < length els) by (apply lookup_lt_Some in He; exact He).
    rewrite orb_true_r.
    rewrite bind_assoc, (bind_read_fiber o _ _ (old_fiber_after i o fo)), bind_ret
      by (rewrite Hh; exact Hol).
    unfold same_type. rewrite type_old_fiber_after, dom_old_fiber_after.
    destruct (decide (child_type e = type fo)) as [Hsame|Hsame];
      [rewrite (bool_decide_eq_true_2 _ Hsame) | rewrite (bool_decide_eq_false_2 _ Hsame)];
      cbn [negb].
    + rewrite bind_assoc, bind_new_fiber, !bind_ret.
      rewrite bind_assoc, (bind_read_fiber o _ _ (old_fiber_after i o fo)), bind_ret
        by (apply lookup_app_l_Some; rewrite Hh; exact Hol).
      rewrite sibling_old_fiber_after, Hsib, Hh.
      assert (Hdel : deleted_at i = None).
      { unfold deleted_at, same_at.
        rewrite He, Ho, Hfo, (bool_decide_eq_true_2 _ Hsame). reflexivity. }
      assert (Hnew : new_fiber_after i i e =
                mkFiber (type fo) (child_props e) (dom fo) (Some w) None None (Some o)
                  (Some UPDATE)).
      { rewrite new_fiber_fresh, Ho, Hfo, (bool_decide_eq_true_2 _ Hsame). reflexivity. }
      destruct (decide (i = 0)) as [Hi0|Hi0];
        [rewrite (bool_decide_eq_true_2 _ Hi0) | rewrite (bool_decide_eq_false_2 _ Hi0)].
      * rewrite bind_alter_fiber by (simpl; rewrite length_app, Hlen; lia).
        eexists. split; [|rewrite (Hnext _ eq_refl); reflexivity].
        unfold loop_inv. simpl. rewrite ?Hd, ?Hdoc, ?Hn, ?Hc, ?Hwr.
        split; [|split; [|auto]].
        -- subst i. unfold link, mark, allocate.
           rewrite Hdel, He, Hnew. simpl.
           unfold first_child. rewrite bool_decide_eq_true_2 by lia. reflexivity.
        -- rewrite deleted_upto_S, Hdel. simpl. rewrite app_nil_r. reflexivity.
      * rewrite (Hprev _ eq_refl Hi0).
        rewrite bind_alter_fiber by (simpl; rewrite length_app, Hlen; lia).
        eexists. split; [|rewrite (Hnext _ eq_refl); reflexivity].
        unfold loop_inv. simpl. rewrite ?Hd, ?Hdoc, ?Hn, ?Hc, ?Hwr.
        split; [|split; [|auto]].
        -- unfold link, mark, allocate.
           rewrite Hdel, He, Hnew, decide_False by exact Hi0.
           rewrite Hlen, Nat.min_l by lia. reflexivity.
        -- rewrite deleted_upto_S, Hdel. simpl. rewrite app_nil_r. reflexivity.
    + rewrite bind_ret, bind_assoc, bind_new_fiber, !bind_ret.
      rewrite bind_assoc, bind_alter_fiber
        by (simpl; rewrite length_app, Hh; apply lookup_lt_Some in Hol; lia).
      rewrite bind_modify.
      rewrite bind_assoc,
        (bind_read_fiber o _ _ (set_effectTag (Some DELETION) (old_fiber_after i o fo))), bind_ret
        by (simpl; rewrite list_lookup_alter_eq, Hh, (lookup_app_l_Some _ _ _ _ Hol);
            reflexivity).
      cbn [sibling set_effectTag]. rewrite sibling_old_fiber_after, Hsib.
      simpl heap. simpl deletions. rewrite Hh.
      assert (Hdel : deleted_at i = Some o).
      { unfold deleted_at, same_at.
        rewrite He, Ho, Hfo, (bool_decide_eq_false_2 _ Hsame). reflexivity. }
      assert (Hnew : new_fiber_after i i e =
                mkFiber (child_type e) (child_props e) None (Some w) None None None
                  (Some PLACEMENT)).
      { rewrite new_fiber_fresh, Ho, Hfo, (bool_decide_eq_false_2 _ Hsame). reflexivity. }
      destruct (decide (i = 0)) as [Hi0|Hi0];
        [rewrite (bool_decide_eq_true_2 _ Hi0) | rewrite (bool_decide_eq_false_2 _ Hi0)].
      * rewrite bind_alter_fiber by (simpl; rewrite length_alter, length_app, Hlen; lia).
        eexists. split; [|rewrite (Hnext _ eq_refl); reflexivity].
        unfold loop_inv. simpl. rewrite ?Hd, ?Hdoc, ?Hn, ?Hc, ?Hwr.
        split; [|split; [|auto]].
        -- subst i. unfold link, mark, allocate.
           rewrite Hdel, He, Hnew. simpl.
           unfold first_child. rewrite bool_decide_eq_true_2 by lia. reflexivity.
        -- rewrite deleted_upto_S, Hdel, app_assoc. reflexivity.
      * rewrite (Hprev _ eq_refl Hi0).
        rewrite bind_alter_fiber by (simpl; rewrite length_alter, length_app, Hlen; lia).
        eexists. split; [|rewrite (Hnext _ eq_refl); reflexivity].
        unfold loop_inv. simpl. rewrite ?Hd, ?Hdoc, ?Hn, ?Hc, ?Hwr.
        split; [|split; [|auto]].
        -- unfold link, mark, allocate.
           rewrite Hdel, He, Hnew, decide_False by exact Hi0.
           rewrite Hlen, Nat.min_l by lia. reflexivity.
        -- rewrite deleted_upto_S, Hdel, app_assoc. reflexivity.
  - assert (Hik : i < length els) by (apply lookup_lt_Some in He; exact He).
    rewrite bool_decide_eq_true_2 by exact Hik. cbn [orb].
    rewrite !bind_ret. unfold same_type. cbn [negb].
    rewrite bind_assoc, bind_new_fiber, !bind_ret. simpl heap. rewrite Hh.
    assert (Hdel : deleted_at i = None).
    { unfold deleted_at. rewrite Ho. reflexivity. }
    assert (Hnew : new_fiber_after i i e =
              mkFiber (child_type e) (child_props e) None (Some w) None None None
                (Some PLACEMENT)).
    { rewrite new_fiber_fresh, Ho. reflexivity. }
    assert (Hnil : olds !! S i = None).
    { apply lookup_ge_None. apply lookup_ge_None in Ho. lia. }
    rewrite Hnil.
    destruct (decide (i = 0)) as [Hi0|Hi0];
      [rewrite (bool_decide_eq_true_2 _ Hi0) | rewrite (bool_decide_eq_false_2 _ Hi0)].
    + rewrite bind_alter_fiber by (simpl; rewrite length_app, Hlen; lia).
      eexists. split; [|rewrite (Hnext _ eq_refl); reflexivity].
      unfold loop_inv. simpl. rewrite ?Hd, ?Hdoc, ?Hn, ?Hc, ?Hwr, ?Hh.
      split; [|split; [|auto]].
      * subst i. unfold link, mark, allocate.
        rewrite Hdel, He, Hnew. simpl.
        unfold first_child. rewrite bool_decide_eq_true_2 by lia. reflexivity.
      * rewrite deleted_upto_S, Hdel. simpl. rewrite app_nil_r. reflexivity.
    + rewrite (Hprev _ eq_refl Hi0).
      rewrite bind_alter_fiber by (simpl; rewrite length_app, Hlen; lia).
      eexists. split; [|rewrite (Hnext _ eq_refl); reflexivity].
      unfold loop_inv. simpl. rewrite ?Hd, ?Hdoc, ?Hn, ?Hc, ?Hwr, ?Hh.
      split; [|split; [|auto]].
      * unfold link, mark, allocate.
        rewrite Hdel, He, Hnew, decide_False by exact Hi0.
        rewrite Hlen, Nat.min_l by lia. reflexivity.
      * rewrite deleted_upto_S, Hdel. simpl. rewrite app_nil_r. reflexivity.
  - destruct (Hchain _ _ Ho) as (fo & Hfo & Hsib).
    pose proof (lookup_old i _ _ Hfo) as Hol.
    assert (Hik : length els <= i) by (apply lookup_ge_None in He; exact He).
    rewrite orb_true_r.
    rewrite bind_assoc, (bind_read_fiber o _ _ (old_fiber_after i o fo)), bind_ret
      by (rewrite Hh; exact Hol).
    unfold same_type. cbn [negb]. rewrite !bind_ret.
    rewrite bind_assoc, bind_alter_fiber
      by (rewrite Hh; apply lookup_lt_Some in Hol; lia).
    rewrite bind_modify.
    rewrite bind_assoc,
      (bind_read_fiber o _ _ (set_effectTag (Some DELETION) (old_fiber_after i o fo))), bind_ret
      by (simpl; rewrite list_lookup_alter_eq, Hh, Hol; reflexivity).
    cbn [sibling set_effectTag]. rewrite sibling_old_fiber_after, Hsib.
    simpl heap. simpl deletions. rewrite Hh.
    assert (Hdel : deleted_at i = Some o).
    { unfold deleted_at, same_at. rewrite He, Ho. reflexivity. }
    destruct (decide (i = 0)) as [Hi0|Hi0];
      [rewrite (bool_decide_eq_true_2 _ Hi0) | rewrite (bool_decide_eq_false_2 _ Hi0)].
    + rewrite bind_alter_fiber by (simpl; rewrite length_alter, Hlen; lia).
      eexists. split; [|rewrite (Hnone eq_refl); reflexivity].
      unfold loop_inv. simpl. rewrite ?Hd, ?Hdoc, ?Hn, ?Hc, ?Hwr.
      split; [|split; [|auto]].
      * subst i. unfold link, mark, allocate.
        rewrite Hdel, He. simpl.
        unfold first_child. rewrite bool_decide_eq_false_2 by lia. reflexivity.
      * rewrite deleted_upto_S, Hdel, app_assoc. reflexivity.
    + rewrite bind_ret.
      eexists. split; [|rewrite (Hnone eq_refl); reflexivity].
      unfold loop_inv. simpl. rewrite ?Hd, ?Hdoc, ?Hn, ?Hc, ?Hwr.
      split; [|split; [|auto]].
      * unfold link, mark, allocate.
        rewrite Hdel, He, decide_False by exact Hi0. reflexivity.
      * rewrite deleted_upto_S, Hdel, app_assoc. reflexivity.
  - exfalso. apply lookup_ge_None in He, Ho. unfold rounds in Hi. lia.
Qed.

Lemma loop_runs fuel i s :
  loop_inv i s -> i <= rounds -> rounds - i <= fuel ->
  exists s', reconcile_loop v fuel w els i (olds !! i) (prev_sibling i) s = Ok (tt, s')
             /\ loop_inv rounds s'.
Proof.
  revert i s. induction fuel as [|fuel IH]; intros i s Hinv Hle Hfuel.
  - assert (i = rounds) by lia. subst i. exists s. split; [|exact Hinv].
    simpl. unfold rounds.
    rewrite bool_decide_eq_false_2 by lia.
    rewrite (proj2 (lookup_ge_None olds _)) by lia.
    rewrite bool_decide_eq_false_2 by (intros H; apply H; reflexivity). reflexivity.
  - destruct (decide (i = rounds)) as [->|Hne].
    + exists s. split; [|exact Hinv].
      cbn [reconcile_loop]. unfold rounds.
      rewrite bool_decide_eq_false_2 by lia.
      rewrite (proj2 (lookup_ge_None olds _)) by lia.
      rewrite bool_decide_eq_false_2 by (intros H; apply H; reflexivity). reflexivity.
    + destruct (loop_step fuel i s Hinv ltac:(lia)) as (s1 & Hinv1 & ->).
      apply IH; [exact Hinv1 | lia | lia].
Qed.

End Reconcile.


Lemma sibling_chain_length h first olds :
  sibling_chain h first olds -> forall o, o ∈ olds -> o < length h.
Proof.
  induction 1 as [|o f rest Hf _ IH]; intros x Hx.
  - inversion Hx.
  - apply elem_of_cons in Hx as [->|Hx]; [eapply lookup_lt_Some; eassumption | auto].
Qed.

Lemma reconcileChildren_runs v fuel s w els olds first :
  w < length (heap s) ->
  Forall (fun c => truthy c = true) els ->
  first_old_fiber w s = Ok (first, s) ->
  sibling_chain (heap s) first olds ->
  rounds els olds <= fuel ->
  exists s',
    reconcileChildren v fuel w els s = Ok (tt, s')
    /\ heap s' = heap_state (heap s) w els olds (rounds els olds)
    /\ deletions s' = deletions s ++ deleted_upto (heap s) els olds (rounds els olds)
    /\ document s' = document s
    /\ nextUnitOfWork s' = nextUnitOfWork s
    /\ currentRoot s' = currentRoot s
    /\ wipRoot s' = wipRoot s.
Proof.
  intros Hw Htr Hfirst Hchain Hfuel.
  unfold reconcileChildren. rewrite (bind_Ok_intro _ _ _ _ _ Hfirst).
  rewrite (sibling_chain_head _ _ _ Hchain).
  destruct (loop_runs v (heap s) w els olds s Hw Htr
              (fun p o => sibling_chain_lookup _ _ _ p o Hchain)
              fuel 0 s) as (s' & Hrun & Hinv).
  - unfold loop_inv. simpl. unfold deleted_upto. simpl. rewrite app_nil_r. auto 10.
  - lia.
  - lia.
  - exists s'. split; [exact Hrun | exact Hinv].
Qed.

(** ** The reconciler, position by position *)

Lemma deleted_at_upto h0 els olds i n o :
  deleted_at h0 els olds i = Some o -> i < n -> o ∈ deleted_upto h0 els olds n.
Proof.
  intros Hd Hi. unfold deleted_upto. apply list_elem_of_omap.
  exists i. split; [|exact Hd]. apply elem_of_seq. lia.
Qed.

Lemma effectTag_old_fiber_after h0 w els olds i j f :
  j ∈ deleted_upto h0 els olds i ->
  effectTag (old_fiber_after h0 w els olds i j f) = Some DELETION.
Proof.
  intros Hj. unfold old_fiber_after. rewrite (bool_decide_eq_true_2 _ Hj).
  case_bool_decide; reflexivity.
Qed.

Lemma new_fibers_chain h n k :
  (forall p, p < k -> exists f, h !! (n + p) = Some f /\
     sibling f = if bool_decide (S p < k) then Some (n + S p) else None) ->
  sibling_chain h (if bool_decide (0 < k) then Some n else None) (seq n k).
Proof.
  revert n. induction k as [|k IH]; intros n H.
  - simpl. constructor.
  - rewrite bool_decide_eq_true_2 by lia. simpl.
    destruct (H 0 ltac:(lia)) as (f & Hf & Hs). rewrite Nat.add_0_r in Hf.
    econstructor; [exact Hf|]. rewrite Hs.
    replace (n + 1) with (S n) by lia.
    assert (E : bool_decide (1 < S k) = bool_decide (0 < k)) by (apply bool_decide_ext; lia).
    rewrite E. apply IH. intros p Hp.
    destruct (H (S p) ltac:(lia)) as (g & Hg & Hsg).
    exists g. replace (S n + p) with (n + S p) by lia. split; [exact Hg|].
    rewrite Hsg.
    assert (E2 : bool_decide (S (S p) < S k) = bool_decide (S p < k)) by (apply bool_decide_ext; lia).
    rewrite E2. replace (S n + S p) with (n + S (S p)) by lia. reflexivity.
Qed.

(** C1: one run of [reconcileChildren] over present new children and the
    chain of old child fibers settles every position as the reconciler's
    rule says.  Where the old fiber and the new child are both there with
    equal kinds, the fiber made for the position is an update fiber that
    reuses the old fiber's DOM node, takes the new child's props and has
    the old fiber as predecessor.  Where the new child is there but the
    old fiber is missing or of another kind, the fiber made is an insert
    fiber with no DOM node and no predecessor.  Where the old fiber is
    there but the new child is missing or of another kind, the old fiber
    itself gets the delete disposition and is appended to the deletions;
    the children of the parent are afterwards exactly the fibers made for
    the new children, all of them fresh, so no old fiber is among them. *)
Theorem reconcile_by_position v fuel s wipFiber elements olds first :
  wipFiber < length (heap s) ->
  Forall (fun c => truthy c = true) elements ->
  first_old_fiber wipFiber s = Ok (first, s) ->
  sibling_chain (heap s) first olds ->
  max (length elements) (length olds) <= fuel ->
  exists s',
    reconcileChildren v fuel wipFiber elements s = Ok (tt, s')
    /\ length (heap s') = length (heap s) + length elements
    /\ (forall i e o fo,
          elements !! i = Some e -> olds !! i = Some o -> heap s !! o = Some fo ->
          child_type e = type fo ->
          exists nf, heap s' !! (length (heap s) + i) = Some nf
            /\ effectTag nf = Some UPDATE /\ dom nf = dom fo /\ props nf = child_props e
            /\ alternate nf = Some o /\ type nf = type fo /\ parent nf = Some wipFiber)
    /\ (forall i e,
          elements !! i = Some e ->
          (olds !! i = None
           \/ exists o fo, olds !! i = Some o /\ heap s !! o = Some fo /\ child_type e <> type fo) ->
          exists nf, heap s' !! (length (heap s) + i) = Some nf
            /\ effectTag nf = Some PLACEMENT /\ dom nf = None /\ props nf = child_props e
            /\ alternate nf = None /\ type nf = child_type e /\ parent nf = Some wipFiber)
    /\ (forall i o fo,
          olds !! i = Some o -> heap s !! o = Some fo ->
          (elements !! i = None
           \/ exists e, elements !! i = Some e /\ child_type e <> type fo) ->
          o ∈ deleted_upto (heap s) elements olds (rounds elements olds)
          /\ exists fo', heap s' !! o = Some fo' /\ effectTag fo' = Some DELETION)
    /\ deletions s' = deletions s ++ deleted_upto (heap s) elements olds (rounds elements olds)
    /\ (forall w', heap s' !! wipFiber = Some w' ->
          0 < rounds elements olds ->
          sibling_chain (heap s') (child w') (seq (length (heap s)) (length elements))).
Proof.
  intros Hw Htr Hfirst Hchain Hfuel.
  destruct (reconcileChildren_runs v fuel s wipFiber elements olds first Hw Htr Hfirst Hchain Hfuel)
    as (s' & Hrun & Hheap & Hdel & _).
  exists s'. split; [exact Hrun|].
  assert (Hlk : forall j, heap s' !! j =
            heap_after (heap s) wipFiber elements olds (rounds elements olds) j).
  { intros j. rewrite Hheap. apply heap_state_lookup; [exact Hw|].
    intros p o. eapply sibling_chain_lookup; exact Hchain. }
  assert (Hnew : forall i e, elements !! i = Some e ->
            heap s' !! (length (heap s) + i) =
            Some (new_fiber_after (heap s) wipFiber elements olds (rounds elements olds) i e)).
  { intros i e He. rewrite Hlk. unfold heap_after.
    rewrite decide_False by lia.
    replace (length (heap s) + i - length (heap s)) with i by lia.
    apply lookup_lt_Some in He as Hi. unfold rounds.
    rewrite decide_True by lia. rewrite He. reflexivity. }
  split; [rewrite Hheap, heap_state_length; unfold rounds; lia|].
  split; [|split; [|split; [|split]]].
  - intros i e o fo He Ho Hfo Hty. eexists. split; [apply Hnew; exact He|].
    unfold new_fiber_after. rewrite Ho, Hfo, (bool_decide_eq_true_2 _ Hty). simpl. auto 10.
  - intros i e He Hold. eexists. split; [apply Hnew; exact He|].
    unfold new_fiber_after. destruct Hold as [Ho|(o & fo & Ho & Hfo & Hty)].
    + rewrite Ho. simpl. auto 10.
    + rewrite Ho, Hfo, (bool_decide_eq_false_2 _ Hty). simpl. auto 10.
  - intros i o fo Ho Hfo Hnew'.
    assert (Hd : deleted_at (heap s) elements olds i = Some o).
    { unfold deleted_at, same_at. rewrite Ho.
      destruct Hnew' as [He|(e & He & Hty)]; rewrite He; [reflexivity|].
      rewrite Hfo, (bool_decide_eq_false_2 _ Hty). reflexivity. }
    assert (Hin : o ∈ deleted_upto (heap s) elements olds (rounds elements olds)).
    { eapply deleted_at_upto; [exact Hd|]. apply lookup_lt_Some in Ho. unfold rounds. lia. }
    split; [exact Hin|]. eexists. split.
    + rewrite Hlk. unfold heap_after.
      rewrite decide_True by (eapply lookup_lt_Some; exact Hfo). rewrite Hfo. reflexivity.
    + apply effectTag_old_fiber_after. exact Hin.
  - exact Hdel.
  - intros w' Hw' Hpos.
    rewrite Hlk in Hw'. unfold heap_after in Hw'. rewrite decide_True in Hw' by exact Hw.
    destruct (heap s !! wipFiber) as [fw|]; [|discriminate]. simpl in Hw'.
    injection Hw' as <-.
    assert (Hc : child (old_fiber_after (heap s) wipFiber elements olds (rounds elements olds)
                          wipFiber fw)
                 = if bool_decide (0 < length elements) then Some (length (heap s)) else None).
    { unfold old_fiber_after. rewrite (bool_decide_eq_true_2 (wipFiber = wipFiber /\ _)) by auto.
      reflexivity. }
    rewrite Hc. apply new_fibers_chain. intros p Hp.
    destruct (lookup_lt_is_Some_2 elements p Hp) as [e He].
    eexists. split; [apply Hnew; exact He|].
    unfold new_fiber_after.
    assert (E : bool_decide (S p < rounds elements olds /\ S p < length elements)
                = bool_decide (S p < length elements)).
    { apply bool_decide_ext. unfold rounds. lia. }
    rewrite E.
    destruct (olds !! p) as [o|]; [|reflexivity].
    destruct (heap s !! o) as [fo|]; [|reflexivity].
    destruct (bool_decide (child_type e = type fo)); reflexivity.
Qed.

Lemma reconcile_by_position_witness :
  let s := state_of part001_second_pass_started in
  exists s', reconcileChildren VPart001 64 7 [li "1"] s = Ok (tt, s')
    /\ length (heap s') = 9
    /\ deletions s' = [3].
Proof.
  intros s.
  destruct (reconcile_by_position VPart001 64 s 7 [li "1"] [2; 3] (Some 2))
    as (s' & Hrun & Hlen & _ & _ & _ & Hdel & _).
  - vm_compute. lia.
  - repeat constructor.
  - vm_compute. reflexivity.
  - econstructor; [vm_compute; reflexivity|].
    econstructor; [vm_compute; reflexivity|]. vm_compute. constructor.
  - vm_compute. lia.
  - exists s'. split; [exact Hrun|]. split; [exact Hlen|]. exact Hdel.
Defined.

Lemma shape_kept_refl s : shape_kept s s.
Proof. split; [apply only_document_changed_refl|]. split; auto. Qed.

Lemma shape_kept_trans s1 s2 s3 : shape_kept s1 s2 -> shape_kept s2 s3 -> shape_kept s1 s3.
Proof.
  intros (A1 & B1 & C1) (A2 & B2 & C2). split; [eapply only_document_changed_trans; eassumption|].
  split; [congruence | auto].
Qed.

Lemma update_node_shape d g s :
  (forall n q, parentNode (g n) = Some q ->
     parentNode n = Some q \/ q < length (document s)) ->
  d < length (document s) ->
  exists s', update_node d g s = Ok (tt, s') /\ shape_kept s s'.
Proof.
  intros Hg Hd. unfold update_node.
  destruct (document s !! d) as [n|] eqn:Hn.
  2:{ apply lookup_ge_None in Hn. lia. }
  eexists. split; [reflexivity|]. split; [destruct s; reflexivity|].
  simpl. split; [apply length_insert|].
  intros Hwf j m q Hj Hq. rewrite length_insert.
  rewrite list_lookup_insert in Hj. destruct (decide (d = j /\ d < length (document s))) as [[-> _]|_].
  - injection Hj as <-. destruct (Hg _ _ Hq) as [Hq'|Hq']; [eapply Hwf; eassumption | exact Hq'].
  - eapply Hwf; eassumption.
Qed.

Lemma forEach_shape {A} (body : A -> M unit) (l : list A) d s :
  (forall x s, d < length (document s) ->
     exists s', body x s = Ok (tt, s') /\ shape_kept s s') ->
  d < length (document s) ->
  exists s', forEach body l s = Ok (tt, s') /\ shape_kept s s'.
Proof.
  intros Hb. revert s. induction l as [|x l IH]; intros s Hd.
  - exists s. split; [reflexivity | apply shape_kept_refl].
  - destruct (Hb x s Hd) as (s1 & H1 & K1).
    destruct (IH s1) as (s2 & H2 & K2).
    { destruct K1 as (_ & -> & _). exact Hd. }
    exists s2. split; [|eapply shape_kept_trans; eassumption].
    simpl. rewrite (bind_Ok_intro _ _ _ _ _ H1). exact H2.
Qed.

Lemma set_property_shape d name v s :
  d < length (document s) ->
  exists s', set_property d name v s = Ok (tt, s') /\ shape_kept s s'.
Proof. intros Hd. apply update_node_shape; [intros n q H; left; exact H | exact Hd]. Qed.

Lemma addEventListener_shape d ty h s :
  d < length (document s) ->
  exists s', addEventListener d ty h s = Ok (tt, s') /\ shape_kept s s'.
Proof.
  intros Hd. apply update_node_shape; [|exact Hd].
  intros n q H. left. destruct (bool_decide ((ty, h) ∈ listeners n)); exact H.
Qed.

Lemma removeEventListener_shape d ty h s :
  d < length (document s) ->
  exists s', removeEventListener d ty h s = Ok (tt, s') /\ shape_kept s s'.
Proof. intros Hd. apply update_node_shape; [intros n q H; left; exact H | exact Hd]. Qed.

Lemma part001_updateDomProperties_runs d prev next s :
  d < length (document s) ->
  exists s', Part001.updateDomProperties d prev next s = Ok (tt, s') /\ shape_kept s s'.
Proof.
  intros Hd. unfold Part001.updateDomProperties.
  edestruct (forEach_shape (fun name => set_property d name (VPrim (PStr "")))) as (s1 & H1 & K1);
    [intros x s'; apply set_property_shape | exact Hd |].
  assert (Hd1 : d < length (document s1)) by (destruct K1 as (_ & -> & _); exact Hd).
  edestruct (forEach_shape
               (fun name => removeEventListener d (event_type name) (get_prop prev name)))
    as (s2 & H2 & K2); [intros x s'; apply removeEventListener_shape | exact Hd1 |].
  assert (Hd2 : d < length (document s2)) by (destruct K2 as (_ & -> & _); exact Hd1).
  edestruct (forEach_shape (fun name => set_property d name (get_prop next name)))
    as (s3 & H3 & K3); [intros x s'; apply set_property_shape | exact Hd2 |].
  assert (Hd3 : d < length (document s3)) by (destruct K3 as (_ & -> & _); exact Hd2).
  edestruct (forEach_shape
               (fun name => addEventListener d (event_type name) (get_prop next name)))
    as (s4 & H4 & K4); [intros x s'; apply addEventListener_shape | exact Hd3 |].
  exists s4. split.
  - rewrite (bind_Ok_intro _ _ _ _ _ H1), (bind_Ok_intro _ _ _ _ _ H2),
      (bind_Ok_intro _ _ _ _ _ H3). exact H4.
  - eapply shape_kept_trans; [exact K1|]. eapply shape_kept_trans; [exact K2|].
    eapply shape_kept_trans; eassumption.
Qed.

Lemma doc_wf_snoc d n : doc_wf d -> parentNode n = None -> doc_wf (d ++ [n]).
Proof.
  intros Hwf Hn j m q Hj Hq. rewrite length_app. simpl.
  rewrite lookup_snoc_case in Hj. destruct (decide (j < length d)).
  - specialize (Hwf _ _ _ Hj Hq). lia.
  - destruct (decide (j = length d)); [|discriminate]. injection Hj as <-. congruence.
Qed.

Lemma part001_createDom_runs f p s :
  props f = Some p ->
  exists s', Part001.createDom f s = Ok (length (document s), s')
    /\ only_document_changed s s'
    /\ length (document s') = S (length (document s))
    /\ (doc_wf (document s) -> doc_wf (document s')).
Proof.
  intros Hp. unfold Part001.createDom. rewrite Hp.
  set (n := if bool_decide (type f = Some (TyStr "TEXT_ELEMENT"))
            then mkDomNode TextNode {["nodeValue" := VPrim (PStr "")]} [] None []
            else mkDomNode (ElementNode (Part001.tag_name (type f))) ∅ [] None []).
  assert (Hnew : (if bool_decide (type f = Some (TyStr "TEXT_ELEMENT"))
                  then createTextNode ""
                  else document_createElement (Part001.tag_name (type f))) s
                 = Ok (length (document s), with_document (document s ++ [n]) s)).
  { unfold n. destruct (bool_decide (type f = Some (TyStr "TEXT_ELEMENT"))); reflexivity. }
  assert (Hpn : parentNode n = None).
  { unfold n. destruct (bool_decide (type f = Some (TyStr "TEXT_ELEMENT"))); reflexivity. }
  rewrite (bind_Ok_intro _ _ _ _ _ Hnew).
  destruct (part001_updateDomProperties_runs (length (document s)) empty_props p
              (with_document (document s ++ [n]) s)) as (s' & Hrun & Hd & Hl & Hwf).
  { simpl. rewrite length_app. simpl. lia. }
  exists s'. split; [rewrite (bind_Ok_intro _ _ _ _ _ Hrun); reflexivity|].
  split; [|split].
  - unfold only_document_changed in *. rewrite Hd. destruct s; reflexivity.
  - rewrite Hl. simpl. rewrite length_app. simpl. lia.
  - intros Hw. apply Hwf. simpl. apply doc_wf_snoc; assumption.
Qed.

Lemma detach_runs c s :
  c < length (document s) -> doc_wf (document s) ->
  exists s', detach c s = Ok (tt, s') /\ shape_kept s s'.
Proof.
  intros Hc Hwf. unfold detach.
  destruct (document s !! c) as [n|] eqn:Hn.
  2:{ apply lookup_ge_None in Hn. lia. }
  assert (Hr : read_node c s = Ok (n, s)) by (unfold read_node; rewrite Hn; reflexivity).
  rewrite (bind_Ok_intro _ _ _ _ _ Hr).
  destruct (parentNode n) as [q|] eqn:Hq.
  - destruct (update_node_shape q
                (fun pn => set_childNodes (filter (fun x => x <> c) (childNodes pn)) pn) s)
      as (s1 & H1 & K1); [intros m r H; left; exact H | eapply Hwf; eassumption |].
    destruct (update_node_shape c (set_parentNode None) s1)
      as (s2 & H2 & K2); [intros m r H; discriminate H
                         | destruct K1 as (_ & -> & _); exact Hc |].
    exists s2. split; [rewrite (bind_Ok_intro _ _ _ _ _ H1); exact H2|].
    eapply shape_kept_trans; eassumption.
  - exists s. split; [reflexivity | apply shape_kept_refl].
Qed.

Lemma appendChild_runs p c s :
  p < length (document s) -> c < length (document s) -> doc_wf (document s) ->
  exists s', appendChild p c s = Ok (tt, s') /\ shape_kept s s'.
Proof.
  intros Hp Hc Hwf. unfold appendChild.
  destruct (document s !! p) as [n|] eqn:Hn.
  2:{ apply lookup_ge_None in Hn. lia. }
  assert (Hr : read_node p s = Ok (n, s)) by (unfold read_node; rewrite Hn; reflexivity).
  rewrite (bind_Ok_intro _ _ _ _ _ Hr).
  destruct (detach_runs c s Hc Hwf) as (s1 & H1 & K1).
  rewrite (bind_Ok_intro _ _ _ _ _ H1).
  assert (L1 : length (document s1) = length (document s)) by (destruct K1 as (_ & -> & _); reflexivity).
  destruct (update_node_shape p (fun pn => set_childNodes (childNodes pn ++ [c]) pn) s1)
    as (s2 & H2 & K2); [intros m r H; left; exact H | lia |].
  rewrite (bind_Ok_intro _ _ _ _ _ H2).
  assert (L2 : length (document s2) = length (document s1)) by (destruct K2 as (_ & -> & _); reflexivity).
  destruct (update_node_shape c (set_parentNode (Some p)) s2)
    as (s3 & H3 & K3); [intros m r H; right; simpl in H; injection H as <-; lia | lia |].
  exists s3. split; [exact H3|].
  eapply shape_kept_trans; [exact K1|]. eapply shape_kept_trans; eassumption.
Qed.

Lemma DTree_induction (P : DTree -> Prop) :
  (forall k a ks, Forall P ks -> P (DNode k a ks)) -> forall t, P t.
Proof.
  intros H. fix IH 1. intros [k a ks]. apply H.
  induction ks as [|t ks IHks]; constructor; [apply IH | exact IHks].
Qed.

Lemma to_child_truthy ks : Forall (fun c => truthy c = true) (map to_child ks).
Proof. apply Forall_forall. intros c Hc. apply list_elem_of_fmap in Hc as ([k a l] & -> & _). reflexivity. Qed.

Lemma child_type_to_child t : child_type (to_child t) = Some (TyStr (kind_of t)).
Proof. destruct t; reflexivity. Qed.

Lemma child_props_to_child t : child_props (to_child t) = Some (props_of t).
Proof. destruct t; reflexivity. Qed.

Lemma sibling_chain_alter h g i first olds :
  (forall f, sibling (g f) = sibling f) ->
  sibling_chain h first olds -> sibling_chain (alter g i h) first olds.
Proof.
  intros Hg. induction 1 as [|o f rest Hf Hc IH]; [constructor|].
  destruct (decide (i = o)) as [->|Hne].
  - apply chain_cons with (f := g f).
    + rewrite list_lookup_alter_eq, Hf. reflexivity.
    + rewrite Hg. exact IH.
  - apply chain_cons with (f := f).
    + rewrite list_lookup_alter_ne by exact Hne. exact Hf.
    + exact IH.
Qed.

Lemma first_old_fiber_alter g i w s first :
  (forall f, alternate (g f) = alternate f) ->
  (forall f, child (g f) = child f) ->
  first_old_fiber w s = Ok (first, s) ->
  first_old_fiber w (with_heap (alter g i (heap s)) s)
    = Ok (first, with_heap (alter g i (heap s)) s).
Proof.
  intros Ha Hc. unfold first_old_fiber. intros H.
  apply bind_Ok in H as (fw & s1 & H1 & H). apply read_fiber_Ok in H1 as [Hfw ->].
  assert (Hw' : exists fw', alter g i (heap s) !! w = Some fw' /\ alternate fw' = alternate fw).
  { rewrite list_lookup_alter. destruct (decide (i = w)) as [->|_].
    - rewrite Hfw. eexists. split; [reflexivity | apply Ha].
    - eexists. split; [exact Hfw | reflexivity]. }
  destruct Hw' as (fw' & Hfw' & Halt).
  rewrite (bind_read_fiber w _ _ fw') by exact Hfw'. rewrite Halt.
  destruct (alternate fw) as [a|]; [|injection H as <-; reflexivity].
  apply bind_Ok in H as (fa & s2 & H2 & H). apply read_fiber_Ok in H2 as [Hfa ->].
  injection H as <-.
  assert (Ha' : exists fa', alter g i (heap s) !! a = Some fa' /\ child fa' = child fa).
  { rewrite list_lookup_alter. destruct (decide (i = a)) as [->|_].
    - rewrite Hfa. eexists. split; [reflexivity | apply Hc].
    - eexists. split; [exact Hfa | reflexivity]. }
  destruct Ha' as (fa' & Hfa' & Hch).
  rewrite (bind_read_fiber a _ _ fa') by exact Hfa'. rewrite Hch. reflexivity.
Qed.

(** The unit of work of a host fiber, up to the choice of the next unit. *)
Lemma part001_updateHostComponent_runs fuel s i f p olds first :
  heap s !! i = Some f ->
  props f = Some p ->
  Forall (fun c => truthy c = true) (children p) ->
  (forall d, dom f = Some d -> d < length (document s)) ->
  first_old_fiber i s = Ok (first, s) ->
  sibling_chain (heap s) first olds ->
  rounds (children p) olds <= fuel ->
  exists s' d,
    Part001.updateHostComponent fuel i s = Ok (tt, s')
    /\ (dom f = Some d \/ dom f = None /\ d = length (document s))
    /\ d < length (document s')
    /\ (forall j, heap s' !! j =
          heap_after (alter (set_dom (Some d)) i (heap s)) i (children p) olds
            (rounds (children p) olds) j)
    /\ length (heap s') = length (heap s) + length (children p)
    /\ deletions s' =
         deletions s ++ deleted_upto (alter (set_dom (Some d)) i (heap s)) (children p) olds
                          (rounds (children p) olds)
    /\ length (document s) <= length (document s')
    /\ (dom f <> None -> document s' = document s)
    /\ (doc_wf (document s) -> doc_wf (document s'))
    /\ nextUnitOfWork s' = nextUnitOfWork s
    /\ currentRoot s' = currentRoot s
    /\ wipRoot s' = wipRoot s.
Proof.
  intros Hf Hp Htr Hdom Hfirst Hchain Hfuel.
  assert (Hi : i < length (heap s)) by (eapply lookup_lt_Some; exact Hf).
  unfold Part001.updateHostComponent.
  rewrite (bind_read_fiber i _ _ f) by exact Hf.
  assert (Hstep : exists s1 d,
    (match dom f with
     | Some _ => ret tt
     | None => d <- Part001.createDom f;; update_fiber i (set_dom (Some d))
     end) s = Ok (tt, s1)
    /\ (dom f = Some d \/ dom f = None /\ d = length (document s))
    /\ d < length (document s1)
    /\ heap s1 = alter (set_dom (Some d)) i (heap s)
    /\ length (document s) <= length (document s1)
    /\ (dom f <> None -> document s1 = document s)
    /\ (doc_wf (document s) -> doc_wf (document s1))
    /\ deletions s1 = deletions s /\ nextUnitOfWork s1 = nextUnitOfWork s
    /\ currentRoot s1 = currentRoot s /\ wipRoot s1 = wipRoot s).
  { destruct (dom f) as [d|] eqn:Hd.
    - exists s, d. split; [reflexivity|]. split; [left; reflexivity|].
      split; [apply Hdom; reflexivity|]. split.
      + apply list_eq. intros j. rewrite list_lookup_alter.
        destruct (decide (i = j)) as [<-|_]; [|reflexivity].
        rewrite Hf. simpl. f_equal. destruct f; simpl in *. subst. reflexivity.
      + repeat split; auto.
    - destruct (part001_createDom_runs f p s Hp) as (s1 & Hrun & Hdoc & Hlen & Hwf).
      eexists. exists (length (document s)). split.
      + rewrite (bind_Ok_intro _ _ _ _ _ Hrun).
        unfold update_fiber. unfold only_document_changed in Hdoc.
        replace (heap s1) with (heap s) by (rewrite Hdoc; reflexivity).
        rewrite Hf. reflexivity.
      + simpl. unfold only_document_changed in Hdoc.
        split; [right; auto|]. split; [lia|]. split.
        * replace (heap s1) with (heap s) by (rewrite Hdoc; reflexivity).
          apply insert_as_alter. exact Hf.
        * rewrite Hdoc. simpl. repeat split; auto; try lia. intros H; contradiction. }
  destruct Hstep as (s1 & d & Hrun1 & Hdcase & Hdlt & Hheap1 & Hdoclen & Hdocsame & Hwf1
                     & Hdel1 & Hn1 & Hc1 & Hw1).
  rewrite (bind_Ok_intro _ _ _ _ _ Hrun1).
  assert (Hf1 : heap s1 !! i = Some (set_dom (Some d) f)).
  { rewrite Hheap1, list_lookup_alter_eq, Hf. reflexivity. }
  rewrite (bind_read_fiber i _ _ _ Hf1). cbn [props set_dom]. rewrite Hp.
  assert (Hs1 : s1 = with_heap (alter (set_dom (Some d)) i (heap s))
                       (with_document (document s1) s)).
  { clear Hrun1. destruct s1, s; simpl in *. subst. reflexivity. }
  destruct (reconcileChildren_runs VPart001 fuel s1 i (children p) olds first) as
    (s' & Hrun & Hheap & Hdel & Hdoc & Hn & Hc & Hw).
  - rewrite Hheap1, length_alter. exact Hi.
  - exact Htr.
  - rewrite Hs1.
    apply (first_old_fiber_alter (set_dom (Some d)) i i (with_document (document s1) s) first);
      [reflexivity | reflexivity |].
    unfold first_old_fiber in *.
    apply bind_Ok in Hfirst as (fw & sx & H1 & H). apply read_fiber_Ok in H1 as [Hfw ->].
    rewrite (bind_read_fiber i _ _ fw) by exact Hfw.
    destruct (alternate fw) as [a|]; [|injection H as <-; reflexivity].
    apply bind_Ok in H as (fa & s2 & H2 & H). apply read_fiber_Ok in H2 as [Hfa ->].
    injection H as <-.
    rewrite (bind_read_fiber a _ _ fa) by exact Hfa. reflexivity.
  - rewrite Hheap1. apply sibling_chain_alter; [reflexivity | exact Hchain].
  - exact Hfuel.
  - exists s', d. split; [exact Hrun|]. split; [exact Hdcase|].
    split; [rewrite Hdoc; exact Hdlt|].
    assert (Hlk : forall j, heap s' !! j =
              heap_after (alter (set_dom (Some d)) i (heap s)) i (children p) olds
                (rounds (children p) olds) j).
    { intros j. rewrite Hheap, Hheap1. apply heap_state_lookup.
      - rewrite length_alter. exact Hi.
      - intros q o Hq. eapply sibling_chain_lookup; [|exact Hq].
        apply sibling_chain_alter; [reflexivity | exact Hchain]. }
    split; [exact Hlk|].
    split.
    { rewrite Hheap, heap_state_length;
        [rewrite Hheap1, length_alter; unfold rounds; lia
        | rewrite Hheap1, length_alter; exact Hi]. }
    split; [rewrite Hdel, Hdel1, Hheap1; reflexivity|].
    rewrite Hdoc, Hn, Hc, Hw. repeat split; auto.
Qed.

Lemma forest_at_frame h h' ok lo p o ts ids :
  forest_at h ok lo p o ts ids ->
  (forall j, lo <= j -> j < length h -> h' !! j = h !! j) ->
  forest_at h' ok lo p o ts ids.
Proof.
  intros H Hfr. induction H; [constructor|].
  econstructor; eauto. rewrite Hfr; [assumption | assumption | eapply lookup_lt_Some; eassumption].
Qed.

Lemma forest_at_weaken h ok ok' lo lo' p o ts ids :
  forest_at h ok lo p o ts ids ->
  lo' <= lo -> (forall f, ok f -> ok' f) ->
  forest_at h ok' lo' p o ts ids.
Proof.
  intros H Hlo Hok. induction H; [constructor|].
  econstructor; eauto. lia.
Qed.

Lemma forest_at_ids h ok lo p o ts ids :
  forest_at h ok lo p o ts ids ->
  Forall (fun x => lo <= x < length h) ids /\ length ids = sum_list (map nodes ts).
Proof.
  induction 1 as [|p i f t rest ik ir Hlo Hf _ _ _ _ _ [IH1 L1] _ [IH2 L2]]; [split; [constructor|reflexivity]|].
  split.
  - constructor; [split; [exact Hlo | eapply lookup_lt_Some; exact Hf]|].
    apply Forall_app. split; assumption.
  - simpl. rewrite length_app, L1, L2. destruct t; reflexivity.
Qed.

Lemma links_kept_refl h : links_kept h h.
Proof. intros j f H. eauto. Qed.

Lemma links_kept_trans h1 h2 h3 : links_kept h1 h2 -> links_kept h2 h3 -> links_kept h1 h3.
Proof.
  intros H1 H2 j f Hj. destruct (H1 _ _ Hj) as (f' & Hj' & S1 & P1).
  destruct (H2 _ _ Hj') as (f'' & Hj'' & S2 & P2). exists f''. repeat split; congruence.
Qed.

Lemma sibling_climb_links_kept n h h' x r :
  links_kept h h' -> sibling_climb n h x = Ok r -> sibling_climb n h' x = Ok r.
Proof.
  intros Hk. revert x. induction n as [|n IH]; intros [i|]; simpl; try (intros H; exact H).
  destruct (h !! i) as [f|] eqn:Hf; [|discriminate].
  destruct (Hk _ _ Hf) as (f' & -> & -> & ->).
  destruct (sibling f); [auto|]. apply IH.
Qed.

Lemma sibling_climb_mono n m h x r :
  n <= m -> sibling_climb n h x = Ok r -> sibling_climb m h x = Ok r.
Proof.
  revert m x. induction n as [|n IH]; intros m [i|] Hle; simpl.
  - discriminate.
  - destruct m; intros H; exact H.
  - destruct m as [|m]; [lia|]. simpl.
    destruct (h !! i) as [f|]; [|discriminate].
    destruct (sibling f); [auto|]. apply IH. lia.
  - destruct m; intros H; exact H.
Qed.

Lemma run_units_add cc fuel a b u s :
  run_units cc fuel (a + b) u s =
  (next <- run_units cc fuel a u ;; run_units cc fuel b next) s.
Proof.
  revert u s. induction a as [|a IH]; intros u s; simpl.
  - reflexivity.
  - destruct u as [i|].
    + rewrite bind_assoc. unfold bind at 1 3.
      destruct (Part001.performUnitOfWork cc fuel i s) as [[next s1]| | |]; try reflexivity.
      rewrite bind_assoc, !bind_modify. apply IH.
    + rewrite bind_ret. destruct b; reflexivity.
Qed.

Lemma deleted_upto_none h els olds n :
  (forall p, deleted_at h els olds p = None) -> deleted_upto h els olds n = [].
Proof.
  intros H. induction n as [|n IH]; [reflexivity|].
  rewrite deleted_upto_S, IH, H. reflexivity.
Qed.

Lemma part001_unit_without_predecessor cc fuel s i f a ks r n :
  heap s !! i = Some f ->
  (forall c, type f <> Some (TyFun c)) ->
  props f = Some (mkProps a (map to_child ks)) ->
  alternate f = None ->
  child f = None ->
  (forall d, dom f = Some d -> d < length (document s)) ->
  sibling_climb n (heap s) (Some i) = Ok r ->
  n <= fuel -> length ks <= fuel ->
  exists s' d,
    Part001.performUnitOfWork cc fuel i s =
      Ok (if bool_decide (0 < length ks) then Some (length (heap s)) else r, s')
    /\ (dom f = Some d \/ dom f = None /\ d = length (document s))
    /\ d < length (document s')
    /\ length (heap s') = length (heap s) + length ks
    /\ (forall j, j < length (heap s) -> j <> i -> heap s' !! j = heap s !! j)
    /\ heap s' !! i =
         Some (set_child (if bool_decide (0 < length ks) then Some (length (heap s)) else None)
                 (set_dom (Some d) f))
    /\ (forall q t, ks !! q = Some t ->
          heap s' !! (length (heap s) + q) =
            Some (fresh_fiber t i
                    (if bool_decide (S q < length ks) then Some (length (heap s) + S q)
                     else None)))
    /\ length (document s) <= length (document s')
    /\ (dom f <> None -> document s' = document s)
    /\ (doc_wf (document s) -> doc_wf (document s'))
    /\ deletions s' = deletions s
    /\ nextUnitOfWork s' = nextUnitOfWork s
    /\ currentRoot s' = currentRoot s
    /\ wipRoot s' = wipRoot s.
Proof.
  intros Hf Hty Hp Halt Hch Hdom Hclimb Hn Hfuel.
  assert (Hi : i < length (heap s)) by (eapply lookup_lt_Some; exact Hf).
  destruct (part001_updateHostComponent_runs fuel s i f (mkProps a (map to_child ks)) [] None)
    as (s' & d & Hrun & Hdc & Hdlt & Hlk & Hlen & Hdel & Hdl & Hds & Hwf & Hnx & Hcr & Hwr);
    try assumption.
  { apply to_child_truthy. }
  { unfold first_old_fiber. rewrite (bind_read_fiber i _ _ f) by exact Hf. rewrite Halt.
    reflexivity. }
  { constructor. }
  { unfold rounds. simpl. rewrite length_map. lia. }
  simpl children in *. rewrite length_map in Hlen.
  set (h1 := alter (set_dom (Some d)) i (heap s)) in *.
  set (els := map to_child ks) in *.
  assert (Hrounds : rounds els [] = length ks).
  { unfold rounds, els. rewrite length_map. simpl. lia. }
  assert (Hnodel : forall m, deleted_upto h1 els [] m = []).
  { intros m. apply deleted_upto_none. intros p. reflexivity. }
  assert (Hlen1 : length h1 = length (heap s)) by (unfold h1; apply length_alter).
  assert (Hold : forall j g, j < length (heap s) -> h1 !! j = Some g ->
            heap s' !! j = Some (if bool_decide (j = i /\ 0 < length ks)
                                 then set_child (Some (length (heap s))) g else g)).
  { intros j g Hj Hg. rewrite Hlk. unfold heap_after. rewrite decide_True by lia.
    rewrite Hg. simpl. f_equal. unfold old_fiber_after. rewrite Hnodel, Hrounds.
    rewrite (bool_decide_eq_false_2 (j ∈ [])) by apply not_elem_of_nil.
    destruct (bool_decide (j = i /\ 0 < length ks)) eqn:E; [|reflexivity].
    apply bool_decide_eq_true in E as [_ E]. unfold first_child.
    rewrite bool_decide_eq_true_2 by (unfold els; rewrite length_map; exact E).
    rewrite Hlen1. reflexivity. }
  exists s', d.
  assert (Hfi : heap s' !! i =
            Some (set_child (if bool_decide (0 < length ks) then Some (length (heap s)) else None)
                    (set_dom (Some d) f))).
  { rewrite (Hold i (set_dom (Some d) f) Hi)
      by (unfold h1; rewrite list_lookup_alter_eq, Hf; reflexivity).
    f_equal. destruct (decide (0 < length ks)) as [Hpos|Hpos].
    - rewrite !bool_decide_eq_true_2 by auto. reflexivity.
    - rewrite !bool_decide_eq_false_2 by tauto.
      destruct f; simpl in *. subst. reflexivity. }
  assert (Hframe : forall j, j < length (heap s) -> j <> i -> heap s' !! j = heap s !! j).
  { intros j Hj Hne. destruct (lookup_lt_is_Some_2 _ _ Hj) as [g Hg].
    rewrite (Hold j g Hj) by (unfold h1; rewrite list_lookup_alter_ne by congruence; exact Hg).
    rewrite bool_decide_eq_false_2 by tauto. symmetry. exact Hg. }
  split.
  { unfold Part001.performUnitOfWork.
    rewrite (bind_read_fiber i _ _ f) by exact Hf.
    assert (Hu : (match type f with
                  | Some (TyFun c) => Part001.updateFunctionComponent cc fuel i c
                  | _ => Part001.updateHostComponent fuel i
                  end) s = Ok (tt, s')).
    { destruct (type f) as [[x|c]|]; try exact Hrun. exfalso. eapply Hty. reflexivity. }
    rewrite (bind_Ok_intro _ _ _ _ _ Hu).
    unfold next_unit. rewrite (bind_read_fiber i _ _ _ Hfi).
    cbn [child set_child].
    destruct (decide (0 < length ks)) as [Hpos|Hpos].
    - rewrite !bool_decide_eq_true_2 by exact Hpos. reflexivity.
    - rewrite !bool_decide_eq_false_2 by exact Hpos.
      assert (Hc : sibling_climb fuel (heap s') (Some i) = Ok r).
      { apply (sibling_climb_mono n); [exact Hn|].
        apply (sibling_climb_links_kept n (heap s)); [|exact Hclimb].
        intros j g Hg. destruct (decide (j = i)) as [->|Hne].
        - rewrite Hfi. eexists. split; [reflexivity|].
          rewrite Hf in Hg. injection Hg as <-. split; reflexivity.
        - rewrite Hframe; [eauto | eapply lookup_lt_Some; exact Hg | exact Hne]. }
      rewrite Hc. reflexivity. }
  split; [exact Hdc|]. split; [exact Hdlt|]. split; [exact Hlen|].
  split; [exact Hframe|]. split; [exact Hfi|].
  split.
  { intros q t Hq. rewrite Hlk. unfold heap_after. rewrite decide_False by lia.
    rewrite Hlen1. replace (length (heap s) + q - length (heap s)) with q by lia.
    apply lookup_lt_Some in Hq as Hql.
    rewrite Hrounds. rewrite decide_True by lia.
    unfold els. rewrite list_lookup_fmap, Hq. simpl. f_equal.
    unfold new_fiber_after. simpl. rewrite length_map, Hlen1.
    assert (E : bool_decide (S q < length ks /\ S q < length ks)
                = bool_decide (S q < length ks)).
    { apply bool_decide_ext. lia. }
    rewrite E. unfold fresh_fiber. rewrite child_type_to_child, child_props_to_child.
    reflexivity. }
  rewrite Hdel, Hnodel, app_nil_r. repeat split; assumption.
Qed.

Lemma tags_kept_refl h : tags_kept h h.
Proof. intros j g H. eauto 10. Qed.

Lemma tags_kept_trans h1 h2 h3 : tags_kept h1 h2 -> tags_kept h2 h3 -> tags_kept h1 h3.
Proof.
  intros H1 H2 j g Hj. destruct (H1 _ _ Hj) as (g' & Hj' & A1 & B1 & C1 & D1).
  destruct (H2 _ _ Hj') as (g'' & Hj'' & A2 & B2 & C2 & D2).
  exists g''. repeat split; congruence.
Qed.

Lemma tags_kept_links h h' : tags_kept h h' -> links_kept h h'.
Proof. intros H j g Hj. destruct (H _ _ Hj) as (g' & ? & ? & ? & _). eauto. Qed.

Lemma tags_kept_length h h' : tags_kept h h' -> length h <= length h'.
Proof.
  intros H. destruct (decide (length h <= length h')) as [|Hn]; [assumption|].
  exfalso. destruct (lookup_lt_is_Some_2 h (length h')) as [g Hg]; [lia|].
  destruct (H _ _ Hg) as (g' & Hg' & _). apply lookup_lt_Some in Hg'. lia.
Qed.

Lemma pass_step_refl s : pass_step s s.
Proof. split; [apply tags_kept_refl|]. repeat split; auto. Qed.

Lemma pass_step_trans s1 s2 s3 : pass_step s1 s2 -> pass_step s2 s3 -> pass_step s1 s3.
Proof.
  intros (A1 & B1 & C1 & D1 & F1 & G1) (A2 & B2 & C2 & D2 & F2 & G2).
  split; [eapply tags_kept_trans; eassumption|].
  repeat split; try congruence; [lia | auto].
Qed.

Lemma only_inserted_trans s1 s2 s3 :
  only_inserted s1 s2 -> only_inserted s2 s3 -> tags_kept (heap s2) (heap s3) ->
  length (heap s1) <= length (heap s2) ->
  only_inserted s1 s3.
Proof.
  intros H1 H2 Hk Hle j Hj1 Hj3.
  destruct (decide (j < length (heap s2))) as [Hlt|Hge].
  - destruct (H1 j Hj1 Hlt) as (g & Hg & Ht & Ha).
    destruct (Hk _ _ Hg) as (g' & Hg' & _ & _ & Ht' & Ha').
    exists g'. repeat split; congruence.
  - apply H2; lia.
Qed.

Lemma nodes_pos t : 1 <= nodes t.
Proof. destruct t; simpl; lia. Qed.

Lemma sum_nodes_ge_length ts : length ts <= sum_list (map nodes ts).
Proof.
  induction ts as [|t ts IH]; simpl; [lia|]. pose proof (nodes_pos t). lia.
Qed.

Lemma inserted_ok_mono n m f : n <= m -> inserted_ok n f -> inserted_ok m f.
Proof. intros Hle (A & B & d & C & D). repeat split; auto. exists d. split; [auto | lia]. Qed.

Lemma forest_inserts_from_trees cc ts :
  Forall (tree_inserts cc) ts -> forest_inserts cc ts.
Proof.
  induction 1 as [|t ts Ht _ IH]; intros fuel s c p r n Hne Hroots Hpc Hclimb Hfuel;
    [contradiction|].
  pose proof (Hroots 0 t eq_refl) as Hc. rewrite Nat.add_0_r in Hc.
  assert (Hclen : c < length (heap s)) by (eapply lookup_lt_Some; exact Hc).
  set (sib := if bool_decide (1 < length (t :: ts)) then Some (c + 1) else None) in *.
  set (rc := match sib with Some x => Some x | None => r end).
  assert (Hcc : sibling_climb (S n) (heap s) (Some c) = Ok rc).
  { simpl. rewrite Hc. unfold rc. simpl sibling. destruct sib; [reflexivity|exact Hclimb]. }
  simpl in Hfuel.
  destruct (Ht fuel s c p sib rc (S n) Hc Hcc ltac:(lia))
    as (s1 & Hrun1 & Hstep1 & Hins1 & Hlen1 & Hfr1 & d & ch & idk & Hfc & Hd & Hfk & Hndk).
  pose proof (forest_at_ids _ _ _ _ _ _ _ Hfk) as [Hbk _].
  destruct ts as [|t2 ts'].
  - (* the last sibling *)
    exists s1. simpl. rewrite Nat.add_0_r.
    assert (Hrc : rc = r) by reflexivity.
    split; [rewrite Hrun1, Hrc; reflexivity|].
    split; [exact Hstep1|]. split; [exact Hins1|].
    split; [rewrite Hlen1; lia|].
    split; [intros j Hj Hn; apply Hfr1; [exact Hj | lia]|].
    exists (c :: idk ++ []). split; [|split].
    + econstructor.
      * apply Nat.le_refl.
      * exact Hfc.
      * reflexivity.
      * reflexivity.
      * reflexivity.
      * repeat split. exists d. split; [reflexivity | exact Hd].
      * eapply forest_at_weaken; [exact Hfk | lia | auto].
      * constructor.
    + rewrite app_nil_r. constructor; [|exact Hndk].
      intros Hin. rewrite Forall_forall in Hbk. apply Hbk in Hin. lia.
    + rewrite app_nil_r. constructor; [left; simpl; lia|].
      eapply Forall_impl; [exact Hbk|]. simpl. intros x Hx. right. lia.
  - (* more siblings follow *)
    assert (Hrc : rc = Some (c + 1)) by reflexivity.
    destruct Hstep1 as (Hk1 & Hdl1 & Hwf1 & Hde1 & Hcr1 & Hwr1).
    assert (Hroots' : forall q t', (t2 :: ts') !! q = Some t' ->
              heap s1 !! (c + 1 + q) =
                Some (fresh_fiber t' p
                        (if bool_decide (S q < length (t2 :: ts')) then Some (c + 1 + S q)
                         else None))).
    { intros q t' Hq. pose proof (Hroots (S q) t' Hq) as Hr.
      replace (c + 1 + q) with (c + S q) by lia.
      rewrite Hfr1; [|eapply lookup_lt_Some; exact Hr | lia].
      rewrite Hr. f_equal. f_equal.
      assert (E : bool_decide (S (S q) < length (t :: t2 :: ts'))
                  = bool_decide (S q < length (t2 :: ts'))) by (apply bool_decide_ext; simpl; lia).
      rewrite E. replace (c + 1 + S q) with (c + S (S q)) by lia. reflexivity. }
    assert (Hclimb1 : sibling_climb n (heap s1) (Some p) = Ok r).
    { eapply sibling_climb_links_kept; [apply tags_kept_links; exact Hk1 | exact Hclimb]. }
    destruct (IH fuel s1 (c + 1) p r n ltac:(discriminate) Hroots' ltac:(lia) Hclimb1 ltac:(lia))
      as (s2 & Hrun2 & Hstep2 & Hins2 & Hlen2 & Hfr2 & idr & Hfr & Hndr & Hbr).
    pose proof (sum_nodes_ge_length (t2 :: ts')) as Hsum.
    pose proof (nodes_pos t) as Hpos.
    assert (Hlast : c + S (length (t2 :: ts')) <= length (heap s)).
    { destruct (lookup_lt_is_Some_2 (t :: t2 :: ts') (length (t2 :: ts'))) as [tl Htl];
        [simpl; lia|].
      pose proof (Hroots _ _ Htl) as Hr. apply lookup_lt_Some in Hr. lia. }
    exists s2.
    split.
    { change (sum_list (map nodes (t :: t2 :: ts')))
        with (nodes t + sum_list (map nodes (t2 :: ts'))).
      rewrite run_units_add, (bind_Ok_intro _ _ _ _ _ Hrun1), Hrc. exact Hrun2. }
    split; [eapply pass_step_trans; [|exact Hstep2]; repeat split; assumption|].
    split.
    { eapply only_inserted_trans; [exact Hins1 | exact Hins2 | apply Hstep2 |].
      apply tags_kept_length. exact Hk1. }
    split.
    { rewrite Hlen2, Hlen1.
      change (sum_list (map nodes (t :: t2 :: ts')))
        with (nodes t + sum_list (map nodes (t2 :: ts'))).
      simpl length in *. lia. }
    split.
    { intros j Hj Hn. rewrite Hfr2; [apply Hfr1; [exact Hj | simpl in Hn; lia] | |].
      - apply tags_kept_length in Hk1. lia.
      - simpl in *. lia. }
    assert (Hle12 : length (document s1) <= length (document s2)) by apply Hstep2.
    exists (c :: idk ++ idr). split; [|split].
    + econstructor.
      * apply Nat.le_refl.
      * rewrite Hfr2; [exact Hfc | apply tags_kept_length in Hk1; lia | lia].
      * reflexivity.
      * reflexivity.
      * reflexivity.
      * repeat split. exists d. split; [reflexivity | lia].
      * simpl child. eapply forest_at_weaken with (lo := length (heap s));
          [|lia|intros f; apply inserted_ok_mono; exact Hle12].
        eapply forest_at_frame; [exact Hfk|].
        intros j Hj1 Hj2. apply Hfr2; [exact Hj2 | simpl in *; lia].
      * simpl sibling. fold sib. replace sib with (Some (c + 1)) by reflexivity.
        eapply forest_at_weaken; [exact Hfr | lia | auto].
    + constructor.
      * intros Hin. apply elem_of_app in Hin as [Hin|Hin].
        -- rewrite Forall_forall in Hbk. apply Hbk in Hin. lia.
        -- rewrite Forall_forall in Hbr. apply Hbr in Hin.
           apply tags_kept_length in Hk1. lia.
      * apply NoDup_app. split; [exact Hndk|]. split; [|exact Hndr].
        intros x Hx1 Hx2. rewrite Forall_forall in Hbk, Hbr.
        apply Hbk in Hx1. apply Hbr in Hx2. simpl in *. lia.
    + constructor; [left; simpl; lia|]. apply Forall_app. split.
      * eapply Forall_impl; [exact Hbk|]. simpl. intros x Hx. right. lia.
      * eapply Forall_impl; [exact Hbr|]. simpl. intros x Hx.
        apply tags_kept_length in Hk1. simpl in *. lia.
Qed.

Lemma tree_inserts_all cc t : tree_inserts cc t.
Proof.
  induction t as [k a ks IHks] using DTree_induction.
  apply forest_inserts_from_trees in IHks.
  intros fuel s i p sib r n Hf Hclimb Hfuel.
  set (t := DNode k a ks) in *.
  assert (Hi : i < length (heap s)) by (eapply lookup_lt_Some; exact Hf).
  pose proof (sum_nodes_ge_length ks) as Hsum.
  assert (Hnodes : nodes t = S (sum_list (map nodes ks))) by reflexivity.
  destruct (part001_unit_without_predecessor cc fuel s i (fresh_fiber t p sib) a ks r n)
    as (s0 & d & Hrun1 & _ & Hd & Hlen1 & Hfr1 & Hfi & Hnew & Hdl & _ & Hwf & Hde & _ & Hcr & Hwr);
    try reflexivity; try assumption; try lia.
  { intros c. discriminate. }
  { intros d0 H0. discriminate H0. }
  set (next := if bool_decide (0 < length ks) then Some (length (heap s)) else r) in *.
  set (s1 := with_nextUnitOfWork next s0).
  change (heap s0) with (heap s1) in *. change (document s0) with (document s1) in *.
  change (deletions s0) with (deletions s1) in *.
  change (currentRoot s0) with (currentRoot s1) in *. change (wipRoot s0) with (wipRoot s1) in *.
  assert (Hk1 : tags_kept (heap s) (heap s1)).
  { intros j g Hg. destruct (decide (j = i)) as [->|Hne].
    - rewrite Hfi. eexists. split; [reflexivity|].
      rewrite Hf in Hg. injection Hg as <-. repeat split; reflexivity.
    - rewrite Hfr1; [eauto 10 | eapply lookup_lt_Some; exact Hg | exact Hne]. }
  assert (Hstep1 : pass_step s s1) by (repeat split; assumption).
  assert (Hins1 : only_inserted s s1).
  { intros j Hj1 Hj2. rewrite Hlen1 in Hj2.
    destruct (lookup_lt_is_Some_2 ks (j - length (heap s))) as [t' Ht']; [lia|].
    pose proof (Hnew _ _ Ht') as Hn'.
    replace (length (heap s) + (j - length (heap s))) with j in Hn' by lia.
    eexists. split; [exact Hn'|]. split; reflexivity. }
  assert (Hunit : run_units cc fuel (nodes t) (Some i) s
                  = run_units cc fuel (sum_list (map nodes ks)) next s1).
  { rewrite Hnodes. cbn [run_units]. rewrite (bind_Ok_intro _ _ _ _ _ Hrun1), bind_modify.
    reflexivity. }
  destruct ks as [|t1 ks'] eqn:Eks.
  - exists s1. rewrite Hunit. simpl in *.
    split; [reflexivity|]. split; [exact Hstep1|]. split; [exact Hins1|].
    split; [lia|]. split; [exact Hfr1|].
    exists d, None, []. split; [exact Hfi|]. split; [exact Hd|].
    split; [constructor | constructor].
  - rewrite <- Eks in *.
    assert (Hpos : 0 < length ks) by (rewrite Eks; simpl; lia).
    unfold next in *.
    rewrite bool_decide_eq_true_2 in Hunit by (simpl; lia).
    rewrite bool_decide_eq_true_2 in Hfi by exact Hpos.
    destruct (IHks fuel s1 (length (heap s)) i r n)
      as (s2 & Hrun2 & Hstep2 & Hins2 & Hlen2 & Hfr2 & ids & Hfo & Hnd & Hb).
    + rewrite Eks. discriminate.
    + exact Hnew.
    + exact Hi.
    + eapply sibling_climb_links_kept; [apply tags_kept_links; exact Hk1 | exact Hclimb].
    + lia.
    + exists s2. split; [rewrite Hunit; exact Hrun2|].
      split; [eapply pass_step_trans; eassumption|].
      split.
      { eapply only_inserted_trans; [exact Hins1 | exact Hins2 | apply Hstep2 | lia]. }
      split; [rewrite Hlen2, Hlen1, Hnodes; lia|].
      split.
      { intros j Hj Hne. rewrite Hfr2; [apply Hfr1; assumption | lia | lia]. }
      exists d, (Some (length (heap s))), ids.
      split; [rewrite Hfr2; [exact Hfi | lia | lia]|].
      split; [destruct Hstep2 as (_ & Hle & _); lia|].
      split; [rewrite Eks in Hfo; exact Hfo | exact Hnd].
Qed.

Lemma run_units_next cc fuel m u s r s' :
  run_units cc fuel m u s = Ok (r, s') -> nextUnitOfWork s = u -> nextUnitOfWork s' = r.
Proof.
  revert u s. induction m as [|m IH]; intros u s; simpl.
  - intros H Hu. injection H as <- <-. exact Hu.
  - destruct u as [i|].
    + unfold bind at 1.
      destruct (Part001.performUnitOfWork cc fuel i s) as [[next s1]| | |]; try discriminate.
      rewrite bind_modify. intros H _. eapply IH; [exact H | reflexivity].
    + intros H Hu. injection H as <- <-. exact Hu.
Qed.

Lemma run_units_done cc fuel m m' u s s' :
  run_units cc fuel m u s = Ok (None, s') -> m <= m' ->
  run_units cc fuel m' u s = Ok (None, s').
Proof.
  revert m' u s. induction m as [|m IH]; intros m' u s; simpl.
  - intros H _. injection H as -> <-. destruct m'; reflexivity.
  - destruct u as [i|].
    + intros H Hle. destruct m' as [|m']; [lia|]. simpl.
      unfold bind at 1 in H. unfold bind at 1.
      destruct (Part001.performUnitOfWork cc fuel i s) as [[next s1]| | |]; try discriminate.
      rewrite bind_modify in *. apply IH; [exact H | lia].
    + intros H _. injection H as <-. destruct m'; reflexivity.
Qed.

Lemma perform_units_run_units cc fuel deadline s :
  Part001.perform_units cc fuel deadline s =
  (run_units cc fuel (S deadline) (nextUnitOfWork s) ;;; ret tt) s.
Proof.
  revert s. induction deadline as [|d IH]; intros s.
  - simpl. unfold bind, get_state. destruct (nextUnitOfWork s) as [u|]; [|reflexivity].
    destruct (Part001.performUnitOfWork cc fuel u s) as [[next s1]| | |]; reflexivity.
  - cbn [Part001.perform_units]. change (run_units cc fuel (S (S d)) (nextUnitOfWork s))
      with (match nextUnitOfWork s with
            | None => ret None
            | Some i => next <- Part001.performUnitOfWork cc fuel i ;;
                        modify (with_nextUnitOfWork next) ;;; run_units cc fuel (S d) next
            end).
    unfold bind at 1. cbn [get_state].
    destruct (nextUnitOfWork s) as [u|]; [|reflexivity].
    unfold bind at 1 3 4.
    destruct (Part001.performUnitOfWork cc fuel u s) as [[next s1]| | |]; try reflexivity.
    rewrite !bind_modify. rewrite IH. reflexivity.
Qed.

(** The first render pass: [render] on a state without committed root,
    followed by the units of work. *)
Lemma part001_first_pass cc D container s fuel deadline :
  currentRoot s = None ->
  container < length (document s) ->
  nodes D + 2 <= fuel ->
  nodes D <= deadline ->
  exists s' ids,
    (Part001.render (to_child D) container ;;; Part001.perform_units cc fuel deadline) s
      = Ok (tt, s')
    /\ nextUnitOfWork s' = None
    /\ wipRoot s' = Some (length (heap s))
    /\ currentRoot s' = None
    /\ deletions s' = []
    /\ length (heap s') = length (heap s) + 1 + nodes D
    /\ (forall j, j < length (heap s) -> heap s' !! j = heap s !! j)
    /\ (forall j, length (heap s) < j -> j < length (heap s') ->
          exists g, heap s' !! j = Some g /\ effectTag g = Some PLACEMENT /\ alternate g = None)
    /\ heap s' !! length (heap s) =
         Some (root_fiber D container None (Some (S (length (heap s)))))
    /\ forest_at (heap s') (inserted_ok (length (document s'))) (S (length (heap s)))
         (length (heap s)) (Some (S (length (heap s)))) [D] ids
    /\ NoDup ids
    /\ length (document s) <= length (document s')
    /\ (doc_wf (document s) -> doc_wf (document s')).
Proof.
  intros Hcr Hc Hfuel Hdl.
  set (root := mkFiber None (Some (mkProps [] [to_child D])) (Some container)
                 None None None None None).
  set (n0 := length (heap s)).
  set (sr := mkState (heap s ++ [root]) (document s) (Some n0) None (Some n0) []).
  assert (Hrender : Part001.render (to_child D) container s = Ok (tt, sr)).
  { unfold Part001.render, bind, get_state, new_fiber, modify. simpl. rewrite Hcr. reflexivity. }
  assert (Hroot : heap sr !! n0 = Some root).
  { simpl. rewrite lookup_app_r by (unfold n0; lia).
    replace (n0 - length (heap s)) with 0 by (unfold n0; lia). reflexivity. }
  destruct (part001_unit_without_predecessor cc fuel sr n0 root [] [D] None 1)
    as (s0 & d & Hrun1 & Hdd & Hd & Hlen1 & Hfr1 & Hfi & Hnew & Hdl1 & _ & Hwf & Hde & _ & Hcr1 & Hwr1);
    try reflexivity; try assumption.
  { intros c. discriminate. }
  { intros d0 H0. injection H0 as <-. exact Hc. }
  { simpl. rewrite lookup_app_r by (unfold n0; lia).
    replace (n0 - length (heap s)) with 0 by (unfold n0; lia). reflexivity. }
  { lia. }
  { simpl. pose proof (nodes_pos D). lia. }
  destruct Hdd as [Hdd | [Hdd _]]; [|discriminate Hdd]. injection Hdd as <-.
  rewrite bool_decide_eq_true_2 in Hrun1, Hfi by (simpl; lia).
  set (s1 := with_nextUnitOfWork (Some (length (heap sr))) s0).
  assert (Hlsr : length (heap sr) = S n0) by (simpl; rewrite length_app; simpl; unfold n0; lia).
  destruct (forest_inserts_from_trees cc [D]
              (Forall_cons_2 _ _ _ (tree_inserts_all cc D) (Forall_nil_2 _))
              fuel s1 (S n0) n0 None 1)
    as (s2 & Hrun2 & Hstep2 & Hins2 & Hlen2 & Hfr2 & ids & Hfo & Hnd & Hb).
  { discriminate. }
  { intros q t Hq. destruct q as [|q]; [|destruct q; discriminate Hq].
    injection Hq as <-. specialize (Hnew 0 D eq_refl).
    rewrite Hlsr in Hnew. simpl in Hnew. rewrite Nat.add_0_r in *. exact Hnew. }
  { lia. }
  { change (heap s1) with (heap s0). simpl. rewrite Hfi. reflexivity. }
  { simpl. lia. }
  assert (Hroot2 : heap s2 !! n0 = Some (set_child (Some (S n0)) root)).
  { rewrite Hfr2; [change (heap s1) with (heap s0); rewrite Hfi, Hlsr; reflexivity
                  | change (heap s1) with (heap s0); lia | simpl; lia]. }
  exists (with_nextUnitOfWork None s2), ids.
  assert (Hall : run_units cc fuel (S deadline) (Some n0) sr = Ok (None, s2)).
  { apply (run_units_done cc fuel (1 + sum_list (map nodes [D]))); [|simpl; lia].
    rewrite run_units_add.
    assert (H1 : run_units cc fuel 1 (Some n0) sr = Ok (Some (S n0), s1)).
    { cbn [run_units]. rewrite (bind_Ok_intro _ _ _ _ _ Hrun1), bind_modify.
      unfold s1. rewrite Hlsr. reflexivity. }
    rewrite (bind_Ok_intro _ _ _ _ _ H1). exact Hrun2. }
  pose proof (run_units_next _ _ _ _ _ _ _ Hall eq_refl) as Hnext.
  destruct Hstep2 as (Hk2 & Hdl2 & Hwf2 & Hde2 & Hcr2 & Hwr2).
  change (heap s1) with (heap s0) in *. change (deletions s1) with (deletions s0) in *.
  change (wipRoot s1) with (wipRoot s0) in *.
  split.
  { rewrite (bind_Ok_intro _ _ _ _ _ Hrender). rewrite perform_units_run_units.
    cbn [nextUnitOfWork sr]. rewrite (bind_Ok_intro _ _ _ _ _ Hall).
    destruct s2; simpl in *; subst; reflexivity. }
  simpl.
  split; [reflexivity|].
  split; [rewrite Hwr2, Hwr1; reflexivity|].
  split; [rewrite Hcr2; exact Hcr1|].
  split; [rewrite Hde2, Hde; reflexivity|].
  assert (Hsize : length (heap s2) = n0 + 1 + nodes D).
  { rewrite Hlen2, Hlen1, Hlsr. cbn [map sum_list length]. unfold id. pose proof (nodes_pos D). lia. }
  assert (Hsize0 : length (heap s0) = S (S n0)) by (rewrite Hlen1, Hlsr; simpl; lia).
  split; [exact Hsize|].
  split.
  { intros j Hj. fold n0 in Hj. rewrite Hfr2 by (simpl; lia). rewrite Hfr1 by lia.
    simpl. apply lookup_app_l. exact Hj. }
  split.
  { intros j Hj1 Hj2. fold n0 in Hj1. destruct (decide (j < length (heap s0))) as [Hlt|Hge].
    - assert (j = S n0) as -> by lia.
      destruct (Hk2 (S n0) (fresh_fiber D n0 None)) as (g & Hg & _ & _ & Hg1 & Hg2).
      { specialize (Hnew 0 D eq_refl). rewrite Hlsr, Nat.add_0_r in Hnew. exact Hnew. }
      exists g. repeat split; assumption.
    - apply Hins2; [change (heap s1) with (heap s0); lia | exact Hj2]. }
  split; [exact Hroot2|].
  split; [exact Hfo|]. split; [exact Hnd|].
  split; [change (document s1) with (document s0) in Hdl2; simpl in Hdl1; lia|].
  intros Hw. apply Hwf2. apply Hwf. exact Hw.
Qed.



Lemma to_child_ul_tree labels : to_child (ul_tree labels) = ul (map li labels).
Proof.
  unfold ul_tree, ul, Part001.createElement. simpl. f_equal.
  induction labels as [|l ls IH]; [reflexivity|]. simpl. rewrite IH. reflexivity.
Qed.


Lemma old_forest_frame h h' m dl first ts :
  old_forest h m dl first ts ->
  (forall j, j < m -> h' !! j = h !! j) ->
  old_forest h' m dl first ts.
Proof.
  intros H Hfr. induction H; [constructor|].
  econstructor; eauto. rewrite Hfr; assumption.
Qed.

Lemma old_forest_mono h m dl dl' first ts :
  old_forest h m dl first ts -> dl <= dl' -> old_forest h m dl' first ts.
Proof.
  intros H Hle. induction H; [constructor|].
  econstructor; eauto. lia.
Qed.

Lemma forest_at_old h ok lo p c ts ids m dl :
  forest_at h ok lo p c ts ids ->
  length h <= m ->
  (forall f, ok f -> exists d, dom f = Some d /\ d < dl) ->
  old_forest h m dl c ts.
Proof.
  intros H Hm Hok. induction H as [|p i f t rest ik ir Hlo Hf Hty Hpr Hpa Hokf _ IH1 _ IH2];
    [constructor|].
  destruct (Hok _ Hokf) as (d & Hd & Hdl).
  econstructor; eauto. apply lookup_lt_Some in Hf. lia.
Qed.

(** The chain of old child fibers behind a committed forest. *)
Lemma old_forest_chain h m dl first ts :
  old_forest h m dl first ts ->
  exists olds, sibling_chain h first olds /\ length olds = length ts
    /\ forall q t, ts !! q = Some t ->
         exists oq g dq, olds !! q = Some oq /\ oq < m /\ h !! oq = Some g
           /\ type g = Some (TyStr (kind_of t)) /\ props g = Some (props_of t)
           /\ dom g = Some dq /\ dq < dl
           /\ old_forest h m dl (child g) (kids_of t).
Proof.
  induction 1 as [|o fo t rest d Ho Hf Hty Hpr Hd Hdl Hk _ Hr (olds & Hc & Hl & Hq)].
  - exists []. split; [constructor|]. split; [reflexivity|]. intros q t Hq. discriminate Hq.
  - exists (o :: olds). split; [econstructor; eassumption|]. split; [simpl; lia|].
    intros [|q] t' Hq'.
    + injection Hq' as <-. exists o, fo, d. repeat split; assumption.
    + destruct (Hq q t' Hq') as (oq & g & dq & H1 & H2). exists oq, g, dq.
      split; [exact H1 | exact H2].
Qed.

(** A unit of work on a host fiber whose predecessor's children match the
    new children in number and type. *)
Lemma part001_unit_with_predecessor cc fuel s i f a ks r n o fo d m :
  heap s !! i = Some f ->
  (forall c, type f <> Some (TyFun c)) ->
  props f = Some (mkProps a (map to_child ks)) ->
  alternate f = Some o ->
  heap s !! o = Some fo ->
  old_forest (heap s) m (length (document s)) (child fo) ks ->
  child f = None ->
  dom f = Some d -> d < length (document s) ->
  sibling_climb n (heap s) (Some i) = Ok r ->
  n <= fuel -> length ks <= fuel ->
  exists s',
    Part001.performUnitOfWork cc fuel i s =
      Ok (if bool_decide (0 < length ks) then Some (length (heap s)) else r, s')
    /\ length (heap s') = length (heap s) + length ks
    /\ (forall j, j < length (heap s) -> j <> i -> heap s' !! j = heap s !! j)
    /\ heap s' !! i =
         Some (set_child (if bool_decide (0 < length ks) then Some (length (heap s)) else None) f)
    /\ (forall q t, ks !! q = Some t ->
          exists oq g dq,
            heap s' !! (length (heap s) + q) =
              Some (kept_fiber t i
                      (if bool_decide (S q < length ks) then Some (length (heap s) + S q)
                       else None) oq dq)
            /\ oq < m /\ heap s !! oq = Some g /\ props g = Some (props_of t)
            /\ dom g = Some dq /\ dq < length (document s)
            /\ old_forest (heap s) m (length (document s)) (child g) (kids_of t))
    /\ document s' = document s
    /\ deletions s' = deletions s
    /\ nextUnitOfWork s' = nextUnitOfWork s
    /\ currentRoot s' = currentRoot s
    /\ wipRoot s' = wipRoot s.
Proof.
  intros Hf Hty Hp Halt Hfo Hold Hch Hdom Hd Hclimb Hn Hfuel.
  assert (Hi : i < length (heap s)) by (eapply lookup_lt_Some; exact Hf).
  destruct (old_forest_chain _ _ _ _ _ Hold) as (olds & Hchain & Holen & Hq).
  destruct (part001_updateHostComponent_runs fuel s i f (mkProps a (map to_child ks)) olds
              (child fo))
    as (s' & d' & Hrun & Hdc & Hdlt & Hlk & Hlen & Hdel & Hdl & Hds & Hwf & Hnx & Hcr & Hwr);
    try assumption.
  { apply to_child_truthy. }
  { intros d0 H0. rewrite Hdom in H0. injection H0 as <-. exact Hd. }
  { unfold first_old_fiber. rewrite (bind_read_fiber i _ _ f) by exact Hf. rewrite Halt.
    rewrite (bind_read_fiber o _ _ fo) by exact Hfo. reflexivity. }
  { unfold rounds. simpl. rewrite length_map. lia. }
  destruct Hdc as [Hdc | [Hdc _]]; [|congruence].
  rewrite Hdom in Hdc. injection Hdc as <-.
  simpl children in *. rewrite length_map in Hlen.
  set (h1 := alter (set_dom (Some d)) i (heap s)) in *.
  set (els := map to_child ks) in *.
  assert (Hh1 : forall j, h1 !! j = heap s !! j).
  { intros j. unfold h1. rewrite list_lookup_alter. destruct (decide (i = j)) as [->|_]; [|reflexivity].
    rewrite Hf. simpl. f_equal. destruct f; simpl in *. subst. reflexivity. }
  assert (Hrounds : rounds els olds = length ks).
  { unfold rounds, els. rewrite length_map. lia. }
  assert (Hsame : forall p, deleted_at h1 els olds p = None).
  { intros p. unfold deleted_at. destruct (olds !! p) as [op|] eqn:Hop; [|reflexivity].
    assert (Hpl : p < length ks) by (apply lookup_lt_Some in Hop; lia).
    destruct (lookup_lt_is_Some_2 _ _ Hpl) as [t Ht].
    destruct (Hq p t Ht) as (oq & g & dq & H1 & _ & H3 & H4 & _).
    rewrite Hop in H1. injection H1 as <-.
    unfold same_at, els. rewrite list_lookup_fmap, Ht, Hop. simpl. rewrite Hh1, H3.
    rewrite child_type_to_child, H4. rewrite bool_decide_eq_true_2 by reflexivity. reflexivity. }
  assert (Hnodel : forall k, deleted_upto h1 els olds k = []).
  { intros k. apply deleted_upto_none. exact Hsame. }
  assert (Hlen1 : length h1 = length (heap s)) by (unfold h1; apply length_alter).
  assert (Holdf : forall j g, j < length (heap s) -> heap s !! j = Some g ->
            heap s' !! j = Some (if bool_decide (j = i /\ 0 < length ks)
                                 then set_child (Some (length (heap s))) g else g)).
  { intros j g Hj Hg. rewrite Hlk. unfold heap_after. rewrite decide_True by lia.
    rewrite Hh1, Hg. simpl. f_equal. unfold old_fiber_after. rewrite Hnodel, Hrounds.
    rewrite (bool_decide_eq_false_2 (j ∈ [])) by apply not_elem_of_nil.
    destruct (bool_decide (j = i /\ 0 < length ks)) eqn:E; [|reflexivity].
    apply bool_decide_eq_true in E as [_ E]. unfold first_child.
    rewrite bool_decide_eq_true_2 by (unfold els; rewrite length_map; exact E).
    rewrite Hlen1. reflexivity. }
  exists s'.
  assert (Hfi : heap s' !! i =
            Some (set_child (if bool_decide (0 < length ks) then Some (length (heap s)) else None)
                    f)).
  { rewrite (Holdf i f Hi Hf).
    f_equal. destruct (decide (0 < length ks)) as [Hpos|Hpos].
    - rewrite !bool_decide_eq_true_2 by auto. reflexivity.
    - rewrite !bool_decide_eq_false_2 by tauto.
      destruct f; simpl in *. subst. reflexivity. }
  assert (Hframe : forall j, j < length (heap s) -> j <> i -> heap s' !! j = heap s !! j).
  { intros j Hj Hne. destruct (lookup_lt_is_Some_2 _ _ Hj) as [g Hg].
    rewrite (Holdf j g Hj Hg).
    rewrite bool_decide_eq_false_2 by tauto. symmetry. exact Hg. }
  split.
  { unfold Part001.performUnitOfWork.
    rewrite (bind_read_fiber i _ _ f) by exact Hf.
    assert (Hu : (match type f with
                  | Some (TyFun c) => Part001.updateFunctionComponent cc fuel i c
                  | _ => Part001.updateHostComponent fuel i
                  end) s = Ok (tt, s')).
    { destruct (type f) as [[x|c]|]; try exact Hrun. exfalso. eapply Hty. reflexivity. }
    rewrite (bind_Ok_intro _ _ _ _ _ Hu).
    unfold next_unit. rewrite (bind_read_fiber i _ _ _ Hfi).
    cbn [child set_child].
    destruct (decide (0 < length ks)) as [Hpos|Hpos].
    - rewrite !bool_decide_eq_true_2 by exact Hpos. reflexivity.
    - rewrite !bool_decide_eq_false_2 by exact Hpos.
      assert (Hc : sibling_climb fuel (heap s') (Some i) = Ok r).
      { apply (sibling_climb_mono n); [exact Hn|].
        apply (sibling_climb_links_kept n (heap s)); [|exact Hclimb].
        intros j g Hg. destruct (decide (j = i)) as [->|Hne].
        - rewrite Hfi. eexists. split; [reflexivity|].
          rewrite Hf in Hg. injection Hg as <-. split; reflexivity.
        - rewrite Hframe; [eauto | eapply lookup_lt_Some; exact Hg | exact Hne]. }
      rewrite Hc. reflexivity. }
  split; [exact Hlen|]. split; [exact Hframe|]. split; [exact Hfi|].
  split.
  { intros q t Ht. destruct (Hq q t Ht) as (oq & g & dq & H1 & H2 & H3 & H4 & H5 & H6 & H7 & H8).
    exists oq, g, dq. split; [|repeat split; assumption].
    rewrite Hlk. unfold heap_after. rewrite decide_False by lia.
    rewrite Hlen1. replace (length (heap s) + q - length (heap s)) with q by lia.
    apply lookup_lt_Some in Ht as Hql.
    rewrite Hrounds. rewrite decide_True by lia.
    unfold els. rewrite list_lookup_fmap, Ht. simpl. f_equal.
    unfold new_fiber_after. rewrite H1, Hh1, H3. simpl. rewrite length_map, Hlen1.
    assert (E : bool_decide (S q < length ks /\ S q < length ks)
                = bool_decide (S q < length ks)).
    { apply bool_decide_ext. lia. }
    rewrite E. rewrite child_type_to_child, child_props_to_child, H4.
    rewrite bool_decide_eq_true_2 by reflexivity.
    unfold kept_fiber. rewrite H6. reflexivity. }
  split; [apply Hds; congruence|].
  rewrite Hdel, Hnodel, app_nil_r. repeat split; assumption.
Qed.

Lemma updated_ok_frame h h' m dl f :
  (forall j, j < m -> h' !! j = h !! j) -> updated_ok h m dl f -> updated_ok h' m dl f.
Proof.
  intros Hfr (Ht & o & fo & d & H1 & H2 & H3 & H4).
  split; [exact Ht|]. exists o, fo, d. split; [exact H1|]. split; [exact H2|].
  split; [rewrite Hfr; assumption | exact H4].
Qed.

Lemma only_updated_trans s1 s2 s3 :
  only_updated s1 s2 -> only_updated s2 s3 -> tags_kept (heap s2) (heap s3) ->
  length (heap s1) <= length (heap s2) ->
  only_updated s1 s3.
Proof.
  intros H12 H23 Hk Hle j Hj1 Hj3.
  destruct (decide (j < length (heap s2))) as [Hlt|Hge].
  - destruct (H12 j Hj1 Hlt) as (g & Hg & Hu).
    destruct (Hk _ _ Hg) as (g' & Hg' & _ & _ & He & _).
    exists g'. split; [exact Hg' | congruence].
  - apply H23; [lia | exact Hj3].
Qed.

Lemma forest_updates_from_trees cc ts :
  Forall (tree_updates cc) ts -> forest_updates cc ts.
Proof.
  induction 1 as [|t ts Ht _ IH]; intros fuel s c p r n m Hne Hroots Hpc Hmc Hclimb Hfuel;
    [contradiction|].
  destruct (Hroots 0 t eq_refl) as (o0 & g0 & d0 & Hc & Ho0 & Hg0 & Hp0 & Hd0 & Hdl0 & Hold0).
  rewrite Nat.add_0_r in Hc.
  assert (Hclen : c < length (heap s)) by (eapply lookup_lt_Some; exact Hc).
  set (sib := if bool_decide (1 < length (t :: ts)) then Some (c + 1) else None) in *.
  set (rc := match sib with Some x => Some x | None => r end).
  assert (Hcc : sibling_climb (S n) (heap s) (Some c) = Ok rc).
  { simpl. rewrite Hc. unfold rc. simpl sibling. destruct sib; [reflexivity|exact Hclimb]. }
  simpl in Hfuel.
  destruct (Ht fuel s c p sib rc (S n) o0 d0 m g0 Hc Hmc Hg0 Hold0 Hdl0 Hcc ltac:(lia))
    as (s1 & Hrun1 & Hstep1 & Hdoc1 & Hup1 & Hlen1 & Hfr1 & ch & idk & Hfc & Hfk & Hndk).
  pose proof (forest_at_ids _ _ _ _ _ _ _ Hfk) as [Hbk _].
  assert (Hold1 : forall j, j < m -> heap s1 !! j = heap s !! j).
  { intros j Hj. apply Hfr1; lia. }
  assert (Hokc : updated_ok (heap s1) m (length (document s))
                   (set_child ch (kept_fiber t p sib o0 d0))).
  { split; [reflexivity|]. exists o0, g0, d0. split; [reflexivity|]. split; [exact Ho0|].
    split; [rewrite Hold1; assumption|]. split; [exact Hp0|]. split; [exact Hd0|].
    split; [reflexivity | exact Hdl0]. }
  destruct ts as [|t2 ts'].
  - (* the last sibling *)
    exists s1. simpl. rewrite Nat.add_0_r.
    assert (Hrc : rc = r) by reflexivity.
    split; [rewrite Hrun1, Hrc; reflexivity|].
    split; [exact Hstep1|]. split; [exact Hdoc1|]. split; [exact Hup1|].
    split; [rewrite Hlen1; lia|].
    split; [intros j Hj Hn; apply Hfr1; [exact Hj | lia]|].
    exists (c :: idk ++ []). split; [|split].
    + econstructor.
      * apply Nat.le_refl.
      * exact Hfc.
      * reflexivity.
      * reflexivity.
      * reflexivity.
      * exact Hokc.
      * eapply forest_at_weaken; [exact Hfk | lia | auto].
      * constructor.
    + rewrite app_nil_r. constructor; [|exact Hndk].
      intros Hin. rewrite Forall_forall in Hbk. apply Hbk in Hin. lia.
    + rewrite app_nil_r. constructor; [left; simpl; lia|].
      eapply Forall_impl; [exact Hbk|]. simpl. intros x Hx. right. lia.
  - (* more siblings follow *)
    assert (Hrc : rc = Some (c + 1)) by reflexivity.
    destruct Hstep1 as (Hk1 & Hdl1 & Hwf1 & Hde1 & Hcr1 & Hwr1).
    assert (Hroots' : forall q t', (t2 :: ts') !! q = Some t' ->
              exists oq g dq,
                heap s1 !! (c + 1 + q) =
                  Some (kept_fiber t' p
                          (if bool_decide (S q < length (t2 :: ts')) then Some (c + 1 + S q)
                           else None) oq dq)
                /\ oq < m /\ heap s1 !! oq = Some g /\ props g = Some (props_of t')
                /\ dom g = Some dq /\ dq < length (document s1)
                /\ old_forest (heap s1) m (length (document s1)) (child g) (kids_of t')).
    { intros q t' Hq. destruct (Hroots (S q) t' Hq) as (oq & g & dq & Hr & A & B & C & D & E & F).
      exists oq, g, dq.
      replace (c + 1 + q) with (c + S q) by lia.
      split.
      { rewrite Hfr1; [|eapply lookup_lt_Some; exact Hr | lia].
        rewrite Hr. f_equal. f_equal.
        assert (E' : bool_decide (S (S q) < length (t :: t2 :: ts'))
                    = bool_decide (S q < length (t2 :: ts'))) by (apply bool_decide_ext; simpl; lia).
        rewrite E'. replace (c + 1 + S q) with (c + S (S q)) by lia. reflexivity. }
      rewrite Hdoc1. split; [exact A|]. split; [rewrite Hold1; assumption|].
      split; [exact C|]. split; [exact D|]. split; [exact E|].
      eapply old_forest_frame; [exact F | exact Hold1]. }
    assert (Hclimb1 : sibling_climb n (heap s1) (Some p) = Ok r).
    { eapply sibling_climb_links_kept; [apply tags_kept_links; exact Hk1 | exact Hclimb]. }
    destruct (IH fuel s1 (c + 1) p r n m ltac:(discriminate) Hroots' ltac:(lia) ltac:(lia)
                Hclimb1 ltac:(lia))
      as (s2 & Hrun2 & Hstep2 & Hdoc2 & Hup2 & Hlen2 & Hfr2 & idr & Hfr & Hndr & Hbr).
    pose proof (sum_nodes_ge_length (t2 :: ts')) as Hsum.
    pose proof (nodes_pos t) as Hpos.
    assert (Hlast : c + S (length (t2 :: ts')) <= length (heap s)).
    { destruct (lookup_lt_is_Some_2 (t :: t2 :: ts') (length (t2 :: ts'))) as [tl Htl];
        [simpl; lia|].
      destruct (Hroots _ _ Htl) as (? & ? & ? & Hr & _). apply lookup_lt_Some in Hr. lia. }
    assert (Hold2 : forall j, j < m -> heap s2 !! j = heap s1 !! j).
    { intros j Hj. apply Hfr2; [apply tags_kept_length in Hk1; lia | lia]. }
    rewrite Hdoc1 in Hfr.
    exists s2.
    split.
    { change (sum_list (map nodes (t :: t2 :: ts')))
        with (nodes t + sum_list (map nodes (t2 :: ts'))).
      rewrite run_units_add, (bind_Ok_intro _ _ _ _ _ Hrun1), Hrc. exact Hrun2. }
    split; [eapply pass_step_trans; [|exact Hstep2]; repeat split; assumption|].
    split; [congruence|].
    split.
    { eapply only_updated_trans; [exact Hup1 | exact Hup2 | apply Hstep2 |].
      apply tags_kept_length. exact Hk1. }
    split.
    { rewrite Hlen2, Hlen1.
      change (sum_list (map nodes (t :: t2 :: ts')))
        with (nodes t + sum_list (map nodes (t2 :: ts'))).
      simpl length in *. lia. }
    split.
    { intros j Hj Hn. rewrite Hfr2; [apply Hfr1; [exact Hj | simpl in Hn; lia] | |].
      - apply tags_kept_length in Hk1. lia.
      - simpl in *. lia. }
    exists (c :: idk ++ idr). split; [|split].
    + econstructor.
      * apply Nat.le_refl.
      * rewrite Hfr2; [exact Hfc | apply tags_kept_length in Hk1; lia | lia].
      * reflexivity.
      * reflexivity.
      * reflexivity.
      * eapply updated_ok_frame; [exact Hold2 | exact Hokc].
      * simpl child. eapply forest_at_weaken with (lo := length (heap s));
          [|lia|intros f; apply updated_ok_frame; exact Hold2].
        eapply forest_at_frame; [exact Hfk|].
        intros j Hj1 Hj2. apply Hfr2; [exact Hj2 | simpl in *; lia].
      * simpl sibling. fold sib. replace sib with (Some (c + 1)) by reflexivity.
        eapply forest_at_weaken; [exact Hfr | lia | auto].
    + constructor.
      * intros Hin. apply elem_of_app in Hin as [Hin|Hin].
        -- rewrite Forall_forall in Hbk. apply Hbk in Hin. lia.
        -- rewrite Forall_forall in Hbr. apply Hbr in Hin.
           apply tags_kept_length in Hk1. lia.
      * apply NoDup_app. split; [exact Hndk|]. split; [|exact Hndr].
        intros x Hx1 Hx2. rewrite Forall_forall in Hbk, Hbr.
        apply Hbk in Hx1. apply Hbr in Hx2. simpl in *. lia.
    + constructor; [left; simpl; lia|]. apply Forall_app. split.
      * eapply Forall_impl; [exact Hbk|]. simpl. intros x Hx. right. lia.
      * eapply Forall_impl; [exact Hbr|]. simpl. intros x Hx.
        apply tags_kept_length in Hk1. simpl in *. lia.
Qed.

Lemma tree_updates_all cc t : tree_updates cc t.
Proof.
  induction t as [k a ks IHks] using DTree_induction.
  apply forest_updates_from_trees in IHks.
  intros fuel s i p sib r n o d m fo Hf Hmi Hfo Hold Hd Hclimb Hfuel.
  set (t := DNode k a ks) in *.
  assert (Hi : i < length (heap s)) by (eapply lookup_lt_Some; exact Hf).
  pose proof (sum_nodes_ge_length ks) as Hsum.
  assert (Hnodes : nodes t = S (sum_list (map nodes ks))) by reflexivity.
  destruct (part001_unit_with_predecessor cc fuel s i (kept_fiber t p sib o d) a ks r n o fo d m)
    as (s0 & Hrun1 & Hlen1 & Hfr1 & Hfi & Hnew & Hdoc & Hde & _ & Hcr & Hwr);
    try reflexivity; try assumption; try lia.
  { intros c. discriminate. }
  set (next := if bool_decide (0 < length ks) then Some (length (heap s)) else r) in *.
  set (s1 := with_nextUnitOfWork next s0).
  change (heap s0) with (heap s1) in *. change (document s0) with (document s1) in *.
  change (deletions s0) with (deletions s1) in *.
  change (currentRoot s0) with (currentRoot s1) in *. change (wipRoot s0) with (wipRoot s1) in *.
  assert (Hk1 : tags_kept (heap s) (heap s1)).
  { intros j g Hg. destruct (decide (j = i)) as [->|Hne].
    - rewrite Hfi. eexists. split; [reflexivity|].
      rewrite Hf in Hg. injection Hg as <-. repeat split; reflexivity.
    - rewrite Hfr1; [eauto 10 | eapply lookup_lt_Some; exact Hg | exact Hne]. }
  assert (Hstep1 : pass_step s s1).
  { split; [exact Hk1|]. rewrite Hdoc. repeat split; auto. }
  assert (Hup1 : only_updated s s1).
  { intros j Hj1 Hj2. rewrite Hlen1 in Hj2.
    destruct (lookup_lt_is_Some_2 ks (j - length (heap s))) as [t' Ht']; [lia|].
    destruct (Hnew _ _ Ht') as (oq & g & dq & Hn' & _).
    replace (length (heap s) + (j - length (heap s))) with j in Hn' by lia.
    eexists. split; [exact Hn'|]. reflexivity. }
  assert (Hunit : run_units cc fuel (nodes t) (Some i) s
                  = run_units cc fuel (sum_list (map nodes ks)) next s1).
  { rewrite Hnodes. cbn [run_units]. rewrite (bind_Ok_intro _ _ _ _ _ Hrun1), bind_modify.
    reflexivity. }
  assert (Hold1 : forall j, j < m -> heap s1 !! j = heap s !! j).
  { intros j Hj. apply Hfr1; lia. }
  destruct ks as [|t1 ks'] eqn:Eks.
  - exists s1. rewrite Hunit. simpl in *.
    split; [reflexivity|]. split; [exact Hstep1|]. split; [exact Hdoc|]. split; [exact Hup1|].
    split; [lia|]. split; [exact Hfr1|].
    exists None, []. split; [exact Hfi|].
    split; [constructor | constructor].
  - rewrite <- Eks in *.
    assert (Hpos : 0 < length ks) by (rewrite Eks; simpl; lia).
    unfold next in *.
    rewrite bool_decide_eq_true_2 in Hunit by (simpl; lia).
    rewrite bool_decide_eq_true_2 in Hfi by exact Hpos.
    destruct (IHks fuel s1 (length (heap s)) i r n m)
      as (s2 & Hrun2 & Hstep2 & Hdoc2 & Hup2 & Hlen2 & Hfr2 & ids & Hfo2 & Hnd & Hb).
    + rewrite Eks. discriminate.
    + intros q t' Hq. destruct (Hnew q t' Hq) as (oq & g & dq & A & B & C & D & E & F & G).
      exists oq, g, dq. split; [exact A|]. split; [exact B|].
      split; [rewrite Hold1; assumption|]. split; [exact D|]. split; [exact E|].
      rewrite Hdoc. split; [exact F|]. eapply old_forest_frame; [exact G | exact Hold1].
    + exact Hi.
    + lia.
    + eapply sibling_climb_links_kept; [apply tags_kept_links; exact Hk1 | exact Hclimb].
    + lia.
    + exists s2. split; [rewrite Hunit; exact Hrun2|].
      split; [eapply pass_step_trans; eassumption|].
      split; [congruence|].
      split.
      { eapply only_updated_trans; [exact Hup1 | exact Hup2 | apply Hstep2 | lia]. }
      split; [rewrite Hlen2, Hlen1, Hnodes; lia|].
      split.
      { intros j Hj Hne. rewrite Hfr2; [apply Hfr1; assumption | lia | lia]. }
      exists (Some (length (heap s))), ids.
      split; [rewrite Hfr2; [exact Hfi | lia | lia]|].
      split; [rewrite Eks in Hfo2; rewrite Hdoc in Hfo2; exact Hfo2 | exact Hnd].
Qed.

(** ** Committing *)

Lemma filter_none {A} (P : A -> bool) (l : list A) :
  (forall x, x ∈ l -> P x = false) -> filter (fun k => P k) l = [].
Proof.
  induction l as [|x l IH]; intros H; [reflexivity|].
  rewrite filter_cons. destruct (decide (P x)) as [Hd|Hd].
  - rewrite H in Hd by left. contradiction.
  - apply IH. intros y Hy. apply H. right. exact Hy.
Qed.

Lemma has_prop_keys p k : k ∈ keys p -> has_prop p k = true.
Proof.
  unfold keys, has_prop. induction (attrs p) as [|[k' v] l IH]; simpl.
  - intros H. inversion H.
  - intros H. destruct (String.eqb k' k) eqn:E; [reflexivity|].
    apply IH. apply elem_of_cons in H as [->|H]; [|exact H].
    rewrite String.eqb_refl in E. discriminate.
Qed.

Lemma isNew_same p k : Part001.isNew p p k = false.
Proof. unfold Part001.isNew, strict_ne. rewrite bool_decide_eq_true_2 by reflexivity. reflexivity. Qed.

(** Updating a node from a props object to the same props object does
    nothing. *)
Lemma part001_updateDomProperties_same d p s :
  Part001.updateDomProperties d p p s = Ok (tt, s).
Proof.
  unfold Part001.updateDomProperties.
  rewrite (filter_none (fun k => Part001.isGone p p k)).
  2:{ intros k Hk. apply list_elem_of_filter in Hk as [_ Hk].
      unfold Part001.isGone. rewrite has_prop_keys by exact Hk. reflexivity. }
  rewrite (filter_none (fun k => negb (has_prop p k) || Part001.isNew p p k)).
  2:{ intros k Hk. apply list_elem_of_filter in Hk as [_ Hk].
      rewrite has_prop_keys by exact Hk. rewrite isNew_same. reflexivity. }
  rewrite !(filter_none (fun k => Part001.isNew p p k)) by (intros; apply isNew_same).
  reflexivity.
Qed.

Lemma shape_kept_heap s s' : shape_kept s s' -> heap s' = heap s.
Proof. intros [H _]. rewrite H. reflexivity. Qed.

Lemma find_dom_parent_direct fuel p pf dp s :
  heap s !! p = Some pf -> dom pf = Some dp ->
  find_dom_parent fuel (Some p) s = Ok (Some pf, s).
Proof.
  intros Hp Hd. unfold find_dom_parent. destruct fuel; simpl; rewrite Hp, Hd; reflexivity.
Qed.

(** Committing a forest of insert fibers appends their nodes. *)
Lemma part001_commitWork_inserted h dl lo p c ts ids :
  forest_at h (inserted_ok dl) lo p c ts ids ->
  forall fuel s pf dp,
    heap s = h -> length (document s) = dl -> doc_wf (document s) ->
    h !! p = Some pf -> dom pf = Some dp -> dp < dl ->
    sum_list (map nodes ts) <= fuel ->
    exists s', Part001.commitWork fuel c s = Ok (tt, s') /\ shape_kept s s'.
Proof.
  induction 1 as [|p i f t rest ik ir Hlo Hf Hty Hpr Hpa Hok _ IH1 _ IH2];
    intros fuel s pf dp Hh Hdl Hwf Hp Hdp Hdpl Hfuel.
  - exists s. split; [destruct fuel; reflexivity | apply shape_kept_refl].
  - destruct Hok as (Htag & Halt & d & Hd & Hdlt).
    pose proof (nodes_pos t) as Hpos.
    assert (Hnt : nodes t = S (sum_list (map nodes (kids_of t)))) by (destruct t; reflexivity).
    change (sum_list (map nodes (t :: rest)))
      with (nodes t + sum_list (map nodes rest)) in Hfuel.
    destruct fuel as [|fuel]; [lia|].
    cbn [Part001.commitWork].
    rewrite (bind_read_fiber i _ _ f) by (rewrite Hh; exact Hf).
    rewrite Hpa.
    rewrite (bind_Ok_intro _ _ _ _ _
               (find_dom_parent_direct (S fuel) p pf dp s ltac:(rewrite Hh; exact Hp) Hdp)).
    rewrite Hdp, Htag, Hd.
    destruct (appendChild_runs dp d s ltac:(lia) ltac:(lia) Hwf) as (s1 & Ha & Hk1).
    rewrite (bind_Ok_intro _ _ _ _ _ Ha).
    pose proof (shape_kept_heap _ _ Hk1) as Hh1.
    rewrite (bind_read_fiber i _ _ f) by (rewrite Hh1, Hh; exact Hf).
    destruct (IH1 fuel s1 f d) as (s2 & Hc1 & Hk2);
      [congruence | destruct Hk1 as (_ & -> & _); exact Hdl | apply Hk1; exact Hwf
       | exact Hf | exact Hd | exact Hdlt | lia |].
    rewrite (bind_Ok_intro _ _ _ _ _ Hc1).
    pose proof (shape_kept_heap _ _ Hk2) as Hh2.
    rewrite (bind_read_fiber i _ _ f) by (rewrite Hh2, Hh1, Hh; exact Hf).
    pose proof (shape_kept_trans _ _ _ Hk1 Hk2) as Hk12.
    destruct (IH2 fuel s2 pf dp) as (s3 & Hc2 & Hk3);
      [congruence | destruct Hk12 as (_ & -> & _); exact Hdl | apply Hk12; exact Hwf
       | exact Hp | exact Hdp | exact Hdpl | lia |].
    exists s3. split; [exact Hc2 | eapply shape_kept_trans; eassumption].
Qed.

(** Committing a forest of update fibers whose properties did not change
    does nothing. *)
Lemma part001_commitWork_updated h m dl lo p c ts ids :
  forest_at h (updated_ok h m dl) lo p c ts ids ->
  forall fuel s pf dp,
    heap s = h ->
    h !! p = Some pf -> dom pf = Some dp ->
    sum_list (map nodes ts) <= fuel ->
    Part001.commitWork fuel c s = Ok (tt, s).
Proof.
  induction 1 as [|p i f t rest ik ir Hlo Hf Hty Hpr Hpa Hok _ IH1 _ IH2];
    intros fuel s pf dp Hh Hp Hdp Hfuel.
  - destruct fuel; reflexivity.
  - destruct Hok as (Htag & o & fo & d & Halt & Ho & Hfo & Hprops & Hdo & Hd & Hdlt).
    pose proof (nodes_pos t) as Hpos.
    assert (Hnt : nodes t = S (sum_list (map nodes (kids_of t)))) by (destruct t; reflexivity).
    change (sum_list (map nodes (t :: rest)))
      with (nodes t + sum_list (map nodes rest)) in Hfuel.
    destruct fuel as [|fuel]; [lia|].
    cbn [Part001.commitWork].
    rewrite (bind_read_fiber i _ _ f) by (rewrite Hh; exact Hf).
    rewrite Hpa.
    rewrite (bind_Ok_intro _ _ _ _ _
               (find_dom_parent_direct (S fuel) p pf dp s ltac:(rewrite Hh; exact Hp) Hdp)).
    rewrite Hdp, Htag, Hd, Halt.
    rewrite bind_assoc.
    rewrite bind_assoc.
    rewrite (bind_read_fiber o _ _ fo) by (rewrite Hh; exact Hfo).
    rewrite Hprops, Hpr. rewrite bind_ret.
    rewrite (bind_Ok_intro _ _ _ _ _ (part001_updateDomProperties_same d (props_of t) s)).
    rewrite (bind_read_fiber i _ _ f) by (rewrite Hh; exact Hf).
    rewrite (bind_Ok_intro _ _ _ _ _ (IH1 fuel s f d Hh Hf Hd ltac:(lia))).
    rewrite (bind_read_fiber i _ _ f) by (rewrite Hh; exact Hf).
    apply (IH2 fuel s pf dp Hh Hp Hdp). lia.
Qed.

(** A render pass over a committed tree that represents the same
    description: [render], then the units of work. *)
Lemma part001_update_pass cc D container s fuel deadline o fo :
  currentRoot s = Some o ->
  heap s !! o = Some fo ->
  old_forest (heap s) (length (heap s)) (length (document s)) (child fo) [D] ->
  container < length (document s) ->
  nodes D + 2 <= fuel ->
  nodes D <= deadline ->
  exists s' ids,
    (Part001.render (to_child D) container ;;; Part001.perform_units cc fuel deadline) s
      = Ok (tt, s')
    /\ nextUnitOfWork s' = None
    /\ wipRoot s' = Some (length (heap s))
    /\ currentRoot s' = Some o
    /\ deletions s' = []
    /\ document s' = document s
    /\ length (heap s') = length (heap s) + 1 + nodes D
    /\ (forall j, j < length (heap s) -> heap s' !! j = heap s !! j)
    /\ (forall j, length (heap s) < j -> j < length (heap s') ->
          exists g, heap s' !! j = Some g /\ effectTag g = Some UPDATE)
    /\ heap s' !! length (heap s) =
         Some (root_fiber D container (Some o) (Some (S (length (heap s)))))
    /\ forest_at (heap s') (updated_ok (heap s') (length (heap s)) (length (document s)))
         (S (length (heap s))) (length (heap s)) (Some (S (length (heap s)))) [D] ids
    /\ NoDup ids.
Proof.
  intros Hcr Hfo Hold Hc Hfuel Hdl.
  set (root := root_fiber D container (Some o) None).
  set (n0 := length (heap s)) in *.
  set (sr := mkState (heap s ++ [root]) (document s) (Some n0) (Some o) (Some n0) []).
  assert (Hrender : Part001.render (to_child D) container s = Ok (tt, sr)).
  { unfold Part001.render, bind, get_state, new_fiber, modify. simpl. rewrite Hcr. reflexivity. }
  assert (Hroot : heap sr !! n0 = Some root).
  { simpl. rewrite lookup_app_r by (unfold n0; lia).
    replace (n0 - length (heap s)) with 0 by (unfold n0; lia). reflexivity. }
  assert (Ho : o < n0) by (eapply lookup_lt_Some; exact Hfo).
  assert (Hsro : forall j, j < n0 -> heap sr !! j = heap s !! j).
  { intros j Hj. simpl. apply lookup_app_l. exact Hj. }
  destruct (part001_unit_with_predecessor cc fuel sr n0 root [] [D] None 1 o fo container n0)
    as (s0 & Hrun1 & Hlen1 & Hfr1 & Hfi & Hnew & Hdoc1 & Hde & _ & Hcr1 & Hwr1);
    try reflexivity; try assumption.
  { intros c. discriminate. }
  { rewrite Hsro by exact Ho. exact Hfo. }
  { eapply old_forest_frame; [exact Hold | exact Hsro]. }
  { simpl. rewrite lookup_app_r by (unfold n0; lia).
    replace (n0 - length (heap s)) with 0 by (unfold n0; lia). reflexivity. }
  { lia. }
  { simpl. pose proof (nodes_pos D). lia. }
  rewrite bool_decide_eq_true_2 in Hrun1, Hfi by (simpl; lia).
  set (s1 := with_nextUnitOfWork (Some (length (heap sr))) s0).
  assert (Hlsr : length (heap sr) = S n0) by (simpl; rewrite length_app; simpl; unfold n0; lia).
  assert (Hs0o : forall j, j < n0 -> heap s0 !! j = heap s !! j).
  { intros j Hj. rewrite Hfr1 by lia. apply Hsro. exact Hj. }
  destruct (forest_updates_from_trees cc [D]
              (Forall_cons_2 _ _ _ (tree_updates_all cc D) (Forall_nil_2 _))
              fuel s1 (S n0) n0 None 1 n0)
    as (s2 & Hrun2 & Hstep2 & Hdoc2 & Hup2 & Hlen2 & Hfr2 & ids & Hfo2 & Hnd & Hb).
  { discriminate. }
  { intros q t Hq. destruct q as [|q]; [|destruct q; discriminate Hq].
    injection Hq as <-. destruct (Hnew 0 D eq_refl) as (oq & g & dq & A & B & C & E & F & G & H).
    exists oq, g, dq.
    rewrite Hlsr in A. simpl in A. rewrite Nat.add_0_r in *.
    split; [exact A|]. split; [exact B|].
    change (heap s1) with (heap s0). change (document s1) with (document s0).
    rewrite Hdoc1. split; [rewrite Hfr1; [exact C | lia | lia]|].
    split; [exact E|]. split; [exact F|]. split; [exact G|].
    eapply old_forest_frame; [exact H|]. intros j Hj. apply Hfr1; lia. }
  { lia. }
  { lia. }
  { change (heap s1) with (heap s0). simpl. rewrite Hfi. reflexivity. }
  { simpl. lia. }
  change (heap s1) with (heap s0) in *. change (document s1) with (document s0) in *.
  assert (Hroot2 : heap s2 !! n0 = Some (set_child (Some (S n0)) root)).
  { rewrite Hfr2; [rewrite Hfi, Hlsr; reflexivity | lia | simpl; lia]. }
  exists (with_nextUnitOfWork None s2), ids.
  assert (Hall : run_units cc fuel (S deadline) (Some n0) sr = Ok (None, s2)).
  { apply (run_units_done cc fuel (1 + sum_list (map nodes [D]))); [|simpl; lia].
    rewrite run_units_add.
    assert (H1 : run_units cc fuel 1 (Some n0) sr = Ok (Some (S n0), s1)).
    { cbn [run_units]. rewrite (bind_Ok_intro _ _ _ _ _ Hrun1), bind_modify.
      unfold s1. rewrite Hlsr. reflexivity. }
    rewrite (bind_Ok_intro _ _ _ _ _ H1). exact Hrun2. }
  pose proof (run_units_next _ _ _ _ _ _ _ Hall eq_refl) as Hnext.
  destruct Hstep2 as (Hk2 & Hdl2 & Hwf2 & Hde2 & Hcr2 & Hwr2).
  change (deletions s1) with (deletions s0) in *.
  change (wipRoot s1) with (wipRoot s0) in *. change (currentRoot s1) with (currentRoot s0) in *.
  split.
  { rewrite (bind_Ok_intro _ _ _ _ _ Hrender). rewrite perform_units_run_units.
    cbn [nextUnitOfWork sr]. rewrite (bind_Ok_intro _ _ _ _ _ Hall).
    destruct s2; simpl in *; subst; reflexivity. }
  simpl.
  split; [reflexivity|].
  split; [rewrite Hwr2, Hwr1; reflexivity|].
  split; [rewrite Hcr2, Hcr1; reflexivity|].
  split; [rewrite Hde2, Hde; reflexivity|].
  split; [rewrite Hdoc2, Hdoc1; reflexivity|].
  assert (Hsize : length (heap s2) = n0 + 1 + nodes D).
  { rewrite Hlen2, Hlen1, Hlsr. cbn [map sum_list length]. unfold id. pose proof (nodes_pos D). lia. }
  assert (Hsize0 : length (heap s0) = S (S n0)) by (rewrite Hlen1, Hlsr; simpl; lia).
  split; [exact Hsize|].
  split.
  { intros j Hj. rewrite Hfr2 by (simpl; lia). apply Hs0o. exact Hj. }
  split.
  { intros j Hj1 Hj2. destruct (decide (j < length (heap s0))) as [Hlt|Hge].
    - assert (j = S n0) as -> by lia.
      destruct (Hnew 0 D eq_refl) as (oq & g & dq & A & _).
      rewrite Hlsr, Nat.add_0_r in A.
      destruct (Hk2 (S n0) _ A) as (g' & Hg & _ & _ & Hg1 & Hg2).
      exists g'. split; [exact Hg | rewrite Hg1; reflexivity].
    - apply Hup2; [change (heap s1) with (heap s0); lia | exact Hj2]. }
  split; [exact Hroot2|].
  split; [|exact Hnd].
  rewrite Hdoc1 in Hfo2. exact Hfo2.
Qed.

Lemma bind_get_state {B} (k : State -> M B) s : bind get_state k s = k s s.
Proof. reflexivity. Qed.

(** The commit of a finished pass whose fibers are all insert fibers. *)
Lemma part001_commit_inserted_pass fuel s w rf dp lo c ts ids :
  nextUnitOfWork s = None -> wipRoot s = Some w -> deletions s = [] ->
  heap s !! w = Some rf -> dom rf = Some dp -> dp < length (document s) ->
  child rf = c ->
  forest_at (heap s) (inserted_ok (length (document s))) lo w c ts ids ->
  doc_wf (document s) ->
  sum_list (map nodes ts) <= fuel ->
  exists doc',
    Part001.commit_when_done fuel s = Ok (tt, mkState (heap s) doc' None (Some w) None [])
    /\ length doc' = length (document s) /\ doc_wf doc'.
Proof.
  intros Hnx Hwr Hde Hw Hdp Hdpl Hc Hfo Hwf Hfuel.
  destruct (part001_commitWork_inserted _ _ _ _ _ _ _ Hfo fuel s rf dp eq_refl eq_refl Hwf Hw
              Hdp Hdpl Hfuel) as (s1 & Hrun & Hk).
  exists (document s1).
  destruct Hk as (Hod & Hlen & Hwf1).
  split; [|split; [exact Hlen | apply Hwf1; exact Hwf]].
  unfold Part001.commit_when_done, Part001.commitRoot.
  rewrite bind_get_state. rewrite Hnx, Hwr.
  rewrite bind_get_state. rewrite Hde. cbn [forEach]. rewrite bind_ret.
  rewrite bind_get_state. rewrite Hwr.
  rewrite (bind_read_fiber w _ _ rf) by exact Hw. rewrite Hc.
  rewrite (bind_Ok_intro _ _ _ _ _ Hrun).
  unfold modify. rewrite Hod. simpl. rewrite Hnx, Hwr, Hde. reflexivity.
Qed.

(** The commit of a finished pass whose fibers are all update fibers with
    unchanged properties leaves the document as it is. *)
Lemma part001_commit_updated_pass fuel s w rf dp m dl lo c ts ids :
  nextUnitOfWork s = None -> wipRoot s = Some w -> deletions s = [] ->
  heap s !! w = Some rf -> dom rf = Some dp ->
  child rf = c ->
  forest_at (heap s) (updated_ok (heap s) m dl) lo w c ts ids ->
  sum_list (map nodes ts) <= fuel ->
  Part001.commit_when_done fuel s
    = Ok (tt, mkState (heap s) (document s) None (Some w) None []).
Proof.
  intros Hnx Hwr Hde Hw Hdp Hc Hfo Hfuel.
  pose proof (part001_commitWork_updated _ _ _ _ _ _ _ _ Hfo fuel s rf dp eq_refl Hw Hdp Hfuel)
    as Hrun.
  unfold Part001.commit_when_done, Part001.commitRoot.
  rewrite bind_get_state. rewrite Hnx, Hwr.
  rewrite bind_get_state. rewrite Hde. cbn [forEach]. rewrite bind_ret.
  rewrite bind_get_state. rewrite Hwr.
  rewrite (bind_read_fiber w _ _ rf) by exact Hw. rewrite Hc.
  rewrite (bind_Ok_intro _ _ _ _ _ Hrun).
  unfold modify. rewrite Hnx, Hwr, Hde. reflexivity.
Qed.

(** The first render of a description tree followed by its commit. *)
Lemma part001_first_render_committed cc D container s fuel deadline :
  currentRoot s = None ->
  container < length (document s) ->
  doc_wf (document s) ->
  nodes D + 2 <= fuel ->
  nodes D <= deadline ->
  exists s1 fo,
    (Part001.render (to_child D) container ;;; Part001.workLoop cc fuel deadline) s = Ok (tt, s1)
    /\ nextUnitOfWork s1 = None /\ wipRoot s1 = None
    /\ currentRoot s1 = Some (length (heap s))
    /\ length (heap s1) = length (heap s) + 1 + nodes D
    /\ heap s1 !! length (heap s) = Some fo
    /\ old_forest (heap s1) (length (heap s1)) (length (document s1)) (child fo) [D]
    /\ length (document s) <= length (document s1)
    /\ doc_wf (document s1).
Proof.
  intros Hcr Hc Hwf Hfuel Hdl.
  destruct (part001_first_pass cc D container s fuel deadline Hcr Hc Hfuel Hdl)
    as (sp & ids & Hrun & Hnx & Hwr & _ & Hde & Hlen & Hold & Hins & Hroot & Hfo & Hnd & Hdl1 & Hwf1).
  destruct (part001_commit_inserted_pass fuel sp (length (heap s)) _ container _ _ [D] ids
              Hnx Hwr Hde Hroot eq_refl ltac:(lia) eq_refl Hfo (Hwf1 Hwf))
    as (doc' & Hcommit & Hdlen & Hwf').
  { simpl. lia. }
  eexists. exists (root_fiber D container None (Some (S (length (heap s))))).
  split.
  { unfold Part001.workLoop.
    rewrite <- (bind_assoc (Part001.render (to_child D) container)
                  (fun _ => Part001.perform_units cc fuel deadline)
                  (fun _ => Part001.commit_when_done fuel)).
    rewrite (bind_Ok_intro _ _ _ _ _ Hrun). exact Hcommit. }
  simpl. split; [reflexivity|]. split; [reflexivity|]. split; [reflexivity|].
  split; [exact Hlen|]. split; [exact Hroot|].
  split.
  { rewrite Hdlen. eapply forest_at_old; [exact Hfo | lia |].
    intros f (_ & _ & d & Hd & Hlt). exists d. split; assumption. }
  split; [lia | exact Hwf'].
Qed.



Create HintDb blind.

Lemma heap_blind_ret {A} (a : A) : heap_blind (ret a).
Proof. intros s h. reflexivity. Qed.

Lemma heap_blind_throw {A} e : heap_blind (@throw A e).
Proof. intros s h. reflexivity. Qed.

Lemma heap_blind_bind {A B} (m : M A) (k : A -> M B) :
  heap_blind m -> (forall a, heap_blind (k a)) -> heap_blind (bind m k).
Proof.
  intros Hm Hk s h. unfold bind. rewrite Hm.
  destruct (m s) as [[a s1]| | |]; simpl; [apply Hk | reflexivity..].
Qed.

Lemma heap_blind_read_node i : heap_blind (read_node i).
Proof. intros s h. unfold read_node. simpl. destruct (document s !! i); reflexivity. Qed.

Lemma heap_blind_update_node i g : heap_blind (update_node i g).
Proof. intros s h. unfold update_node. simpl. destruct (document s !! i); reflexivity. Qed.

Lemma heap_blind_contains p c : heap_blind (contains p c).
Proof. intros s h. reflexivity. Qed.

Lemma heap_blind_forEach {A} (body : A -> M unit) l :
  (forall x, heap_blind (body x)) -> heap_blind (forEach body l).
Proof.
  intros Hb. induction l as [|x l IH]; simpl.
  - apply heap_blind_ret.
  - apply heap_blind_bind; [apply Hb | intros _; exact IH].
Qed.

#[export] Hint Resolve heap_blind_ret heap_blind_throw heap_blind_read_node
  heap_blind_update_node heap_blind_contains : blind.

Ltac blind :=
  repeat first
    [ progress eauto with blind
    | apply heap_blind_bind; [|intros ?]
    | apply heap_blind_forEach; intros ?
    | match goal with
      | |- heap_blind (match ?x with _ => _ end) => destruct x
      | |- heap_blind (if ?b then _ else _) => destruct b
      end ].

Lemma heap_blind_detach c : heap_blind (detach c).
Proof. unfold detach. blind. Qed.

Lemma heap_blind_appendChild p c : heap_blind (appendChild p c).
Proof. unfold appendChild. pose proof heap_blind_detach. blind. Qed.

Lemma heap_blind_removeChild p c : heap_blind (removeChild p c).
Proof. unfold removeChild. pose proof heap_blind_detach. blind. Qed.

Lemma heap_blind_set_property d n v : heap_blind (set_property d n v).
Proof. unfold set_property. blind. Qed.

Lemma heap_blind_remove_property d n : heap_blind (remove_property d n).
Proof. unfold remove_property. blind. Qed.

Lemma heap_blind_addEventListener d t h : heap_blind (addEventListener d t h).
Proof. unfold addEventListener. blind. Qed.

Lemma heap_blind_removeEventListener d t h : heap_blind (removeEventListener d t h).
Proof. unfold removeEventListener. blind. Qed.

#[export] Hint Resolve heap_blind_detach heap_blind_appendChild heap_blind_removeChild
  heap_blind_set_property heap_blind_remove_property heap_blind_addEventListener
  heap_blind_removeEventListener : blind.

Lemma part001_updateDomProperties_heap_blind d prev next :
  heap_blind (Part001.updateDomProperties d prev next).
Proof. unfold Part001.updateDomProperties. blind. Qed.

Lemma gemini_updateDomProperties_heap_blind d prev next :
  heap_blind (Gemini.updateDomProperties d prev next).
Proof.
  unfold Gemini.updateDomProperties, Gemini.assign_className, Gemini.assign_nodeValue,
    Gemini.setAttribute, Gemini.removeAttribute.
  blind.
Qed.

#[export] Hint Resolve part001_updateDomProperties_heap_blind
  gemini_updateDomProperties_heap_blind : blind.

(** A computation that is blind to the fibers leaves them as they are. *)
Lemma heap_blind_heap {A} (m : M A) s a s' :
  heap_blind m -> m s = Ok (a, s') -> heap s' = heap s.
Proof.
  intros Hm H. specialize (Hm s (heap s)).
  replace (with_heap (heap s) s) with s in Hm by (destruct s; reflexivity).
  rewrite H in Hm. simpl in Hm. injection Hm as ->. reflexivity.
Qed.

Lemma heap_kept_blind {A} (m : M A) : heap_blind m -> heap_kept m.
Proof. intros Hm s a s' H. eapply heap_blind_heap; eassumption. Qed.

Lemma heap_kept_bind {A B} (m : M A) (k : A -> M B) :
  heap_kept m -> (forall a, heap_kept (k a)) -> heap_kept (bind m k).
Proof.
  intros Hm Hk s b s' H. apply bind_Ok in H as (a & s1 & H1 & H2).
  rewrite (Hk _ _ _ _ H2). eapply Hm. exact H1.
Qed.

Lemma heap_kept_read_fiber i : heap_kept (read_fiber i).
Proof. intros s a s' H. apply read_fiber_Ok in H as [_ ->]. reflexivity. Qed.

Lemma heap_kept_forEach {A} (body : A -> M unit) l :
  (forall x, heap_kept (body x)) -> heap_kept (forEach body l).
Proof.
  intros Hb. induction l as [|x l IH]; simpl.
  - apply heap_kept_blind, heap_blind_ret.
  - apply heap_kept_bind; [apply Hb | intros _; exact IH].
Qed.

Ltac heap_kept :=
  repeat first
    [ apply heap_kept_read_fiber
    | apply heap_kept_blind; solve [blind]
    | apply heap_kept_bind; [|intros ?]
    | match goal with
      | |- heap_kept (match ?x with _ => _ end) => destruct x
      | |- heap_kept (if ?b then _ else _) => destruct b
      end ].

Lemma spec_apply_disposition_heap_kept v i : heap_kept (spec_apply_disposition v i).
Proof. unfold spec_apply_disposition. heap_kept. Qed.

Lemma bind_ext_on {A B} (m : M A) (k k' : A -> M B) s :
  (forall a s1, m s = Ok (a, s1) -> k a s1 = k' a s1) -> bind m k s = bind m k' s.
Proof. intros H. unfold bind. destruct (m s) as [[a s1]| | |]; auto. Qed.

Lemma bind_cong {A B} (m m' : M A) (k k' : A -> M B) s :
  m s = m' s -> (forall a s1, m' s = Ok (a, s1) -> k a s1 = k' a s1) ->
  bind m k s = bind m' k' s.
Proof. intros E H. unfold bind. rewrite E. destruct (m' s) as [[a s1]| | |]; auto. Qed.

(** part_001: the walk of [commitWork] over the fibers of a finished pass
    applies the dispositions in pre-order. *)
Lemma part001_commitWork_preorder h lo p c ts ids :
  forest_at h has_dom lo p c ts ids ->
  forall fuel s pf dp,
    heap s = h -> h !! p = Some pf -> dom pf = Some dp ->
    sum_list (map nodes ts) <= fuel ->
    Part001.commitWork fuel c s = forEach (spec_apply_disposition VPart001) ids s.
Proof.
  induction 1 as [|p i f t rest ik ir Hlo Hf Hty Hpr Hpa [d Hd] _ IH1 _ IH2];
    intros fuel s pf dp Hh Hp Hdp Hfuel.
  - destruct fuel; reflexivity.
  - pose proof (nodes_pos t) as Hpos.
    assert (Hnt : nodes t = S (sum_list (map nodes (kids_of t)))) by (destruct t; reflexivity).
    change (sum_list (map nodes (t :: rest)))
      with (nodes t + sum_list (map nodes rest)) in Hfuel.
    destruct fuel as [|fuel]; [lia|].
    assert (Hrest : forall s1, heap s1 = heap s ->
      (f1 <- read_fiber i ;;
       Part001.commitWork fuel (child f1) ;;;
       f2 <- read_fiber i ;;
       Part001.commitWork fuel (sibling f2)) s1
      = forEach (spec_apply_disposition VPart001) (ik ++ ir) s1).
    { intros s1 Hh1. rewrite forEach_app.
      rewrite (bind_read_fiber i _ _ f) by (rewrite Hh1, Hh; exact Hf).
      apply bind_cong; [apply (IH1 fuel s1 f d); congruence || lia|].
      intros [] s2 H2.
      pose proof (heap_kept_forEach _ _ (spec_apply_disposition_heap_kept VPart001) _ _ _ H2)
        as Hh2.
      rewrite (bind_read_fiber i _ _ f) by (rewrite Hh2, Hh1, Hh; exact Hf).
      apply (IH2 fuel s2 pf dp); [congruence | exact Hp | exact Hdp | lia]. }
    cbn [Part001.commitWork forEach]. unfold spec_apply_disposition at 1.
    rewrite !bind_assoc.
    rewrite !(bind_read_fiber i _ _ f) by (rewrite Hh; exact Hf).
    rewrite Hpa.
    rewrite (bind_Ok_intro _ _ _ _ _
               (find_dom_parent_direct (S fuel) p pf dp s ltac:(rewrite Hh; exact Hp) Hdp)).
    rewrite !bind_assoc.
    rewrite !(bind_read_fiber p _ _ pf) by (rewrite Hh; exact Hp).
    rewrite Hdp, Hd.
    destruct (effectTag f) as [[| |]|].
    + apply bind_ext_on. intros [] s1 H1. apply Hrest.
      eapply (heap_kept_blind _ (heap_blind_appendChild dp d)). exact H1.
    + apply bind_ext_on. intros [] s1 H1. apply Hrest.
      revert H1. match goal with |- ?m s = _ -> _ => assert (Hk : heap_kept m) by heap_kept end.
      apply Hk.
    + cbn [Part001.commitDeletion].
      rewrite !bind_assoc.
      rewrite !(bind_read_fiber i _ _ f) by (rewrite Hh; exact Hf).
      rewrite Hd.
      apply bind_ext_on. intros [] s1 H1. apply Hrest.
      eapply (heap_kept_blind _ (heap_blind_removeChild dp d)). exact H1.
    + rewrite !bind_ret. apply Hrest. reflexivity.
Qed.

(** ** gemini.html: the walk clears the dispositions *)

Lemma cleared_lookup l h j :
  cleared l h !! j =
    (fun f => if bool_decide (j ∈ l) then set_effectTag None f else f) <$> h !! j.
Proof. unfold cleared. apply list_lookup_imap. Qed.

Lemma cleared_length l h : length (cleared l h) = length h.
Proof. unfold cleared. apply length_imap. Qed.

Lemma cleared_ext l l' h :
  (forall j, j ∈ l <-> j ∈ l') -> cleared l h = cleared l' h.
Proof.
  intros H. apply list_eq. intros j. rewrite !cleared_lookup.
  rewrite (bool_decide_ext _ _ (H j)). reflexivity.
Qed.

Lemma cleared_cleared l l' h : cleared l (cleared l' h) = cleared (l ++ l') h.
Proof.
  apply list_eq. intros j. rewrite !cleared_lookup.
  destruct (h !! j) as [f|]; [|reflexivity]. simpl. f_equal.
  destruct (decide (j ∈ l)) as [Hl|Hl], (decide (j ∈ l')) as [Hl'|Hl'].
  - rewrite !bool_decide_eq_true_2 by (try apply elem_of_app; auto). reflexivity.
  - rewrite (bool_decide_eq_true_2 (j ∈ l)), (bool_decide_eq_false_2 (j ∈ l')),
      (bool_decide_eq_true_2 (j ∈ l ++ l')) by (try apply elem_of_app; auto). reflexivity.
  - rewrite (bool_decide_eq_false_2 (j ∈ l)), (bool_decide_eq_true_2 (j ∈ l')),
      (bool_decide_eq_true_2 (j ∈ l ++ l')) by (try apply elem_of_app; auto). reflexivity.
  - rewrite (bool_decide_eq_false_2 (j ∈ l)), (bool_decide_eq_false_2 (j ∈ l')),
      (bool_decide_eq_false_2 (j ∈ l ++ l'))
      by (try (intros H; apply elem_of_app in H as [H|H]); auto). reflexivity.
Qed.

Lemma read_fiber_cleared {B} l j (k : Fiber -> M B) s :
  bind (read_fiber j) k (with_heap (cleared l (heap s)) s) =
    match heap s !! j with
    | Some f => k (if bool_decide (j ∈ l) then set_effectTag None f else f)
                  (with_heap (cleared l (heap s)) s)
    | None => Invalid
    end.
Proof.
  unfold bind, read_fiber. simpl. rewrite cleared_lookup.
  destruct (heap s !! j); reflexivity.
Qed.

Lemma read_fiber_plain {B} j (k : Fiber -> M B) s :
  bind (read_fiber j) k s =
    match heap s !! j with
    | Some f => k f s
    | None => Invalid
    end.
Proof. unfold bind, read_fiber. destruct (heap s !! j); reflexivity. Qed.

(** A disposition is applied in the same way whatever the dispositions of
    the other fibers are. *)
Lemma spec_apply_disposition_cleared v l j s :
  j ∉ l ->
  spec_apply_disposition v j (with_heap (cleared l (heap s)) s)
  = with_heap_outcome (cleared l (heap s)) (spec_apply_disposition v j s).
Proof.
  intros Hj. unfold spec_apply_disposition.
  rewrite read_fiber_cleared, read_fiber_plain.
  destruct (heap s !! j) as [f|]; [|reflexivity].
  rewrite (bool_decide_eq_false_2 _ Hj).
  destruct (parent f) as [p|]; [|reflexivity].
  rewrite read_fiber_cleared, read_fiber_plain.
  destruct (heap s !! p) as [pf|]; [|reflexivity].
  assert (Hdom : dom (if bool_decide (p ∈ l) then set_effectTag None pf else pf) = dom pf)
    by (destruct (bool_decide (p ∈ l)); reflexivity).
  rewrite Hdom.
  destruct (dom pf) as [dp|]; [|reflexivity].
  destruct (dom f) as [d|]; [|reflexivity].
  destruct (effectTag f) as [[| |]|]; [| | |reflexivity].
  - apply heap_blind_appendChild.
  - destruct v.
    + destruct (alternate f) as [a|].
      * rewrite bind_assoc, read_fiber_cleared. rewrite bind_assoc, read_fiber_plain.
        destruct (heap s !! a) as [af|]; [|reflexivity].
        assert (Hpr : props (if bool_decide (a ∈ l) then set_effectTag None af else af) = props af)
          by (destruct (bool_decide (a ∈ l)); reflexivity).
        rewrite Hpr. destruct (props af) as [pp|]; [|reflexivity].
        rewrite !bind_ret. destruct (props f); [|reflexivity].
        apply part001_updateDomProperties_heap_blind.
      * rewrite !bind_ret. destruct (props f); [|reflexivity].
        apply part001_updateDomProperties_heap_blind.
    + destruct (alternate f) as [a|]; [|reflexivity].
      rewrite read_fiber_cleared, read_fiber_plain.
      destruct (heap s !! a) as [af|]; [|reflexivity].
      assert (Hpr : props (if bool_decide (a ∈ l) then set_effectTag None af else af) = props af)
        by (destruct (bool_decide (a ∈ l)); reflexivity).
      rewrite Hpr. destruct (props af) as [pp|]; [|reflexivity].
      destruct (props f); [|reflexivity].
      apply gemini_updateDomProperties_heap_blind.
  - destruct v.
    + apply heap_blind_removeChild.
    + assert (Hb : heap_blind (present <- contains dp d ;;
                               if (present : bool) then removeChild dp d else ret tt))
        by blind.
      apply Hb.
Qed.

Lemma forEach_spec_apply_cleared v l r s :
  (forall j, j ∈ r -> j ∉ l) ->
  forEach (spec_apply_disposition v) r (with_heap (cleared l (heap s)) s)
  = with_heap_outcome (cleared l (heap s)) (forEach (spec_apply_disposition v) r s).
Proof.
  revert s. induction r as [|j r IH]; intros s Hr; [reflexivity|].
  cbn [forEach]. unfold bind at 1 2.
  rewrite spec_apply_disposition_cleared by (apply Hr; left).
  destruct (spec_apply_disposition v j s) as [[[] s1]| | |] eqn:E; try reflexivity.
  simpl. pose proof (spec_apply_disposition_heap_kept _ _ _ _ _ E) as Hh.
  rewrite <- Hh. apply IH. intros j' Hj'. apply Hr. right. exact Hj'.
Qed.

Lemma forEach_app_bind {A B} (body : A -> M unit) (l1 l2 : list A) (k : unit -> M B) s :
  bind (forEach body (l1 ++ l2)) k s
  = bind (forEach body l1) (fun _ => bind (forEach body l2) k) s.
Proof.
  rewrite <- bind_assoc. apply bind_cong; [apply forEach_app | reflexivity].
Qed.

Lemma clear_one i s :
  i < length (heap s) ->
  (f3 <- read_fiber i ;;
   match effectTag f3 with
   | Some _ => update_fiber i (set_effectTag None)
   | None => ret tt
   end) s = Ok (tt, with_heap (cleared [i] (heap s)) s).
Proof.
  intros Hi. destruct (lookup_lt_is_Some_2 _ _ Hi) as [f Hf].
  rewrite (bind_read_fiber i _ _ f) by exact Hf.
  assert (E : cleared [i] (heap s) = <[i := set_effectTag None f]> (heap s)).
  { apply list_eq. intros j. rewrite cleared_lookup.
    destruct (decide (j = i)) as [->|Hne].
    - rewrite list_lookup_insert_eq by exact Hi. rewrite Hf.
      rewrite bool_decide_eq_true_2 by (apply list_elem_of_singleton; reflexivity). reflexivity.
    - rewrite list_lookup_insert_ne by congruence.
      rewrite bool_decide_eq_false_2 by (rewrite list_elem_of_singleton; exact Hne).
      destruct (heap s !! j); reflexivity. }
  rewrite E.
  destruct (effectTag f) as [e|] eqn:Et.
  - unfold update_fiber. rewrite Hf. reflexivity.
  - unfold ret. f_equal. f_equal.
    assert (Hs : set_effectTag None f = f) by (destruct f; simpl in *; subst; reflexivity).
    rewrite Hs, list_insert_id by exact Hf. destruct s; reflexivity.
Qed.

Lemma has_dom_cleared (b : bool) f : has_dom f -> has_dom (if b then set_effectTag None f else f).
Proof. intros [d Hd]. exists d. destruct b; exact Hd. Qed.

(** gemini.html: the walk of [commitWork] over the fibers of a finished
    pass applies the dispositions in pre-order and leaves every fiber it
    visited without disposition. *)
Lemma gemini_commitWork_preorder h lo p c ts ids :
  forest_at h has_dom lo p c ts ids ->
  NoDup ids ->
  forall fuel s l pf,
    heap s = cleared l h -> h !! p = Some pf -> has_dom pf ->
    sum_list (map nodes ts) <= fuel ->
    Gemini.commitWork fuel c s
    = (forEach (spec_apply_disposition VGemini) ids ;;; clear_dispositions ids) s.
Proof.
  induction 1 as [|p i f t rest ik ir Hlo Hf Hty Hpr Hpa [d Hd] _ IH1 _ IH2];
    intros Hnd fuel s l pf Hh Hp [dp Hdp] Hfuel.
  - cbn [forEach]. rewrite bind_ret. unfold clear_dispositions, modify.
    assert (E : cleared [] (heap s) = heap s).
    { apply list_eq. intros j. rewrite cleared_lookup.
      rewrite bool_decide_eq_false_2 by apply not_elem_of_nil.
      destruct (heap s !! j); reflexivity. }
    rewrite E. destruct fuel; simpl; unfold ret; destruct s; reflexivity.
  - pose proof (nodes_pos t) as Hpos.
    assert (Hnt : nodes t = S (sum_list (map nodes (kids_of t)))) by (destruct t; reflexivity).
    change (sum_list (map nodes (t :: rest)))
      with (nodes t + sum_list (map nodes rest)) in Hfuel.
    destruct fuel as [|fuel]; [lia|].
    apply NoDup_cons in Hnd as [Hi Hnd].
    apply NoDup_app in Hnd as (Hndk & Hdisj & Hndr).
    assert (Hil : i < length h) by (eapply lookup_lt_Some; exact Hf).
    (* the fiber and its parent, in any store that differs by cleared
       dispositions only *)
    assert (Hfl : forall s1 l1, heap s1 = cleared l1 h ->
              exists f1, heap s1 !! i = Some f1 /\ parent f1 = Some p /\ dom f1 = Some d
                /\ child f1 = child f /\ sibling f1 = sibling f /\ alternate f1 = alternate f
                /\ props f1 = props f
                /\ (i ∉ l1 -> f1 = f)).
    { intros s1 l1 H1. rewrite H1, cleared_lookup, Hf. simpl. eexists. split; [reflexivity|].
      destruct (decide (i ∈ l1)) as [Hin|Hin].
      - rewrite bool_decide_eq_true_2 by exact Hin. simpl.
        repeat split; try assumption; try reflexivity. intros Hn. contradiction.
      - rewrite bool_decide_eq_false_2 by exact Hin.
        repeat split; try assumption; reflexivity. }
    assert (Hpl : forall s1 l1, heap s1 = cleared l1 h ->
              exists pf1, heap s1 !! p = Some pf1 /\ dom pf1 = Some dp).
    { intros s1 l1 H1. rewrite H1, cleared_lookup, Hp. simpl. eexists. split; [reflexivity|].
      destruct (bool_decide (p ∈ l1)); exact Hdp. }
    assert (Hrest : forall s1, heap s1 = heap s ->
      (f1 <- read_fiber i ;;
       Gemini.commitWork fuel (child f1) ;;;
       f2 <- read_fiber i ;;
       Gemini.commitWork fuel (sibling f2) ;;;
       f3 <- read_fiber i ;;
       match effectTag f3 with
       | Some _ => update_fiber i (set_effectTag None)
       | None => ret tt
       end) s1
      = (forEach (spec_apply_disposition VGemini) (ik ++ ir) ;;;
         clear_dispositions (i :: ik ++ ir)) s1).
    { intros s1 Hh1. rewrite forEach_app_bind.
      destruct (Hfl s1 l ltac:(congruence)) as (f1 & Hf1 & _ & Hd1 & Hc1 & Hs1 & _).
      rewrite (bind_read_fiber i _ _ f1) by exact Hf1. rewrite Hc1.
      rewrite (bind_cong _ _ _ _ _
                 (IH1 Hndk fuel s1 l f ltac:(congruence) Hf (ex_intro _ d Hd) ltac:(lia))
                 (fun a s1 _ => eq_refl)).
      rewrite bind_assoc.
      apply bind_ext_on. intros [] s2 H2.
      pose proof (heap_kept_forEach _ _ (spec_apply_disposition_heap_kept VGemini) _ _ _ H2)
        as Hh2.
      unfold clear_dispositions at 1. rewrite bind_modify.
      assert (Hh2c : heap (with_heap (cleared ik (heap s2)) s2) = cleared (ik ++ l) h).
      { simpl. rewrite Hh2, Hh1, Hh. apply cleared_cleared. }
      destruct (Hfl _ _ Hh2c) as (f2 & Hf2 & _ & _ & _ & Hs2 & _).
      rewrite (bind_read_fiber i _ _ f2) by exact Hf2. rewrite Hs2.
      rewrite (bind_cong _ _ _ _ _
                 (IH2 Hndr fuel _ (ik ++ l) pf Hh2c Hp (ex_intro _ dp Hdp) ltac:(lia))
                 (fun a s1 _ => eq_refl)).
      rewrite bind_assoc.
      unfold bind at 1.
      rewrite forEach_spec_apply_cleared by (intros j Hj1 Hj2; eapply Hdisj; eassumption).
      unfold bind at 3.
      destruct (forEach (spec_apply_disposition VGemini) ir s2) as [[[] s3]| | |] eqn:E3;
        try reflexivity.
      pose proof (heap_kept_forEach _ _ (spec_apply_disposition_heap_kept VGemini) _ _ _ E3)
        as Hh3.
      cbn [with_heap_outcome]. unfold clear_dispositions. rewrite bind_modify.
      rewrite clear_one by (simpl; rewrite !cleared_length, Hh2, Hh1, Hh, cleared_length; exact Hil).
      unfold modify. f_equal. f_equal. unfold with_heap. simpl. f_equal. rewrite Hh3.
      rewrite !cleared_cleared. apply cleared_ext. intros j.
      rewrite !elem_of_app, !elem_of_cons, !elem_of_app, elem_of_nil. tauto. }
    cbn [Gemini.commitWork forEach]. unfold spec_apply_disposition at 1.
    rewrite !bind_assoc.
    destruct (Hfl s l Hh) as (f0 & Hf0 & Hpa0 & Hd0 & _ & _ & Halt0 & Hpr0 & _).
    destruct (Hpl s l Hh) as (pf0 & Hp0 & Hdp0).
    rewrite !(bind_read_fiber i _ _ f0) by exact Hf0.
    rewrite Hpa0.
    rewrite (bind_Ok_intro _ _ _ _ _ (find_dom_parent_direct (S fuel) p pf0 dp s Hp0 Hdp0)).
    rewrite !bind_assoc.
    rewrite !(bind_read_fiber p _ _ pf0) by exact Hp0.
    rewrite Hdp0, Hd0.
    destruct (effectTag f0) as [[| |]|].
    + apply bind_ext_on. intros [] s1 H1. apply Hrest.
      eapply (heap_kept_blind _ (heap_blind_appendChild dp d)). exact H1.
    + apply bind_ext_on. intros [] s1 H1. apply Hrest.
      revert H1. match goal with |- ?m s = _ -> _ => assert (Hk : heap_kept m) by heap_kept end.
      apply Hk.
    + cbn [Gemini.commitDeletion].
      rewrite !bind_assoc.
      rewrite !(bind_read_fiber i _ _ f0) by exact Hf0.
      rewrite Hd0. rewrite !bind_assoc.
      apply bind_ext_on. intros present s1 H1. injection H1 as _ <-.
      destruct present.
      * apply bind_ext_on. intros [] s2 H2. apply Hrest.
        eapply (heap_kept_blind _ (heap_blind_removeChild dp d)). exact H2.
      * rewrite !bind_ret. apply Hrest. reflexivity.
    + rewrite !bind_ret. apply Hrest. reflexivity.
Qed.

Lemma cleared_nil h : cleared [] h = h.
Proof.
  apply list_eq. intros j. rewrite cleared_lookup.
  rewrite bool_decide_eq_false_2 by apply not_elem_of_nil.
  destruct (h !! j); reflexivity.
Qed.

Lemma dispositions_cleared_refl s : dispositions_cleared s s.
Proof. split; [exists []; symmetry; apply cleared_nil | repeat split]. Qed.

Lemma dispositions_cleared_trans s1 s2 s3 :
  dispositions_cleared s1 s2 -> dispositions_cleared s2 s3 -> dispositions_cleared s1 s3.
Proof.
  intros ([l1 H1] & A1 & B1 & C1 & D1) ([l2 H2] & A2 & B2 & C2 & D2).
  split; [exists (l2 ++ l1); rewrite H2, H1; apply cleared_cleared|].
  repeat split; congruence.
Qed.

Lemma clears_dispositions_document_only {A} (m : M A) :
  document_only m -> clears_dispositions m.
Proof.
  intros Hm s a s' H. apply Hm in H. unfold only_document_changed in H. rewrite H. simpl.
  split; [exists []; symmetry; apply cleared_nil | repeat split].
Qed.

Lemma clears_dispositions_bind {A B} (m : M A) (k : A -> M B) :
  clears_dispositions m -> (forall a, clears_dispositions (k a)) ->
  clears_dispositions (bind m k).
Proof.
  intros Hm Hk s b s' H. apply bind_Ok in H as (a & s1 & H1 & H2).
  eapply dispositions_cleared_trans; [eapply Hm | eapply Hk]; eassumption.
Qed.

Lemma clears_dispositions_forEach {A} (body : A -> M unit) l :
  (forall x, clears_dispositions (body x)) -> clears_dispositions (forEach body l).
Proof.
  intros Hb. induction l as [|x l IH]; simpl.
  - apply clears_dispositions_document_only, document_only_ret.
  - apply clears_dispositions_bind; [apply Hb | intros _; exact IH].
Qed.

Lemma gemini_updateDomProperties_document_only d prev next :
  document_only (Gemini.updateDomProperties d prev next).
Proof.
  unfold Gemini.updateDomProperties, Gemini.assign_className, Gemini.assign_nodeValue,
    Gemini.setAttribute, Gemini.removeAttribute.
  doc_only.
Qed.

Lemma gemini_commitDeletion_document_only fuel fiber domParent :
  document_only (Gemini.commitDeletion fuel fiber domParent).
Proof.
  revert fiber. induction fuel as [|fuel IH]; intros fiber; simpl; doc_only.
Qed.

Lemma clears_dispositions_clear_one i :
  clears_dispositions
    (f3 <- read_fiber i ;;
     match effectTag f3 with
     | Some _ => update_fiber i (set_effectTag None)
     | None => ret tt
     end).
Proof.
  intros s a s' H.
  destruct (heap s !! i) as [f|] eqn:Hf.
  - rewrite clear_one in H by (eapply lookup_lt_Some; exact Hf). injection H as H. subst s'.
    split; [exists [i]; reflexivity | repeat split].
  - rewrite read_fiber_plain, Hf in H. discriminate H.
Qed.

Lemma gemini_commitWork_clears_dispositions fuel fiber :
  clears_dispositions (Gemini.commitWork fuel fiber).
Proof.
  revert fiber. induction fuel as [|fuel IH]; intros [i|]; simpl;
    try (apply clears_dispositions_document_only; doc_only; fail).
  pose proof gemini_updateDomProperties_document_only.
  pose proof gemini_commitDeletion_document_only.
  apply clears_dispositions_bind;
    [apply clears_dispositions_document_only; doc_only | intros f].
  apply clears_dispositions_bind;
    [apply clears_dispositions_document_only; doc_only | intros dpf].
  apply clears_dispositions_bind;
    [apply clears_dispositions_document_only; doc_only | intros _].
  apply clears_dispositions_bind;
    [apply clears_dispositions_document_only; doc_only | intros f1].
  apply clears_dispositions_bind; [apply IH | intros _].
  apply clears_dispositions_bind;
    [apply clears_dispositions_document_only; doc_only | intros f2].
  apply clears_dispositions_bind; [apply IH | intros _].
  apply clears_dispositions_clear_one.
Qed.

Lemma spec_apply_disposition_document_only v i :
  document_only (spec_apply_disposition v i).
Proof.
  unfold spec_apply_disposition.
  pose proof gemini_updateDomProperties_document_only. doc_only.
Qed.




(** Both commits of the paragraph pass succeed: the paragraph is appended
    to the container. *)
Lemma paragraph_pass_commits :
  exists s1 s2,
    Part001.commitRoot 4 paragraph_pass = Ok (tt, s1)
    /\ Gemini.commitRoot 4 paragraph_pass = Ok (tt, s2)
    /\ document s1 = document s2
    /\ (childNodes <$> document s1 !! 0) = Some [1].
Proof.
  eexists. eexists. split; [vm_compute; reflexivity|].
  split; [vm_compute; reflexivity|]. split; vm_compute; reflexivity.
Qed.

(** ** The work loop across idle periods *)

Lemma commit_when_done_pending fuel s u :
  nextUnitOfWork s = Some u -> Part001.commit_when_done fuel s = Ok (tt, s).
Proof. intros H. unfold Part001.commit_when_done. rewrite bind_get_state, H. reflexivity. Qed.

Lemma commit_when_done_idle fuel s :
  nextUnitOfWork s = None -> wipRoot s = None -> Part001.commit_when_done fuel s = Ok (tt, s).
Proof. intros H1 H2. unfold Part001.commit_when_done. rewrite bind_get_state, H1, H2. reflexivity. Qed.

Lemma workLoop_idle cc fuel deadline s :
  nextUnitOfWork s = None -> wipRoot s = None -> Part001.workLoop cc fuel deadline s = Ok (tt, s).
Proof.
  intros H1 H2. unfold Part001.workLoop.
  assert (E : Part001.perform_units cc fuel deadline s = Ok (tt, s)).
  { destruct deadline; simpl; rewrite bind_get_state, H1; reflexivity. }
  rewrite (bind_Ok_intro _ _ _ _ _ E). apply commit_when_done_idle; assumption.
Qed.

Lemma workLoop_run_units cc fuel deadline s :
  Part001.workLoop cc fuel deadline s =
    match run_units cc fuel (S deadline) (nextUnitOfWork s) s with
    | Ok (_, s1) => Part001.commit_when_done fuel s1
    | Throw e => Throw e
    | OutOfFuel => OutOfFuel
    | Invalid => Invalid
    end.
Proof.
  unfold Part001.workLoop. unfold bind at 1. rewrite perform_units_run_units.
  unfold bind.
  destruct (run_units cc fuel (S deadline) (nextUnitOfWork s) s) as [[next s1]| | |];
    reflexivity.
Qed.


(** ** The reconciler of gemini.html raises nothing *)

Lemma never_throws_ret {A} (a : A) : never_throws (ret a).
Proof. intros s e. discriminate. Qed.

Lemma never_throws_out_of_fuel {A} : never_throws (@out_of_fuel A).
Proof. intros s e. discriminate. Qed.

Lemma never_throws_bind {A B} (m : M A) (k : A -> M B) :
  never_throws m -> (forall a, never_throws (k a)) -> never_throws (bind m k).
Proof.
  intros Hm Hk s e. unfold bind. destruct (m s) as [[a s1]| | |] eqn:E; try discriminate.
  - apply Hk.
  - exfalso. eapply Hm. exact E.
Qed.

Lemma never_throws_read_fiber i : never_throws (read_fiber i).
Proof. intros s e. unfold read_fiber. destruct (heap s !! i); discriminate. Qed.

Lemma never_throws_update_fiber i g : never_throws (update_fiber i g).
Proof. intros s e. unfold update_fiber. destruct (heap s !! i); discriminate. Qed.

Lemma never_throws_new_fiber f : never_throws (new_fiber f).
Proof. intros s e. discriminate. Qed.

Lemma never_throws_modify g : never_throws (modify g).
Proof. intros s e. discriminate. Qed.

Create HintDb no_throw.

#[export] Hint Resolve never_throws_ret never_throws_out_of_fuel never_throws_read_fiber
  never_throws_update_fiber never_throws_new_fiber never_throws_modify : no_throw.

Ltac no_throw :=
  repeat first
    [ progress eauto with no_throw
    | apply never_throws_bind; [|intros ?]
    | match goal with
      | |- never_throws (match ?x with _ => _ end) => destruct x
      | |- never_throws (if ?b then _ else _) => destruct b
      end ].

Lemma gemini_reconcile_loop_never_throws fuel w els index oldFiber prevSibling :
  never_throws (reconcile_loop VGemini fuel w els index oldFiber prevSibling).
Proof.
  revert index oldFiber prevSibling.
  induction fuel as [|fuel IH]; intros index oldFiber prevSibling; simpl.
  - no_throw.
  - destruct (bool_decide (index < length els) || bool_decide (oldFiber ≠ None));
      [|apply never_throws_ret].
    repeat (apply never_throws_bind; [solve [no_throw] | intros ?]).
    apply IH.
Qed.


Lemma node_frame_refl d s : node_frame d s s.
Proof. repeat split. Qed.

Lemma node_frame_trans d s1 s2 s3 :
  node_frame d s1 s2 -> node_frame d s2 s3 -> node_frame d s1 s3.
Proof.
  intros (A1 & B1 & C1 & D1 & E1) (A2 & B2 & C2 & D2 & E2).
  repeat split; try congruence. intros j Hj. rewrite E2, E1 by exact Hj. reflexivity.
Qed.

Lemma node_frame_weaken d s s' : node_frame None s s' -> node_frame d s s'.
Proof.
  intros (A & B & C & D & E). repeat split; try assumption.
  intros j _. apply E. discriminate.
Qed.

Lemma node_frame_document s s' : node_frame None s s' -> document s' = document s.
Proof. intros (_ & _ & _ & _ & E). apply list_eq. intros j. apply E. discriminate. Qed.

Lemma frames_weaken {A} d (m : M A) : frames None m -> frames d m.
Proof. intros H s a s' E. apply node_frame_weaken. eapply H. exact E. Qed.

Lemma frames_ret {A} d (a : A) : frames d (ret a).
Proof. intros s a' s' H. injection H as _ <-. apply node_frame_refl. Qed.

Lemma frames_throw {A} d e : frames d (@throw A e).
Proof. intros s a s' H. discriminate H. Qed.

Lemma frames_out_of_fuel {A} d : frames d (@out_of_fuel A).
Proof. intros s a s' H. discriminate H. Qed.

Lemma frames_invalid {A} d : frames d (@invalid A).
Proof. intros s a s' H. discriminate H. Qed.

Lemma frames_bind {A B} d (m : M A) (k : A -> M B) :
  frames d m -> (forall a, frames d (k a)) -> frames d (bind m k).
Proof.
  intros Hm Hk s b s' H. apply bind_Ok in H as (a & s1 & H1 & H2).
  eapply node_frame_trans; [eapply Hm | eapply Hk]; eassumption.
Qed.

Lemma frames_forEach {A} d (body : A -> M unit) l :
  (forall x, frames d (body x)) -> frames d (forEach body l).
Proof.
  intros Hb. induction l as [|x l IH]; simpl.
  - apply frames_ret.
  - apply frames_bind; [apply Hb | intros _; exact IH].
Qed.

Lemma frames_read_fiber d i : frames d (read_fiber i).
Proof. intros s a s' H. apply read_fiber_Ok in H as [_ ->]. apply node_frame_refl. Qed.

Lemma frames_update_fiber d i g : frames d (update_fiber i g).
Proof.
  intros s a s'. unfold update_fiber. destruct (heap s !! i); [|discriminate].
  intros H. injection H as _ <-. repeat split.
Qed.

Lemma frames_new_fiber d f : frames d (new_fiber f).
Proof. intros s a s' H. injection H as _ <-. repeat split. Qed.

Lemma frames_add_deletion d o :
  frames d (modify (fun s => with_deletions (deletions s ++ [o]) s)).
Proof. intros s a s' H. injection H as _ <-. repeat split. Qed.

Lemma frames_read_node d i : frames d (read_node i).
Proof.
  intros s a s'. unfold read_node. destruct (document s !! i); [|discriminate].
  intros H. injection H as _ <-. apply node_frame_refl.
Qed.

Lemma frames_update_node i g : frames (Some i) (update_node i g).
Proof.
  intros s a s'. unfold update_node. destruct (document s !! i) eqn:E; [|discriminate].
  intros H. injection H as _ <-. simpl. repeat split.
  - apply length_insert.
  - intros j Hj. apply list_lookup_insert_ne. congruence.
Qed.

Create HintDb frames.

#[export] Hint Resolve frames_ret frames_throw frames_out_of_fuel frames_invalid
  frames_read_fiber frames_update_fiber frames_new_fiber frames_add_deletion
  frames_read_node frames_update_node : frames.

Ltac frames :=
  repeat first
    [ progress eauto with frames
    | apply frames_bind; [|intros ?]
    | apply frames_forEach; intros ?
    | match goal with
      | |- frames _ (match ?x with _ => _ end) => destruct x
      | |- frames _ (if ?b then _ else _) => destruct b
      end ].

Lemma frames_set_property d n v : frames (Some d) (set_property d n v).
Proof. unfold set_property. frames. Qed.

Lemma frames_remove_property d n : frames (Some d) (remove_property d n).
Proof. unfold remove_property. frames. Qed.

Lemma frames_addEventListener d t h : frames (Some d) (addEventListener d t h).
Proof. unfold addEventListener. frames. Qed.

Lemma frames_removeEventListener d t h : frames (Some d) (removeEventListener d t h).
Proof. unfold removeEventListener. frames. Qed.

#[export] Hint Resolve frames_set_property frames_remove_property frames_addEventListener
  frames_removeEventListener : frames.

Lemma part001_updateDomProperties_frames d prev next :
  frames (Some d) (Part001.updateDomProperties d prev next).
Proof. unfold Part001.updateDomProperties. frames. Qed.

Lemma gemini_updateDomProperties_frames d prev next :
  frames (Some d) (Gemini.updateDomProperties d prev next).
Proof.
  unfold Gemini.updateDomProperties, Gemini.assign_className, Gemini.assign_nodeValue,
    Gemini.setAttribute, Gemini.removeAttribute.
  frames.
Qed.

Lemma reconcile_loop_frames v fuel w els index oldFiber prevSibling :
  frames None (reconcile_loop v fuel w els index oldFiber prevSibling).
Proof.
  revert index oldFiber prevSibling.
  induction fuel as [|fuel IH]; intros index oldFiber prevSibling; simpl.
  - frames.
  - destruct (bool_decide (index < length els) || bool_decide (oldFiber ≠ None));
      [|apply frames_ret].
    repeat (apply frames_bind; [solve [frames] | intros ?]).
    apply IH.
Qed.

Lemma reconcileChildren_frames v fuel w els : frames None (reconcileChildren v fuel w els).
Proof.
  unfold reconcileChildren, first_old_fiber.
  apply frames_bind; [frames | intros o]. apply reconcile_loop_frames.
Qed.

Lemma next_unit_frames fuel i : frames None (next_unit fuel i).
Proof.
  unfold next_unit. apply frames_bind; [frames | intros f].
  destruct (child f); [frames|].
  intros s a s'. destruct (sibling_climb fuel (heap s) (Some i)); try discriminate.
  intros H. injection H as _ <-. apply node_frame_refl.
Qed.

#[export] Hint Resolve reconcileChildren_frames next_unit_frames : frames.

Lemma render_phase_frame_refl s : render_phase_frame s s.
Proof. split; [reflexivity|]. split; reflexivity. Qed.

Lemma render_phase_frame_trans s1 s2 s3 :
  render_phase_frame s1 s2 -> render_phase_frame s2 s3 -> render_phase_frame s1 s3.
Proof.
  intros (A1 & B1 & C1) (A2 & B2 & C2). repeat split; try congruence.
  etransitivity; eassumption.
Qed.

Lemma node_frame_render_phase s s' : node_frame None s s' -> render_phase_frame s s'.
Proof.
  intros H. pose proof (node_frame_document _ _ H) as E. destruct H as (A & B & _).
  repeat split; try assumption. rewrite E. reflexivity.
Qed.

(** A node created and then filled in: the nodes before it are as they
    were. *)
Lemma new_node_then_frames {A} n (k : nat -> M A) s a s' :
  (forall d, frames (Some d) (k d)) ->
  (d <- new_node n ;; k d) s = Ok (a, s') ->
  render_phase_frame s s' /\ length (document s') = S (length (document s)).
Proof.
  intros Hk H. rewrite bind_Ok_intro with (a := length (document s))
                                           (s1 := with_document (document s ++ [n]) s) in H
    by reflexivity.
  apply Hk in H as (A1 & B1 & _ & D1 & E1). simpl in *.
  rewrite length_app in D1. simpl in D1.
  split; [|lia]. repeat split; try assumption.
  exists (drop (length (document s)) (document s')).
  rewrite <- (take_drop (length (document s)) (document s')) at 1. f_equal.
  apply list_eq. intros j. destruct (decide (j < length (document s))) as [Hj|Hj].
  - rewrite lookup_take_lt by exact Hj. rewrite E1 by (intros [= ->]; lia).
    apply lookup_app_l. exact Hj.
  - rewrite lookup_take_ge by lia. symmetry. apply lookup_ge_None. lia.
Qed.

Lemma part001_createDom_frame f s d s' :
  Part001.createDom f s = Ok (d, s') ->
  render_phase_frame s s' /\ length (document s') = S (length (document s)).
Proof.
  unfold Part001.createDom, createTextNode, document_createElement.
  destruct (bool_decide (type f = Some (TyStr "TEXT_ELEMENT"))).
  - apply new_node_then_frames. intros d0. destruct (props f); [|apply frames_throw].
    apply frames_bind; [apply part001_updateDomProperties_frames | intros _; apply frames_ret].
  - apply new_node_then_frames. intros d0. destruct (props f); [|apply frames_throw].
    apply frames_bind; [apply part001_updateDomProperties_frames | intros _; apply frames_ret].
Qed.

Lemma gemini_createDomElement_frame f s d s' :
  Gemini.createDomElement f s = Ok (d, s') ->
  render_phase_frame s s' /\ length (document s') <= S (length (document s)).
Proof.
  unfold Gemini.createDomElement, createTextNode, document_createElement.
  destruct (negb (Gemini.truthy_type (type f))).
  { intros H. injection H as _ <-. split; [apply render_phase_frame_refl | lia]. }
  assert (Hk : forall d0 : nat, frames (Some d0)
            match props f with
            | Some p => Gemini.updateDomProperties d0 empty_props p ;;; ret (Some d0)
            | None => throw TypeError
            end).
  { intros d0. destruct (props f); [|apply frames_throw].
    apply frames_bind; [apply gemini_updateDomProperties_frames | intros _; apply frames_ret]. }
  destruct (type f) as [[x|c]|]; try discriminate.
  destruct (String.eqb x "TEXT_ELEMENT"); intros H;
    apply new_node_then_frames in H as [H1 H2]; try exact Hk; (split; [exact H1 | lia]).
Qed.

Lemma render_phase_frames {A} (m : M A) : frames None m -> render_phase m.
Proof. intros H s a s' E. apply node_frame_render_phase. eapply H. exact E. Qed.

Lemma render_phase_bind {A B} (m : M A) (k : A -> M B) :
  render_phase m -> (forall a, render_phase (k a)) -> render_phase (bind m k).
Proof.
  intros Hm Hk s b s' H. apply bind_Ok in H as (a & s1 & H1 & H2).
  eapply render_phase_frame_trans; [eapply Hm | eapply Hk]; eassumption.
Qed.

Lemma render_phase_set_next next : render_phase (modify (with_nextUnitOfWork next)).
Proof. intros s a s' H. injection H as _ <-. split; [reflexivity|]. split; reflexivity. Qed.

Lemma part001_performUnitOfWork_render_phase cc fuel i :
  render_phase (Part001.performUnitOfWork cc fuel i).
Proof.
  unfold Part001.performUnitOfWork, Part001.updateHostComponent,
    Part001.updateFunctionComponent.
  apply render_phase_bind; [apply render_phase_frames; frames | intros f].
  apply render_phase_bind; [|intros _; apply render_phase_frames; frames].
  assert (Hhost : render_phase
    (f0 <- read_fiber i ;;
     match dom f0 with
     | Some _ => ret tt
     | None => d <- Part001.createDom f0 ;; update_fiber i (set_dom (Some d))
     end ;;;
     f1 <- read_fiber i ;;
     match props f1 with
     | Some p => reconcileChildren VPart001 fuel i (children p)
     | None => throw TypeError
     end)).
  { apply render_phase_bind; [apply render_phase_frames; frames | intros f0].
    apply render_phase_bind; [|intros _; apply render_phase_frames; frames].
    destruct (dom f0); [apply render_phase_frames; frames|].
    apply render_phase_bind; [|intros d; apply render_phase_frames; frames].
    intros s d s' H. apply part001_createDom_frame in H as [H _]. exact H. }
  destruct (type f) as [[x|c]|]; try exact Hhost.
  apply render_phase_frames. frames.
Qed.

Lemma gemini_performUnitOfWork_render_phase fuel i :
  render_phase (Gemini.performUnitOfWork fuel i).
Proof.
  unfold Gemini.performUnitOfWork.
  apply render_phase_bind; [apply render_phase_frames; frames | intros f].
  apply render_phase_bind; [|intros _; apply render_phase_frames; frames].
  destruct (dom f); [apply render_phase_frames; frames|].
  apply render_phase_bind; [|intros d; apply render_phase_frames; frames].
  intros s d s' H. apply gemini_createDomElement_frame in H as [H _]. exact H.
Qed.

Lemma part001_perform_units_render_phase cc fuel deadline :
  render_phase (Part001.perform_units cc fuel deadline).
Proof.
  induction deadline as [|d IH]; simpl.
  - intros s a s'. rewrite bind_get_state. destruct (nextUnitOfWork s) as [u|].
    + revert s a s'.
      apply render_phase_bind; [apply part001_performUnitOfWork_render_phase | intros next].
      apply render_phase_bind; [apply render_phase_set_next | intros _].
      apply render_phase_frames, frames_ret.
    + intros H. injection H as _ <-. apply render_phase_frame_refl.
  - intros s a s'. rewrite bind_get_state. destruct (nextUnitOfWork s) as [u|].
    + revert s a s'.
      apply render_phase_bind; [apply part001_performUnitOfWork_render_phase | intros next].
      apply render_phase_bind; [apply render_phase_set_next | intros _]. exact IH.
    + intros H. injection H as _ <-. apply render_phase_frame_refl.
Qed.

Lemma gemini_perform_units_render_phase fuel steps :
  render_phase (Gemini.perform_units fuel steps).
Proof.
  induction steps as [|n IH]; simpl.
  - intros s a s'. rewrite bind_get_state. destruct (nextUnitOfWork s) as [u|]; [discriminate|].
    intros H. injection H as _ <-. apply render_phase_frame_refl.
  - intros s a s'. rewrite bind_get_state. destruct (nextUnitOfWork s) as [u|].
    + revert s a s'.
      apply render_phase_bind; [apply gemini_performUnitOfWork_render_phase | intros next].
      apply render_phase_bind; [apply render_phase_set_next | intros _]. exact IH.
    + intros H. injection H as _ <-. apply render_phase_frame_refl.
Qed.

Lemma gemini_perform_units_done fuel steps s s' :
  Gemini.perform_units fuel steps s = Ok (tt, s') -> nextUnitOfWork s' = None.
Proof.
  revert s. induction steps as [|n IH]; intros s; simpl; rewrite bind_get_state.
  - destruct (nextUnitOfWork s) as [u|] eqn:E; [discriminate|].
    intros H. injection H as <-. exact E.
  - destruct (nextUnitOfWork s) as [u|] eqn:E.
    + intros H. apply bind_Ok in H as (next & s1 & _ & H).
      rewrite bind_modify in H. eapply IH. exact H.
    + intros H. injection H as <-. exact E.
Qed.



Lemma gemini_commitRoot_promotes fuel s s' :
  Gemini.commitRoot fuel s = Ok (tt, s') ->
  currentRoot s' = wipRoot s /\ wipRoot s' = None /\ nextUnitOfWork s' = nextUnitOfWork s
  /\ wipRoot s <> None.
Proof.
  unfold Gemini.commitRoot. rewrite bind_get_state. intros H.
  apply bind_Ok in H as ([] & s1 & H1 & H). rewrite bind_get_state in H.
  destruct (clears_dispositions_forEach _ _
              (fun x => gemini_commitWork_clears_dispositions fuel (Some x)) _ _ _ H1)
    as (_ & Hn1 & _ & Hw1 & _).
  destruct (wipRoot s1) as [w|] eqn:Hw; [|discriminate].
  apply bind_Ok in H as (wf & s2 & H2 & H). apply read_fiber_Ok in H2 as [_ ->].
  apply bind_Ok in H as ([] & s3 & H3 & H).
  assert (D3 : dispositions_cleared s1 s3).
  { destruct (child wf) as [c|].
    - eapply gemini_commitWork_clears_dispositions. exact H3.
    - injection H3 as <-. apply dispositions_cleared_refl. }
  destruct D3 as (_ & Hn3 & _ & Hw3 & _).
  injection H as <-. simpl. rewrite <- Hw1, Hw3, Hw, Hn3, Hn1.
  repeat split. discriminate.
Qed.

(** X4: [render] of gemini.html is synchronous: when it returns, the pass
    it started has been committed; no unit of work and no pending root is
    left, and the root fiber it allocated is the committed root. *)
Theorem gemini_render_completes fuel element container s s' :
  Gemini.render fuel element container s = Ok (tt, s') ->
  nextUnitOfWork s' = None
  /\ wipRoot s' = None
  /\ currentRoot s' = Some (length (heap s)).
Proof.
  unfold Gemini.render, Gemini.workLoop. rewrite bind_get_state. intros H.
  apply bind_Ok in H as (w & s1 & H1 & H). injection H1 as <- <-.
  rewrite bind_modify in H.
  apply bind_Ok in H as ([] & s2 & H2 & H). rewrite bind_get_state in H.
  pose proof (gemini_perform_units_done _ _ _ _ H2) as Hn2.
  destruct (gemini_perform_units_render_phase _ _ _ _ _ H2) as (_ & Hw2 & _).
  simpl in Hw2. rewrite Hn2, Hw2 in H.
  apply gemini_commitRoot_promotes in H as (A & B & C & _).
  rewrite A, B, C, Hn2, Hw2. repeat split.
Qed.

Lemma gemini_render_completes_witness :
  exists s',
    Gemini.render 64 (gemini_ul [gemini_li "1"; gemini_li "2"]) 0 initial_state = Ok (tt, s')
    /\ nextUnitOfWork s' = None
    /\ wipRoot s' = None
    /\ currentRoot s' = Some (length (heap initial_state)).
Proof.
  eexists. split; [vm_compute; reflexivity|].
  apply (gemini_render_completes 64 (gemini_ul [gemini_li "1"; gemini_li "2"]) 0 initial_state).
  vm_compute. reflexivity.
Defined.

(** X5: the render phase of gemini.html leaves the live document alone in
    the same way: the loop of [workLoop] keeps both roots and every DOM
    node that existed before, and ends with no unit of work left. *)
Theorem gemini_render_phase_keeps_nodes fuel steps s s' :
  Gemini.perform_units fuel steps s = Ok (tt, s') ->
  nextUnitOfWork s' = None
  /\ currentRoot s' = currentRoot s
  /\ wipRoot s' = wipRoot s
  /\ exists created, document s' = document s ++ created.
Proof.
  intros H. split; [eapply gemini_perform_units_done; exact H|].
  exact (gemini_perform_units_render_phase fuel steps s tt s' H).
Qed.

Lemma gemini_render_phase_keeps_nodes_witness :
  exists s',
    Gemini.perform_units 64 64 (gemini_pass_started (gemini_ul [gemini_li "1"])) = Ok (tt, s')
    /\ nextUnitOfWork s' = None
    /\ currentRoot s' = currentRoot (gemini_pass_started (gemini_ul [gemini_li "1"]))
    /\ wipRoot s' = wipRoot (gemini_pass_started (gemini_ul [gemini_li "1"]))
    /\ exists created,
         document s' = document (gemini_pass_started (gemini_ul [gemini_li "1"])) ++ created.
Proof.
  eexists. split; [vm_compute; reflexivity|].
  apply (gemini_render_phase_keeps_nodes 64 64).
  vm_compute. reflexivity.
Defined.

Lemma part001_rerender_keeps cc D container s fuel deadline :
  committed_as D container s ->
  nodes D + 2 <= fuel ->
  nodes D <= deadline ->
  exists s',
    (Part001.render (to_child D) container ;;; Part001.workLoop cc fuel deadline) s = Ok (tt, s')
    /\ document s' = document s
    /\ length (heap s') = length (heap s) + 1 + nodes D
    /\ committed_as D container s'.
Proof.
  intros (Hnx & Hwr & Hc & o & fo & Hcr & Hfo & Hold) Hfuel Hdl.
  destruct (part001_update_pass cc D container s fuel deadline o fo Hcr Hfo Hold Hc Hfuel Hdl)
    as (s2 & ids & Hrun2 & Hnx2 & Hwr2 & Hcr2 & Hde2 & Hdoc2 & Hlen2 & Hkeep & Hup & Hroot2
        & Hfo2 & Hnd).
  pose proof (part001_commit_updated_pass fuel s2 (length (heap s)) _ container _ _ _ _ [D] ids
                Hnx2 Hwr2 Hde2 Hroot2 eq_refl eq_refl Hfo2 ltac:(simpl; lia)) as Hcommit.
  eexists. split.
  { unfold Part001.workLoop.
    rewrite <- (bind_assoc (Part001.render (to_child D) container)
                  (fun _ => Part001.perform_units cc fuel deadline)
                  (fun _ => Part001.commit_when_done fuel)).
    rewrite (bind_Ok_intro _ _ _ _ _ Hrun2). exact Hcommit. }
  simpl. split; [exact Hdoc2|]. split; [exact Hlen2|].
  split; [reflexivity|]. split; [reflexivity|]. split; [rewrite Hdoc2; exact Hc|].
  eexists. eexists. split; [reflexivity|]. split; [exact Hroot2|].
  simpl. rewrite Hdoc2.
  eapply forest_at_old; [exact Hfo2 | lia |].
  intros f (_ & o' & fo' & d & _ & _ & _ & _ & _ & Hd & Hlt). exists d. split; assumption.
Qed.



Lemma filter_all {A} (P : A -> bool) (l : list A) :
  (forall x, x ∈ l -> P x = true) -> filter (fun k => P k) l = l.
Proof.
  induction l as [|x l IH]; intros H; [reflexivity|].
  rewrite filter_cons. destruct (decide (P x)) as [Hd|Hd].
  - f_equal. apply IH. intros y Hy. apply H. right. exact Hy.
  - rewrite H in Hd by left. exfalso. apply Hd. exact I.
Qed.

Lemma get_prop_plain a cs :
  NoDup (map fst a) -> Forall (fun kv => get_prop (mkProps a cs) (fst kv) = snd kv) a.
Proof.
  unfold get_prop. simpl. induction a as [|[k v] a IH]; intros Hnd; [constructor|].
  apply NoDup_cons in Hnd as [Hk Hnd]. constructor.
  - simpl. rewrite String.eqb_refl. reflexivity.
  - specialize (IH Hnd). rewrite Forall_forall in *. intros [k' v'] Hin. simpl.
    destruct (String.eqb k k') eqn:E.
    + apply String.eqb_eq in E. subst k'. exfalso. apply Hk.
      apply list_elem_of_fmap. exists (k, v'). split; [reflexivity | exact Hin].
    + apply (IH (k', v') Hin).
Qed.

Lemma foldl_insert_pairs (a : list (string * Value)) (m0 : gmap string Value) :
  NoDup (map fst a) ->
  foldl (fun m kv => <[fst kv := snd kv]> m) m0 a = list_to_map a ∪ m0.
Proof.
  revert m0. induction a as [|[k v] a IH]; intros m0 Hnd; simpl.
  - rewrite (left_id_L ∅ (∪)). reflexivity.
  - apply NoDup_cons in Hnd as [Hk Hnd]. rewrite IH by exact Hnd.
    rewrite <- insert_union_l. rewrite insert_union_r; [reflexivity|].
    apply not_elem_of_list_to_map_1. exact Hk.
Qed.

Lemma foldl_insert_names (val : string -> Value) (a : list (string * Value))
    (m0 : gmap string Value) :
  Forall (fun kv => val (fst kv) = snd kv) a ->
  foldl (fun m name => <[name := val name]> m) m0 (map fst a)
  = foldl (fun m kv => <[fst kv := snd kv]> m) m0 a.
Proof.
  revert m0. induction a as [|[k v] a IH]; intros m0 Hg; [reflexivity|].
  apply Forall_cons in Hg as [H1 H2]. simpl in *. rewrite H1. apply IH. exact H2.
Qed.

Lemma forEach_set_property d (val : string -> Value) names s n :
  document s !! d = Some n ->
  forEach (fun name => set_property d name (val name)) names s
  = Ok (tt, with_document
              (<[d := set_properties
                        (foldl (fun m name => <[name := val name]> m) (properties n) names) n]>
                 (document s)) s).
Proof.
  revert s n. induction names as [|x names IH]; intros s n Hn.
  - simpl. unfold ret. f_equal. f_equal.
    assert (E : set_properties (properties n) n = n) by (destruct n; reflexivity).
    rewrite E, list_insert_id by exact Hn. destruct s; reflexivity.
  - cbn [forEach foldl].
    assert (H1 : set_property d x (val x) s
                 = Ok (tt, with_document
                             (<[d := set_properties (<[x := val x]> (properties n)) n]>
                                (document s)) s)).
    { unfold set_property, update_node. rewrite Hn. reflexivity. }
    rewrite (bind_Ok_intro _ _ _ _ _ H1).
    rewrite (IH _ (set_properties (<[x := val x]> (properties n)) n)).
    + simpl. rewrite list_insert_insert_eq. reflexivity.
    + simpl. apply list_lookup_insert_eq. eapply lookup_lt_Some. exact Hn.
Qed.

Lemma isProperty_not_event k : Part001.isProperty k = true -> Part001.isEvent k = false.
Proof.
  unfold Part001.isProperty. intros H. apply andb_true_iff in H as [_ H].
  apply negb_true_iff in H. exact H.
Qed.

(** [createDom] on a fiber with plain attributes appends exactly the node
    of its description node. *)
Lemma part001_createDom_exact f k a cs s :
  type f = Some (TyStr k) ->
  props f = Some (mkProps a cs) ->
  plain_attributes a ->
  Part001.createDom f s
  = Ok (length (document s), with_document (document s ++ [created_node k a]) s).
Proof.
  intros Hty Hp [Hnd Hplain]. unfold Part001.createDom. rewrite Hp, Hty.
  assert (Hnew : (if bool_decide (Some (TyStr k) = Some (TyStr "TEXT_ELEMENT"))
                  then createTextNode ""
                  else document_createElement (Part001.tag_name (Some (TyStr k)))) s
                 = Ok (length (document s), with_document (document s ++ [blank_node k]) s)).
  { unfold blank_node. destruct (String.eqb k "TEXT_ELEMENT") eqn:E.
    - apply String.eqb_eq in E. subst k. rewrite bool_decide_eq_true_2 by reflexivity.
      reflexivity.
    - rewrite bool_decide_eq_false_2; [reflexivity|].
      intros [= ->]. rewrite String.eqb_refl in E. discriminate. }
  rewrite (bind_Ok_intro _ _ _ _ _ Hnew).
  unfold Part001.updateDomProperties.
  change (keys empty_props) with (@nil string). rewrite !filter_nil. cbn [forEach].
  rewrite !bind_assoc, !bind_ret.
  assert (Hkeys : filter (fun k0 => Part001.isNew empty_props (mkProps a cs) k0)
                    (filter (fun k0 => Part001.isProperty k0) (keys (mkProps a cs)))
                  = map fst a).
  { rewrite (filter_all (fun k0 => Part001.isProperty k0)).
    - apply filter_all. intros x Hx. apply list_elem_of_fmap in Hx as ([k' v'] & -> & Hin).
      pose proof (get_prop_plain a cs Hnd) as Hg. rewrite Forall_forall in Hg, Hplain.
      unfold Part001.isNew, strict_ne. rewrite (Hg _ Hin). simpl.
      destruct (Hplain _ Hin) as [_ Hv]. simpl in Hv.
      rewrite bool_decide_eq_false_2; [reflexivity|]. intros E. apply Hv. symmetry. exact E.
    - intros x Hx. apply list_elem_of_fmap in Hx as ([k' v'] & -> & Hin).
      rewrite Forall_forall in Hplain. apply (Hplain _ Hin). }
  assert (Hev : filter (fun k0 => Part001.isNew empty_props (mkProps a cs) k0)
                  (filter (fun k0 => Part001.isEvent k0) (keys (mkProps a cs))) = []).
  { rewrite (filter_none (fun k0 => Part001.isEvent k0)); [reflexivity|].
    intros x Hx. apply list_elem_of_fmap in Hx as ([k' v'] & -> & Hin).
    rewrite Forall_forall in Hplain. apply isProperty_not_event, (Hplain _ Hin). }
  rewrite Hkeys, Hev. cbn [forEach].
  repeat (rewrite bind_ret || rewrite bind_assoc).
  rewrite (bind_Ok_intro _ _ _ _ _
             (forEach_set_property (length (document s)) (get_prop (mkProps a cs)) (map fst a)
                (with_document (document s ++ [blank_node k]) s) (blank_node k)
                ltac:(simpl; apply list_lookup_middle; reflexivity))).
  rewrite !bind_ret. unfold ret. f_equal. f_equal. simpl.
  assert (E : foldl (fun m name => <[name := get_prop (mkProps a cs) name]> m)
                (properties (blank_node k)) (map fst a)
              = list_to_map a ∪ properties (blank_node k)).
  { rewrite <- foldl_insert_pairs by exact Hnd.
    apply foldl_insert_names, get_prop_plain, Hnd. }
  rewrite E. unfold with_document. simpl. f_equal.
  rewrite insert_app_r_alt by lia. rewrite Nat.sub_diag. reflexivity.
Qed.

Lemma created_tree_length t : length (created_tree t) = nodes t.
Proof.
  induction t as [k a ks IH] using DTree_induction. simpl. f_equal.
  induction IH as [|t ts Ht _ IHts]; [reflexivity|].
  simpl. rewrite length_app, Ht, IHts. reflexivity.
Qed.

Lemma created_forest_length ts : length (created_forest ts) = sum_list (map nodes ts).
Proof.
  unfold created_forest. induction ts as [|t ts IH]; [reflexivity|].
  simpl. rewrite length_app, created_tree_length, IH. reflexivity.
Qed.

Lemma built_at_frame h h' lo p o b ts :
  built_at h lo p o b ts ->
  (forall j, lo <= j -> j < length h -> h' !! j = h !! j) ->
  built_at h' lo p o b ts.
Proof.
  intros H Hfr. induction H; [constructor|].
  econstructor; eauto. rewrite Hfr; [assumption | assumption | eapply lookup_lt_Some; eassumption].
Qed.

Lemma built_at_weaken h lo lo' p o b ts :
  built_at h lo p o b ts -> lo' <= lo -> built_at h lo' p o b ts.
Proof.
  intros H Hlo. induction H; [constructor|]. econstructor; eauto. lia.
Qed.

(** The document after the unit of work of a host fiber that has no DOM
    node yet. *)
Lemma part001_unit_document cc fuel i s f k a cs next s' :
  heap s !! i = Some f ->
  type f = Some (TyStr k) ->
  props f = Some (mkProps a cs) ->
  dom f = None ->
  plain_attributes a ->
  Part001.performUnitOfWork cc fuel i s = Ok (next, s') ->
  document s' = document s ++ [created_node k a].
Proof.
  intros Hf Hty Hp Hd Hplain H.
  unfold Part001.performUnitOfWork in H.
  rewrite (bind_read_fiber i _ _ f) in H by exact Hf. rewrite Hty in H.
  apply bind_Ok in H as ([] & s1 & H1 & H2).
  apply next_unit_frames in H2. apply node_frame_document in H2. rewrite H2.
  unfold Part001.updateHostComponent in H1.
  rewrite (bind_read_fiber i _ _ f) in H1 by exact Hf. rewrite Hd in H1.
  rewrite bind_assoc in H1.
  rewrite (bind_Ok_intro _ _ _ _ _ (part001_createDom_exact f k a cs s Hty Hp Hplain)) in H1.
  apply bind_Ok in H1 as ([] & s2 & H3 & H4).
  apply frames_update_fiber with (d := None) in H3. apply node_frame_document in H3.
  assert (F4 : frames None (f0 <- read_fiber i ;;
                            match props f0 with
                            | Some p => reconcileChildren VPart001 fuel i (children p)
                            | None => throw TypeError
                            end)) by frames.
  apply F4 in H4. apply node_frame_document in H4. rewrite H4, H3. reflexivity.
Qed.

Lemma forest_builds_from_trees cc ts :
  Forall (tree_builds cc) ts -> forest_builds cc ts.
Proof.
  induction 1 as [|t ts Ht _ IH];
    intros fuel s c p r n Hne Hplain Hroots Hpc Hclimb Hfuel; [contradiction|].
  apply Forall_cons in Hplain as [Hpt Hpts].
  pose proof (Hroots 0 t eq_refl) as Hc. rewrite Nat.add_0_r in Hc.
  assert (Hclen : c < length (heap s)) by (eapply lookup_lt_Some; exact Hc).
  set (sib := if bool_decide (1 < length (t :: ts)) then Some (c + 1) else None) in *.
  set (rc := match sib with Some x => Some x | None => r end).
  assert (Hcc : sibling_climb (S n) (heap s) (Some c) = Ok rc).
  { simpl. rewrite Hc. unfold rc. simpl sibling. destruct sib; [reflexivity|exact Hclimb]. }
  simpl in Hfuel.
  destruct (Ht fuel s c p sib rc (S n) Hpt Hc Hcc ltac:(lia))
    as (s1 & Hrun1 & Hstep1 & Hlen1 & Hfr1 & Hdoc1 & ch & Hfc & Hbk).
  destruct ts as [|t2 ts'].
  - (* the last sibling *)
    exists s1. simpl. rewrite Nat.add_0_r.
    assert (Hrc : rc = r) by reflexivity.
    split; [rewrite Hrun1, Hrc; reflexivity|].
    split; [exact Hstep1|].
    split; [rewrite Hlen1; lia|].
    split; [intros j Hj Hn; apply Hfr1; [exact Hj | lia]|].
    split; [rewrite Hdoc1; unfold created_forest; simpl; rewrite app_nil_r; reflexivity|].
    econstructor.
    + apply Nat.le_refl.
    + exact Hfc.
    + reflexivity.
    + reflexivity.
    + reflexivity.
    + reflexivity.
    + reflexivity.
    + eapply built_at_weaken; [exact Hbk | lia].
    + constructor.
  - (* more siblings follow *)
    assert (Hrc : rc = Some (c + 1)) by reflexivity.
    destruct Hstep1 as (Hk1 & Hdl1 & Hwf1 & Hde1 & Hcr1 & Hwr1).
    assert (Hroots' : forall q t', (t2 :: ts') !! q = Some t' ->
              heap s1 !! (c + 1 + q) =
                Some (fresh_fiber t' p
                        (if bool_decide (S q < length (t2 :: ts')) then Some (c + 1 + S q)
                         else None))).
    { intros q t' Hq. pose proof (Hroots (S q) t' Hq) as Hr.
      replace (c + 1 + q) with (c + S q) by lia.
      rewrite Hfr1; [|eapply lookup_lt_Some; exact Hr | lia].
      rewrite Hr. f_equal. f_equal.
      assert (E : bool_decide (S (S q) < length (t :: t2 :: ts'))
                  = bool_decide (S q < length (t2 :: ts'))) by (apply bool_decide_ext; simpl; lia).
      rewrite E. replace (c + 1 + S q) with (c + S (S q)) by lia. reflexivity. }
    assert (Hclimb1 : sibling_climb n (heap s1) (Some p) = Ok r).
    { eapply sibling_climb_links_kept; [apply tags_kept_links; exact Hk1 | exact Hclimb]. }
    destruct (IH fuel s1 (c + 1) p r n ltac:(discriminate) Hpts Hroots' ltac:(lia) Hclimb1
                ltac:(lia))
      as (s2 & Hrun2 & Hstep2 & Hlen2 & Hfr2 & Hdoc2 & Hbr).
    pose proof (sum_nodes_ge_length (t2 :: ts')) as Hsum.
    pose proof (nodes_pos t) as Hpos.
    assert (Hlast : c + S (length (t2 :: ts')) <= length (heap s)).
    { destruct (lookup_lt_is_Some_2 (t :: t2 :: ts') (length (t2 :: ts'))) as [tl Htl];
        [simpl; lia|].
      pose proof (Hroots _ _ Htl) as Hr. apply lookup_lt_Some in Hr. lia. }
    exists s2.
    split.
    { change (sum_list (map nodes (t :: t2 :: ts')))
        with (nodes t + sum_list (map nodes (t2 :: ts'))).
      rewrite run_units_add, (bind_Ok_intro _ _ _ _ _ Hrun1), Hrc. exact Hrun2. }
    split; [eapply pass_step_trans; [|exact Hstep2]; repeat split; assumption|].
    split.
    { rewrite Hlen2, Hlen1.
      change (sum_list (map nodes (t :: t2 :: ts')))
        with (nodes t + sum_list (map nodes (t2 :: ts'))).
      simpl length in *. lia. }
    split.
    { intros j Hj Hn. rewrite Hfr2; [apply Hfr1; [exact Hj | simpl in Hn; lia] | |].
      - apply tags_kept_length in Hk1. lia.
      - simpl in *. lia. }
    split.
    { rewrite Hdoc2, Hdoc1, <- app_assoc. reflexivity. }
    econstructor.
    + apply Nat.le_refl.
    + rewrite Hfr2; [exact Hfc | apply tags_kept_length in Hk1; lia | lia].
    + reflexivity.
    + reflexivity.
    + reflexivity.
    + reflexivity.
    + reflexivity.
    + simpl child. eapply built_at_weaken with (lo := length (heap s)); [|lia].
      eapply built_at_frame; [exact Hbk|].
      intros j Hj1 Hj2. apply Hfr2; [exact Hj2 | simpl in *; lia].
    + simpl sibling. fold sib. replace sib with (Some (c + 1)) by reflexivity.
      eapply built_at_weaken; [|apply Nat.le_add_r].
      rewrite Hdoc1, length_app, created_tree_length in Hbr. exact Hbr.
Qed.

Lemma tree_builds_all cc t : tree_builds cc t.
Proof.
  induction t as [k a ks IHks] using DTree_induction.
  apply forest_builds_from_trees in IHks.
  intros fuel s i p sib r n Hplain Hf Hclimb Hfuel.
  inversion Hplain as [k0 a0 ks0 Hpa Hpks]; subst k0 a0 ks0.
  set (t := DNode k a ks) in *.
  assert (Hi : i < length (heap s)) by (eapply lookup_lt_Some; exact Hf).
  pose proof (sum_nodes_ge_length ks) as Hsum.
  assert (Hnodes : nodes t = S (sum_list (map nodes ks))) by reflexivity.
  destruct (part001_unit_without_predecessor cc fuel s i (fresh_fiber t p sib) a ks r n)
    as (s0 & d & Hrun1 & Hdd & Hd & Hlen1 & Hfr1 & Hfi & Hnew & Hdl & _ & Hwf & Hde & _ & Hcr & Hwr);
    try reflexivity; try assumption; try lia.
  { intros c. discriminate. }
  { intros d0 H0. discriminate H0. }
  destruct Hdd as [Hdd | [_ ->]]; [discriminate Hdd|].
  pose proof (part001_unit_document cc fuel i s _ k a (map to_child ks) _ _ Hf eq_refl eq_refl
                eq_refl Hpa Hrun1) as Hdoc1.
  set (next := if bool_decide (0 < length ks) then Some (length (heap s)) else r) in *.
  set (s1 := with_nextUnitOfWork next s0).
  change (heap s0) with (heap s1) in *. change (document s0) with (document s1) in *.
  change (deletions s0) with (deletions s1) in *.
  change (currentRoot s0) with (currentRoot s1) in *. change (wipRoot s0) with (wipRoot s1) in *.
  assert (Hk1 : tags_kept (heap s) (heap s1)).
  { intros j g Hg. destruct (decide (j = i)) as [->|Hne].
    - rewrite Hfi. eexists. split; [reflexivity|].
      rewrite Hf in Hg. injection Hg as <-. repeat split; reflexivity.
    - rewrite Hfr1; [eauto 10 | eapply lookup_lt_Some; exact Hg | exact Hne]. }
  assert (Hstep1 : pass_step s s1) by (repeat split; assumption).
  assert (Hunit : run_units cc fuel (nodes t) (Some i) s
                  = run_units cc fuel (sum_list (map nodes ks)) next s1).
  { rewrite Hnodes. cbn [run_units]. rewrite (bind_Ok_intro _ _ _ _ _ Hrun1), bind_modify.
    reflexivity. }
  destruct ks as [|t1 ks'] eqn:Eks.
  - exists s1. rewrite Hunit. simpl in *.
    split; [reflexivity|]. split; [exact Hstep1|].
    split; [lia|]. split; [exact Hfr1|].
    split; [exact Hdoc1|].
    exists None. split; [exact Hfi | constructor].
  - rewrite <- Eks in *.
    assert (Hpos : 0 < length ks) by (rewrite Eks; simpl; lia).
    unfold next in *.
    rewrite bool_decide_eq_true_2 in Hunit by (simpl; lia).
    rewrite bool_decide_eq_true_2 in Hfi by exact Hpos.
    destruct (IHks fuel s1 (length (heap s)) i r n)
      as (s2 & Hrun2 & Hstep2 & Hlen2 & Hfr2 & Hdoc2 & Hb).
    + rewrite Eks. discriminate.
    + exact Hpks.
    + exact Hnew.
    + exact Hi.
    + eapply sibling_climb_links_kept; [apply tags_kept_links; exact Hk1 | exact Hclimb].
    + lia.
    + exists s2. split; [rewrite Hunit; exact Hrun2|].
      split; [eapply pass_step_trans; eassumption|].
      split; [rewrite Hlen2, Hlen1, Hnodes; lia|].
      split.
      { intros j Hj Hne. rewrite Hfr2; [apply Hfr1; assumption | lia | lia]. }
      split.
      { rewrite Hdoc2, Hdoc1, <- app_assoc. rewrite Eks. reflexivity. }
      exists (Some (length (heap s))).
      split; [rewrite Hfr2; [exact Hfi | lia | lia]|].
      rewrite Hdoc1, length_app in Hb. simpl in Hb.
      replace (length (document s) + 1) with (S (length (document s))) in Hb by lia.
      rewrite Eks in Hb. exact Hb.
Qed.

Lemma linked_tree_unfold parent b k a ks :
  linked_tree parent b (DNode k a ks)
  = linked_node parent b k a ks :: linked_forest b (S b) ks.
Proof.
  simpl. f_equal. generalize (S b). induction ks as [|t ks IH]; intros b'; [reflexivity|].
  simpl. rewrite IH. reflexivity.
Qed.

Lemma linked_tree_length parent b t : length (linked_tree parent b t) = nodes t.
Proof.
  revert parent b. induction t as [k a ks IH] using DTree_induction. intros parent b.
  rewrite linked_tree_unfold. simpl. f_equal. generalize (S b).
  induction IH as [|t ts Ht _ IHts]; intros b'; [reflexivity|].
  simpl. rewrite length_app, Ht, IHts. reflexivity.
Qed.

Lemma appendChild_detached p c s np nc :
  p <> c ->
  document s !! p = Some np ->
  document s !! c = Some nc ->
  parentNode nc = None ->
  appendChild p c s
  = Ok (tt, with_document
              (<[c := set_parentNode (Some p) nc]>
                 (<[p := set_childNodes (childNodes np ++ [c]) np]> (document s))) s).
Proof.
  intros Hne Hp Hc Hpar. unfold appendChild.
  assert (R : read_node p s = Ok (np, s)) by (unfold read_node; rewrite Hp; reflexivity).
  rewrite (bind_Ok_intro _ _ _ _ _ R).
  assert (D : detach c s = Ok (tt, s)).
  { unfold detach. assert (R' : read_node c s = Ok (nc, s))
      by (unfold read_node; rewrite Hc; reflexivity).
    rewrite (bind_Ok_intro _ _ _ _ _ R'), Hpar. reflexivity. }
  rewrite (bind_Ok_intro _ _ _ _ _ D).
  assert (U : update_node p (fun pn => set_childNodes (childNodes pn ++ [c]) pn) s
              = Ok (tt, with_document
                          (<[p := set_childNodes (childNodes np ++ [c]) np]> (document s)) s)).
  { unfold update_node. rewrite Hp. reflexivity. }
  rewrite (bind_Ok_intro _ _ _ _ _ U).
  unfold update_node. simpl.
  rewrite list_lookup_insert_ne by exact Hne. rewrite Hc. reflexivity.
Qed.

Lemma created_node_detached k a :
  parentNode (created_node k a) = None /\ childNodes (created_node k a) = [].
Proof. unfold created_node, blank_node. destruct (String.eqb k "TEXT_ELEMENT"); split; reflexivity. Qed.

Lemma with_document_id s : with_document (document s) s = s.
Proof. destruct s; reflexivity. Qed.

Lemma set_childNodes_id n : set_childNodes (childNodes n) n = n.
Proof. destruct n; reflexivity. Qed.

(** Committing the insert fibers of a forest attaches their nodes: the
    node of the parent gets the roots as further children, and every node
    of the forest gets its parent and its children. *)
Lemma part001_commitWork_links h lo p c b ts :
  built_at h lo p c b ts ->
  forall fuel s pre post pf pd np,
    heap s = h ->
    h !! p = Some pf -> dom pf = Some pd ->
    document s = pre ++ created_forest ts ++ post ->
    length pre = b ->
    pre !! pd = Some np ->
    sum_list (map nodes ts) <= fuel ->
    Part001.commitWork fuel c s
    = Ok (tt, with_document
                (<[pd := set_childNodes (childNodes np ++ child_indices b ts) np]> pre
                 ++ linked_forest pd b ts ++ post) s).
Proof.
  induction 1 as [p b|p i f t rest b Hlo Hf Hty Hpr Hpa Htag Hd _ IH1 _ IH2];
    intros fuel s pre post pf pd np Hh Hp Hdp Hdoc Hlen Hnp Hfuel.
  - assert (E : Part001.commitWork fuel None s = Ok (tt, s)) by (destruct fuel; reflexivity).
    rewrite E. f_equal. f_equal. simpl. rewrite app_nil_r, set_childNodes_id.
    rewrite list_insert_id by exact Hnp. simpl in Hdoc. rewrite <- Hdoc.
    symmetry. apply with_document_id.
  - destruct t as [k a ks]. simpl kids_of in *. simpl kind_of in *.
    pose proof (nodes_pos (DNode k a ks)) as Hpos.
    assert (Hnt : nodes (DNode k a ks) = S (sum_list (map nodes ks))) by reflexivity.
    change (sum_list (map nodes (DNode k a ks :: rest)))
      with (nodes (DNode k a ks) + sum_list (map nodes rest)) in Hfuel.
    destruct fuel as [|fuel]; [lia|].
    assert (Hpd : pd < length pre) by (eapply lookup_lt_Some; exact Hnp).
    assert (Hdoc' : document s
              = pre ++ created_node k a :: created_forest ks ++ created_forest rest ++ post).
    { rewrite Hdoc. unfold created_forest. simpl. rewrite <- !app_assoc. reflexivity. }
    destruct (created_node_detached k a) as [Hcp Hcc].
    (* the node of the fiber is appended to the node of the parent *)
    set (np1 := set_childNodes (childNodes np ++ [b]) np).
    set (nb1 := set_parentNode (Some pd) (created_node k a)).
    set (s1 := with_document
                 (<[pd := np1]> pre ++ nb1 :: created_forest ks ++ created_forest rest ++ post)
                 s).
    assert (Happ : appendChild pd b s = Ok (tt, s1)).
    { rewrite (appendChild_detached pd b s np (created_node k a)).
      - unfold s1. f_equal. f_equal. f_equal. rewrite Hdoc'.
        rewrite insert_app_l by exact Hpd.
        rewrite insert_app_r_alt by (rewrite length_insert; lia).
        rewrite length_insert, Hlen, Nat.sub_diag. reflexivity.
      - lia.
      - rewrite Hdoc'. rewrite lookup_app_l by exact Hpd. exact Hnp.
      - rewrite Hdoc', <- Hlen. apply list_lookup_middle. reflexivity.
      - exact Hcp. }
    (* the children *)
    set (nb2 := linked_node pd b k a ks).
    set (s2 := with_document
                 (<[pd := np1]> pre ++ nb2 :: linked_forest b (S b) ks
                    ++ created_forest rest ++ post) s).
    assert (Hkids : Part001.commitWork fuel (child f) s1 = Ok (tt, s2)).
    { rewrite (IH1 fuel s1 (<[pd := np1]> pre ++ [nb1]) (created_forest rest ++ post) f b nb1).
      - unfold s2, s1. f_equal. f_equal. unfold with_document. simpl. f_equal.
        rewrite insert_app_r_alt by (rewrite length_insert; lia).
        rewrite length_insert, Hlen, Nat.sub_diag. simpl.
        rewrite <- !app_assoc. simpl. f_equal. f_equal.
        unfold nb2, linked_node, nb1. unfold set_childNodes. simpl.
        unfold blank_node. destruct (String.eqb k "TEXT_ELEMENT"); reflexivity.
      - exact Hh.
      - exact Hf.
      - exact Hd.
      - unfold s1. simpl. rewrite <- !app_assoc. reflexivity.
      - rewrite length_app, length_insert. simpl. lia.
      - rewrite lookup_app_r by (rewrite length_insert; lia).
        rewrite length_insert, Hlen, Nat.sub_diag. reflexivity.
      - lia. }
    (* the following siblings *)
    assert (Hsib : Part001.commitWork fuel (sibling f) s2
              = Ok (tt, with_document
                          (<[pd := set_childNodes
                                     (childNodes np ++ child_indices b (DNode k a ks :: rest)) np]>
                             pre
                           ++ linked_forest pd b (DNode k a ks :: rest) ++ post) s)).
    { rewrite (IH2 fuel s2 (<[pd := np1]> pre ++ linked_tree pd b (DNode k a ks)) post pf pd np1).
      - f_equal. f_equal. unfold s2, with_document. simpl. f_equal.
        rewrite insert_app_l by (rewrite length_insert; lia).
        rewrite list_insert_insert_eq.
        rewrite <- !app_assoc. f_equal.
      - exact Hh.
      - exact Hp.
      - exact Hdp.
      - rewrite linked_tree_unfold. unfold s2. cbn [document with_document].
        rewrite <- !app_assoc. reflexivity.
      - rewrite length_app, length_insert, linked_tree_length. lia.
      - rewrite lookup_app_l by (rewrite length_insert; lia).
        apply list_lookup_insert_eq. exact Hpd.
      - lia. }
    cbn [Part001.commitWork].
    rewrite (bind_read_fiber i _ _ f) by (rewrite Hh; exact Hf).
    rewrite Hpa.
    rewrite (bind_Ok_intro _ _ _ _ _
               (find_dom_parent_direct (S fuel) p pf pd s ltac:(rewrite Hh; exact Hp) Hdp)).
    rewrite Hdp, Htag, Hd.
    rewrite (bind_Ok_intro _ _ _ _ _ Happ).
    rewrite (bind_read_fiber i _ _ f) by (unfold s1; simpl; rewrite Hh; exact Hf).
    rewrite (bind_Ok_intro _ _ _ _ _ Hkids).
    rewrite (bind_read_fiber i _ _ f) by (unfold s2; simpl; rewrite Hh; exact Hf).
    exact Hsib.
Qed.

(** The first render pass with plain attributes: the fibers and the
    document when the units of work are done. *)
Lemma part001_first_pass_builds cc D container s fuel deadline :
  currentRoot s = None ->
  container < length (document s) ->
  plain_tree D ->
  nodes D + 2 <= fuel ->
  nodes D <= deadline ->
  exists s',
    (Part001.render (to_child D) container ;;; Part001.perform_units cc fuel deadline) s
      = Ok (tt, s')
    /\ nextUnitOfWork s' = None
    /\ wipRoot s' = Some (length (heap s))
    /\ deletions s' = []
    /\ document s' = document s ++ created_tree D
    /\ heap s' !! length (heap s) =
         Some (root_fiber D container None (Some (S (length (heap s)))))
    /\ built_at (heap s') (S (length (heap s))) (length (heap s)) (Some (S (length (heap s))))
         (length (document s)) [D].
Proof.
  intros Hcr Hc Hplain Hfuel Hdl.
  set (root := root_fiber D container None None).
  set (n0 := length (heap s)).
  set (sr := mkState (heap s ++ [root]) (document s) (Some n0) None (Some n0) []).
  assert (Hrender : Part001.render (to_child D) container s = Ok (tt, sr)).
  { unfold Part001.render, bind, get_state, new_fiber, modify. simpl. rewrite Hcr. reflexivity. }
  assert (Hroot : heap sr !! n0 = Some root).
  { simpl. rewrite lookup_app_r by (unfold n0; lia).
    replace (n0 - length (heap s)) with 0 by (unfold n0; lia). reflexivity. }
  destruct (part001_unit_without_predecessor cc fuel sr n0 root [] [D] None 1)
    as (s0 & d & Hrun1 & Hdd & Hd & Hlen1 & Hfr1 & Hfi & Hnew & Hdl1 & Hdoc1 & Hwf & Hde & _
        & Hcr1 & Hwr1);
    try reflexivity; try assumption.
  { intros c. discriminate. }
  { intros d0 H0. injection H0 as <-. exact Hc. }
  { simpl. rewrite lookup_app_r by (unfold n0; lia).
    replace (n0 - length (heap s)) with 0 by (unfold n0; lia). reflexivity. }
  { lia. }
  { simpl. pose proof (nodes_pos D). lia. }
  destruct Hdd as [Hdd | [Hdd _]]; [|discriminate Hdd]. injection Hdd as <-.
  specialize (Hdoc1 ltac:(discriminate)).
  rewrite bool_decide_eq_true_2 in Hrun1, Hfi by (simpl; lia).
  set (s1 := with_nextUnitOfWork (Some (length (heap sr))) s0).
  assert (Hlsr : length (heap sr) = S n0) by (simpl; rewrite length_app; simpl; unfold n0; lia).
  destruct (forest_builds_from_trees cc [D]
              (Forall_cons_2 _ _ _ (tree_builds_all cc D) (Forall_nil_2 _))
              fuel s1 (S n0) n0 None 1)
    as (s2 & Hrun2 & Hstep2 & Hlen2 & Hfr2 & Hdoc2 & Hb).
  { discriminate. }
  { constructor; [exact Hplain | constructor]. }
  { intros q t Hq. destruct q as [|q]; [|destruct q; discriminate Hq].
    injection Hq as <-. specialize (Hnew 0 D eq_refl).
    rewrite Hlsr in Hnew. simpl in Hnew. rewrite Nat.add_0_r in *. exact Hnew. }
  { lia. }
  { change (heap s1) with (heap s0). simpl. rewrite Hfi. reflexivity. }
  { simpl. lia. }
  assert (Hroot2 : heap s2 !! n0 = Some (set_child (Some (S n0)) root)).
  { rewrite Hfr2; [change (heap s1) with (heap s0); rewrite Hfi, Hlsr; reflexivity
                  | change (heap s1) with (heap s0); lia | simpl; lia]. }
  exists (with_nextUnitOfWork None s2).
  assert (Hall : run_units cc fuel (S deadline) (Some n0) sr = Ok (None, s2)).
  { apply (run_units_done cc fuel (1 + sum_list (map nodes [D]))); [|simpl; lia].
    rewrite run_units_add.
    assert (H1 : run_units cc fuel 1 (Some n0) sr = Ok (Some (S n0), s1)).
    { cbn [run_units]. rewrite (bind_Ok_intro _ _ _ _ _ Hrun1), bind_modify.
      unfold s1. rewrite Hlsr. reflexivity. }
    rewrite (bind_Ok_intro _ _ _ _ _ H1). exact Hrun2. }
  pose proof (run_units_next _ _ _ _ _ _ _ Hall eq_refl) as Hnext.
  destruct Hstep2 as (Hk2 & Hdl2 & Hwf2 & Hde2 & Hcr2 & Hwr2).
  change (heap s1) with (heap s0) in *. change (deletions s1) with (deletions s0) in *.
  change (wipRoot s1) with (wipRoot s0) in *. change (document s1) with (document s0) in *.
  split.
  { rewrite (bind_Ok_intro _ _ _ _ _ Hrender). rewrite perform_units_run_units.
    cbn [nextUnitOfWork sr]. rewrite (bind_Ok_intro _ _ _ _ _ Hall).
    destruct s2; simpl in *; subst; reflexivity. }
  simpl.
  split; [reflexivity|].
  split; [rewrite Hwr2, Hwr1; reflexivity|].
  split; [rewrite Hde2, Hde; reflexivity|].
  split.
  { rewrite Hdoc2, Hdoc1. unfold created_forest. simpl. rewrite app_nil_r. reflexivity. }
  split; [exact Hroot2|].
  rewrite Hdoc1 in Hb. exact Hb.
Qed.


Lemma plain_ul_tree labels : plain_tree (ul_tree labels).
Proof.
  constructor; [split; [constructor | constructor]|].
  apply Forall_forall. intros t Ht. apply list_elem_of_fmap in Ht as (l & -> & _).
  constructor; [split; [constructor | constructor]|].
  constructor; [|constructor].
  constructor; [|constructor].
  split.
  - apply NoDup_singleton.
  - constructor; [|constructor]. split; [reflexivity | discriminate].
Qed.

(** The nodes of a list with one item, below node 0 and numbered from 1
    on. *)
Lemma linked_tree_ul_example :
  linked_tree 0 1 (ul_tree ["a"])
  = [ mkDomNode (ElementNode "ul") ∅ [] (Some 0) [2];
      mkDomNode (ElementNode "li") ∅ [] (Some 1) [3];
      mkDomNode TextNode {["nodeValue" := VPrim (PStr "a")]} [] (Some 2) [] ].
Proof. vm_compute. reflexivity. Qed.


Lemma dom_parent_fiber_sound fuel h start r :
  dom_parent_fiber fuel h start = Ok r -> dom_ancestor h start r.
Proof.
  revert start. induction fuel as [|fuel IH]; intros [i|]; simpl.
  - destruct (h !! i) as [f|] eqn:Hf; [|discriminate].
    destruct (dom f) as [d|] eqn:Hd; [|discriminate].
    intros H. injection H as <-. eapply dom_ancestor_here; eassumption.
  - intros H. injection H as <-. constructor.
  - destruct (h !! i) as [f|] eqn:Hf; [|discriminate].
    destruct (dom f) as [d|] eqn:Hd.
    + intros H. injection H as <-. eapply dom_ancestor_here; eassumption.
    + intros H. eapply dom_ancestor_up; [exact Hf | exact Hd | apply IH; exact H].
  - intros H. injection H as <-. constructor.
Qed.

Lemma dom_parent_fiber_complete h start r :
  dom_ancestor h start r ->
  exists n, forall fuel, n <= fuel -> dom_parent_fiber fuel h start = Ok r.
Proof.
  induction 1 as [|i f d Hf Hd|i f r Hf Hd _ [n IH]].
  - exists 0. intros fuel _. destruct fuel; reflexivity.
  - exists 0. intros fuel _. destruct fuel; simpl; rewrite Hf, Hd; reflexivity.
  - exists (S n). intros fuel Hfuel. destruct fuel as [|fuel]; [lia|].
    simpl. rewrite Hf, Hd. apply IH. lia.
Qed.

(** X8: the search for the DOM parent in [commitWork] (both variants)
    finds the nearest fiber with a DOM node on the way up through the
    [parent] links, or nothing when the links end before such a fiber:
    whatever the search returns is that fiber, and with enough fuel it
    returns it. *)
Theorem dom_parent_search h start :
  (forall fuel r, dom_parent_fiber fuel h start = Ok r -> dom_ancestor h start r)
  /\ (forall r, dom_ancestor h start r ->
        exists n, forall fuel s, n <= fuel -> find_dom_parent fuel start (with_heap h s)
                                              = Ok (r, with_heap h s)).
Proof.
  split.
  - intros fuel r. apply dom_parent_fiber_sound.
  - intros r Hr. destruct (dom_parent_fiber_complete h start r Hr) as [n Hn].
    exists n. intros fuel s Hfuel. unfold find_dom_parent. simpl. rewrite (Hn fuel Hfuel).
    reflexivity.
Qed.

(** X9: [commitDeletion] removes the first DOM node found from the
    deleted fiber downwards through the [child] links, and nothing when
    there is none; part_001 removes it unconditionally, gemini.html only
    when the parent node contains it. *)
Theorem commitDeletion_first_host h i r :
  first_host_node h i r ->
  exists n, forall fuel s domParent, n <= fuel -> heap s = h ->
    Part001.commitDeletion fuel i domParent s
      = match r with
        | Some d => removeChild domParent d s
        | None => Ok (tt, s)
        end
    /\ Gemini.commitDeletion fuel i domParent s
      = match r with
        | Some d => (present <- contains domParent d ;;
                     if (present : bool) then removeChild domParent d else ret tt) s
        | None => Ok (tt, s)
        end.
Proof.
  induction 1 as [i f d Hf Hd|i f Hf Hd Hc|i f c r Hf Hd Hc _ [n IH]].
  - exists 0. intros fuel s dp _ Hh. subst h.
    destruct fuel; simpl; rewrite !(bind_read_fiber i _ _ f) by exact Hf; rewrite Hd;
      split; reflexivity.
  - exists 0. intros fuel s dp _ Hh. subst h.
    destruct fuel; simpl; rewrite !(bind_read_fiber i _ _ f) by exact Hf; rewrite Hd, Hc;
      split; reflexivity.
  - exists (S n). intros fuel s dp Hfuel Hh. destruct fuel as [|fuel]; [lia|].
    simpl. subst h. rewrite !(bind_read_fiber i _ _ f) by exact Hf. rewrite Hd, Hc.
    apply IH; [lia | reflexivity].
Qed.

Lemma commitDeletion_first_host_witness :
  exists n, forall fuel s domParent, n <= fuel -> heap s = component_over_paragraph ->
    Part001.commitDeletion fuel 0 domParent s = removeChild domParent 1 s
    /\ Gemini.commitDeletion fuel 0 domParent s
       = (present <- contains domParent 1 ;;
          if (present : bool) then removeChild domParent 1 else ret tt) s.
Proof.
  apply (commitDeletion_first_host component_over_paragraph 0 (Some 1)).
  eapply first_host_down; [reflexivity | reflexivity | reflexivity |].
  eapply first_host_here; reflexivity.
Defined.

Lemma forEach_update_node {A} d (g : A -> DomNode -> DomNode) (l : list A) s n :
  document s !! d = Some n ->
  forEach (fun x => update_node d (g x)) l s
  = Ok (tt, with_document (<[d := foldl (fun m x => g x m) n l]> (document s)) s).
Proof.
  revert s n. induction l as [|x l IH]; intros s n Hn.
  - simpl. unfold ret. f_equal. f_equal.
    rewrite list_insert_id by exact Hn. destruct s; reflexivity.
  - cbn [forEach foldl].
    assert (H1 : update_node d (g x) s
                 = Ok (tt, with_document (<[d := g x n]> (document s)) s)).
    { unfold update_node. rewrite Hn. reflexivity. }
    rewrite (bind_Ok_intro _ _ _ _ _ H1).
    rewrite (IH _ (g x n)).
    + simpl. rewrite list_insert_insert_eq. reflexivity.
    + simpl. apply list_lookup_insert_eq. eapply lookup_lt_Some. exact Hn.
Qed.

Lemma foldl_set_properties_lookup (val : string -> Value) names n k :
  properties (foldl (fun m name => set_properties (<[name := val name]> (properties m)) m)
                n names) !! k
  = if bool_decide (k ∈ names) then Some (val k) else properties n !! k.
Proof.
  revert n. induction names as [|x names IH]; intros n.
  - cbn [foldl]. rewrite bool_decide_eq_false_2 by apply not_elem_of_nil. reflexivity.
  - cbn [foldl]. rewrite IH. cbn [properties set_properties].
    destruct (decide (k ∈ names)) as [Hin|Hin].
    + rewrite !bool_decide_eq_true_2 by (try right; exact Hin). reflexivity.
    + rewrite (bool_decide_eq_false_2 _ Hin).
      destruct (decide (k = x)) as [->|Hne].
      * rewrite bool_decide_eq_true_2 by left. apply lookup_insert_eq.
      * rewrite bool_decide_eq_false_2
          by (intros H; apply elem_of_cons in H as [H|H]; [congruence | contradiction]).
        apply lookup_insert_ne. congruence.
Qed.

Lemma foldl_links_kept {A} (g : A -> DomNode -> DomNode) (l : list A) n :
  (forall x m, nodeKind (g x m) = nodeKind m /\ parentNode (g x m) = parentNode m
               /\ childNodes (g x m) = childNodes m) ->
  nodeKind (foldl (fun m x => g x m) n l) = nodeKind n
  /\ parentNode (foldl (fun m x => g x m) n l) = parentNode n
  /\ childNodes (foldl (fun m x => g x m) n l) = childNodes n.
Proof.
  intros Hg. revert n. induction l as [|x l IH]; intros n; [repeat split|].
  simpl. destruct (IH (g x n)) as (A1 & A2 & A3). destruct (Hg x n) as (B1 & B2 & B3).
  repeat split; congruence.
Qed.

Lemma foldl_properties_kept {A} (g : A -> DomNode -> DomNode) (l : list A) n :
  (forall x m, properties (g x m) = properties m) ->
  properties (foldl (fun m x => g x m) n l) = properties n.
Proof.
  intros Hg. revert n. induction l as [|x l IH]; intros n; [reflexivity|].
  simpl. rewrite IH. apply Hg.
Qed.

Lemma has_prop_elem p k : has_prop p k = true <-> k ∈ keys p.
Proof.
  split; [|apply has_prop_keys].
  unfold keys, has_prop. induction (attrs p) as [|[k' v] l IH]; simpl; [discriminate|].
  destruct (String.eqb k' k) eqn:E.
  - intros _. apply String.eqb_eq in E. subst. left.
  - intros H. right. apply IH. exact H.
Qed.


